(** * PR-reviewer: reviewer assignment service and job dispatcher

    A shallow embedding of [internal/service] (the assignment engine and the
    job dispatcher) running on top of [internal/repo] (the PostgreSQL
    gateway), together with the properties the specification states about
    them.

    Conventions of the embedding:
    - the database is a record of tables, each table a list of rows; every
      repository method is a function on that record that follows its SQL
      statement, including the key constraints of [migrations.sql];
    - a service method is a computation in a state-and-error monad over a
      [World]: the database, the context of the running call, the random
      source, the clock and the log sink;
    - [crypto/rand] is an oracle: a list of draws consumed from the head;
    - a [context.Context] is described by the number of [Done] polls it still
      answers negatively;
    - a repository method hands the context of the call to [database/sql],
      which refuses a context that is already done; the functions of [repo]
      give the outcome of the SQL statements on the database, which is the
      outcome of the method as long as the context is not done.  Properties
      that fix the outcome of a service method after a repository call are
      stated for a context that is not done;
    - transport failures of the database and interleavings with other
      goroutines are outside the model: between two repository calls of one
      service method the database does not change. *)

From Stdlib Require Import ZArith String Ascii.
From stdpp Require Import base option list sorting gmap strings pretty.

Open Scope string_scope.
Open Scope list_scope.
Open Scope nat_scope.

(** ** Errors *)

(** The sentinel errors of [service/errors.go] and [service/validation.go],
    the two errors of the [context] package, and [Errorf] for the errors
    built with [fmt.Errorf] in the repository and in [cryptoRandInt]. *)
Inductive error :=
  | ErrNotFound | ErrPRExists | ErrPRMerged | ErrNotAssigned | ErrNoCandidate
  | ErrUnknownJobType | ErrJobQueueFull | ErrUserInactive
  | errMissingPRID | errMissingPRName | errMissingAuthorID
  | errMissingUserID | errMissingTeamName | errDuplicates
  | Canceled | DeadlineExceeded
  | Errorf (msg : string).

(** [err.Error()].  The message of [ErrUserInactive] is not part of the
    sources at hand; no branch depends on it. *)
Definition Error (e : error) : string :=
  match e with
  | ErrNotFound => "not found"
  | ErrPRExists => "pr exists"
  | ErrPRMerged => "pr merged"
  | ErrNotAssigned => "not assigned"
  | ErrNoCandidate => "no candidate"
  | ErrUnknownJobType => "unknown job type"
  | ErrJobQueueFull => "job queue full"
  | ErrUserInactive => "user inactive"
  | errMissingPRID => "pull_request_id required"
  | errMissingPRName => "pull_request_name required"
  | errMissingAuthorID => "author_id required"
  | errMissingUserID => "user_id required"
  | errMissingTeamName => "team_name required"
  | errDuplicates => "duplicates user_id's"
  | Canceled => "context canceled"
  | DeadlineExceeded => "context deadline exceeded"
  | Errorf msg => msg
  end.

(** [strings.Contains(s, sub)]. *)
Definition Contains (s sub : string) : bool :=
  match String.index 0 sub s with Some _ => true | None => false end.

(** The test [strings.Contains(err.Error(), "not found")] that the service
    applies to repository errors. *)
Definition is_not_found (e : error) : bool := Contains (Error e) "not found".

(** A Go return pair [(value, error)]: the value when the error is nil. *)
Inductive result (A : Type) : Type :=
  | Ok (a : A)
  | Err (e : error).
Arguments Ok {A} a.
Arguments Err {A} e.

(** ** Models ([internal/models]) *)

Module models.

Module User.
Record t := mk
  { UserID : string; Username : string; TeamName : string; IsActive : bool }.
Definition zero : t := mk "" "" "" false.
End User.

Module TeamMember.
Record t := mk { UserID : string; Username : string; IsActive : bool }.
End TeamMember.

Module Team.
Record t := mk { TeamName : string; Members : list TeamMember.t }.
Definition zero : t := mk "" [].
End Team.

Module PRReviewer.
Record t := mk { UserID : string; Username : string; IsActive : bool }.
End PRReviewer.

Module PullRequest.
Record t := mk
  { PullRequestID : string;
    PullRequestName : string;
    AuthorID : string;
    Status : string;
    Assigned : list PRReviewer.t;
    NeedMoreReviewers : bool;
    CreatedAt : Z;
    MergedAt : option Z }.
Definition zero : t := mk "" "" "" "" [] false 0 None.
End PullRequest.

Module PullRequestShort.
Record t := mk
  { PullRequestID : string; PullRequestName : string;
    AuthorID : string; Status : string }.
End PullRequestShort.

End models.
Import models.

(** The ids of a reviewer list. *)
Definition reviewer_ids (l : list PRReviewer.t) : list string :=
  PRReviewer.UserID <$> l.

(** ** The database ([migrations.sql]) *)

(** A row of [pull_requests]; the reviewers live in [pr_reviewers]. *)
Record PRRow := mkPRRow
  { pull_request_id : string;
    pull_request_name : string;
    author_id : string;
    status : string;
    need_more_reviewers : bool;
    created_at : Z;
    merged_at : option Z }.

(** A row of [teams] is a team name; a row of [users] has the columns of
    [models.User]; a row of [pr_reviewers] is the pair (pull_request_id,
    user_id). *)
Record DB := mkDB
  { teams : list string;
    users : list User.t;
    pull_requests : list PRRow;
    pr_reviewers : list (string * string) }.

(** [ORDER BY] on a text column, ascending (bytewise collation), and on a
    timestamp column, descending. *)
Definition order_by {A} (key : A → string) (l : list A) : list A :=
  merge_sort (λ a b, Is_true (String.leb (key a) (key b))) l.

Definition order_by_desc {A} (key : A → Z) (l : list A) : list A :=
  merge_sort (λ a b, Is_true (Z.leb (key b) (key a))) l.

Definition has_user (d : DB) (uid : string) : bool :=
  existsb (λ u, String.eqb (User.UserID u) uid) (users d).

Definition has_pr (d : DB) (prID : string) : bool :=
  existsb (λ p, String.eqb (pull_request_id p) prID) (pull_requests d).

Definition has_reviewer (d : DB) (prID uid : string) : bool :=
  existsb (λ rr, String.eqb rr.1 prID && String.eqb rr.2 uid) (pr_reviewers d).

(** The constraints of the schema: primary keys and foreign keys. *)
Record wf_db (d : DB) : Prop := mk_wf
  { users_pk : NoDup (User.UserID <$> users d);
    prs_pk : NoDup (pull_request_id <$> pull_requests d);
    reviewers_pk : NoDup (pr_reviewers d);
    reviewers_fk_pr : ∀ rr, rr ∈ pr_reviewers d → has_pr d rr.1 = true;
    reviewers_fk_user : ∀ rr, rr ∈ pr_reviewers d → has_user d rr.2 = true;
    prs_fk_author : ∀ p, p ∈ pull_requests d → has_user d (author_id p) = true }.

(** ** The PostgreSQL repository ([internal/repo]) *)

(** Each method of [PostgresRepo] as a function of the database: what its
    statements return and write when they are run, that is, under a context
    that is not done.  ([QueryContext], [ExecContext] and [BeginTx] return
    the error of a context that is already done without running anything.) *)
Module repo.

Definition by_user (uid : string) (u : User.t) : bool :=
  String.eqb (User.UserID u) uid.

Definition by_pr (prID : string) (p : PRRow) : bool :=
  String.eqb (pull_request_id p) prID.

(** [SELECT ... FROM users WHERE user_id=$1]. *)
Definition GetUser (d : DB) (userID : string) : result User.t :=
  match find (by_user userID) (users d) with
  | Some u => Ok u
  | None => Err (Errorf "not found")
  end.

(** [SELECT team_name FROM users WHERE user_id=$1]. *)
Definition GetUserTeam (d : DB) (userID : string) : result string :=
  match find (by_user userID) (users d) with
  | Some u => Ok (User.TeamName u)
  | None => Err (Errorf "not found")
  end.

(** The reviewer query of [GetPR]: [pr_reviewers] joined with [users] on
    the user id, restricted to one pull request, ordered by user id. *)
Definition reviewers_of (d : DB) (prID : string) : list PRReviewer.t :=
  order_by PRReviewer.UserID
    (filter (λ rr, rr.1 = prID) (pr_reviewers d) ≫= λ rr,
       (λ u, PRReviewer.mk (User.UserID u) (User.Username u) (User.IsActive u))
         <$> filter (λ u, User.UserID u = rr.2) (users d)).

Definition GetPR (d : DB) (prID : string) : result PullRequest.t :=
  match find (by_pr prID) (pull_requests d) with
  | None => Err (Errorf "not found")
  | Some p =>
      Ok (PullRequest.mk (pull_request_id p) (pull_request_name p)
            (author_id p) (status p) (reviewers_of d prID)
            (need_more_reviewers p) (created_at p) (merged_at p))
  end.

(** [INSERT INTO pr_reviewers(pull_request_id, user_id)], with the primary
    key and the two foreign keys of the table. *)
Definition insert_reviewer (d : DB) (prID uid : string) : result DB :=
  if has_reviewer d prID uid then
    Err (Errorf "pq: duplicate key value violates unique constraint")
  else if negb (has_pr d prID && has_user d uid) then
    Err (Errorf "pq: insert or update violates foreign key constraint")
  else Ok (mkDB (teams d) (users d) (pull_requests d) (pr_reviewers d ++ [(prID, uid)])).

(** [INSERT INTO pull_requests(...)]; [merged_at] is left NULL. *)
Definition insert_pull_request (d : DB) (pr : PullRequest.t) : result DB :=
  if has_pr d (PullRequest.PullRequestID pr) then
    Err (Errorf "pq: duplicate key value violates unique constraint")
  else if negb (has_user d (PullRequest.AuthorID pr)) then
    Err (Errorf "pq: insert or update violates foreign key constraint")
  else
    Ok (mkDB (teams d) (users d)
          (pull_requests d ++
             [mkPRRow (PullRequest.PullRequestID pr) (PullRequest.PullRequestName pr)
                (PullRequest.AuthorID pr) (PullRequest.Status pr)
                (PullRequest.NeedMoreReviewers pr) (PullRequest.CreatedAt pr) None])
          (pr_reviewers d)).

Fixpoint insert_reviewers (d : DB) (prID : string) (revs : list PRReviewer.t)
  : result DB :=
  match revs with
  | [] => Ok d
  | r :: revs =>
      match insert_reviewer d prID (PRReviewer.UserID r) with
      | Ok d' => insert_reviewers d' prID revs
      | Err e => Err (Errorf ("insert reviewer: " +:+ Error e))
      end
  end.

(** One transaction: the pull request row, then one row per reviewer; any
    failure rolls everything back. *)
Definition CreatePR (d : DB) (pr : PullRequest.t) : result unit * DB :=
  match insert_pull_request d pr with
  | Ok d1 =>
      match insert_reviewers d1 (PullRequest.PullRequestID pr)
              (PullRequest.Assigned pr) with
      | Ok d2 => (Ok (), d2)
      | Err e => (Err e, d)
      end
  | Err e => (Err (Errorf ("insert pr: " +:+ Error e)), d)
  end.

(** [UPDATE pull_requests SET status='MERGED', merged_at=$1 WHERE
    pull_request_id=$2], then [GetPR]. *)
Definition MergePR (d : DB) (prID : string) (t : Z) : result PullRequest.t * DB :=
  let d' :=
    mkDB (teams d) (users d)
      ((λ p, if by_pr prID p
             then mkPRRow (pull_request_id p) (pull_request_name p) (author_id p)
                    "MERGED" (need_more_reviewers p) (created_at p) (Some t)
             else p) <$> pull_requests d)
      (pr_reviewers d) in
  (GetPR d' prID, d').

(** [DELETE FROM pr_reviewers WHERE pull_request_id=$1 AND user_id=$2]. *)
Definition delete_reviewer (d : DB) (prID uid : string) : DB :=
  mkDB (teams d) (users d) (pull_requests d)
    (filter (λ rr, ¬ (rr.1 = prID ∧ rr.2 = uid)) (pr_reviewers d)).

(** One transaction: delete the old reviewer if one is named, insert the
    new reviewer if one is named, refuse when neither is; then [GetPR]. *)
Definition ReplaceReviewer (d : DB) (prID oldUID newUID : string)
  : result PullRequest.t * DB :=
  let d1 := if String.eqb oldUID "" then d else delete_reviewer d prID oldUID in
  match (if String.eqb newUID "" then Ok d1 else insert_reviewer d1 prID newUID) with
  | Ok d2 =>
      if String.eqb oldUID "" && String.eqb newUID "" then
        (Err (Errorf "invalid replace: both old and new empty"), d)
      else (GetPR d2 prID, d2)
  | Err e => (Err (Errorf ("insert new reviewer: " +:+ Error e)), d)
  end.

(** [SELECT user_id FROM users WHERE team_name=$1 AND is_active=true
    [AND user_id<>$2] ORDER BY user_id]. *)
Definition GetActiveTeamMembersExcept (d : DB) (teamName exceptUser : string)
  : result (list string) :=
  Ok (order_by id
        (User.UserID <$>
           filter (λ u, String.eqb (User.TeamName u) teamName && User.IsActive u
                        && (String.eqb exceptUser ""
                            || negb (String.eqb (User.UserID u) exceptUser)))
             (users d))).

(** [pull_requests] joined with [pr_reviewers], restricted to one
    reviewer, newest first. *)
Definition GetPRsByReviewer (d : DB) (userID : string)
  : result (list PullRequestShort.t) :=
  Ok ((λ p, PullRequestShort.mk (pull_request_id p) (pull_request_name p)
              (author_id p) (status p))
        <$> order_by_desc created_at
              (pull_requests d ≫= λ p,
                 (λ _, p) <$> filter (λ rr, rr.1 = pull_request_id p ∧ rr.2 = userID)
                                (pr_reviewers d))).

Definition set_active (on : User.t → bool) (isActive : bool) (d : DB) : DB :=
  mkDB (teams d) ((λ u, if on u
              then User.mk (User.UserID u) (User.Username u) (User.TeamName u) isActive
              else u) <$> users d)
    (pull_requests d) (pr_reviewers d).

Definition by_team (teamName : string) (u : User.t) : bool :=
  String.eqb (User.TeamName u) teamName.

(** [UPDATE users SET is_active=$1 WHERE team_name=$2]; no row affected is
    an error. *)
Definition SetTeamActive (d : DB) (teamName : string) (isActive : bool)
  : result unit * DB :=
  if existsb (by_team teamName) (users d)
  then (Ok (), set_active (by_team teamName) isActive d)
  else (Err (Errorf "no users updated"), d).

(** [UPDATE users SET is_active = $1 WHERE user_id = $2], then the row. *)
Definition UpdateUserActive (d : DB) (userID : string) (isActive : bool)
  : result User.t * DB :=
  if existsb (by_user userID) (users d)
  then let d' := set_active (by_user userID) isActive d in (GetUser d' userID, d')
  else (Err (Errorf "not found"), d).

(** [SELECT user_id, username, is_active FROM users WHERE team_name = $1
    ORDER BY user_id]; a team without members is not found. *)
Definition GetTeam (d : DB) (teamName : string) : result Team.t :=
  let members :=
    order_by TeamMember.UserID
      ((λ u, TeamMember.mk (User.UserID u) (User.Username u) (User.IsActive u))
         <$> filter (λ u, User.TeamName u = teamName) (users d)) in
  match members with
  | [] => Err (Errorf "not found")
  | _ => Ok (Team.mk teamName members)
  end.

(** One row of [InsertTeam]: [INSERT INTO users(user_id, username, team_name,
    is_active) ... ON CONFLICT (user_id) DO UPDATE SET username, team_name,
    is_active]. *)
Definition upsert_user (d : DB) (u : User.t) : DB :=
  if has_user d (User.UserID u)
  then mkDB (teams d) ((λ x, if by_user (User.UserID u) x then u else x) <$> users d)
         (pull_requests d) (pr_reviewers d)
  else mkDB (teams d) (users d ++ [u]) (pull_requests d) (pr_reviewers d).

(** The row of [users] that [InsertTeam] writes for a member. *)
Definition member_row (teamName : string) (m : TeamMember.t) : User.t :=
  User.mk (TeamMember.UserID m) (TeamMember.Username m) teamName (TeamMember.IsActive m).

(** [INSERT INTO teams(team_name) VALUES ($1) ON CONFLICT (team_name) DO
    NOTHING]. *)
Definition insert_team (d : DB) (teamName : string) : DB :=
  if bool_decide (teamName ∈ teams d) then d
  else mkDB (teams d ++ [teamName]) (users d) (pull_requests d) (pr_reviewers d).

(** [InsertTeam]: the row of the team, then every member upserted in one
    transaction.  The first statement satisfies the foreign key of
    [users.team_name], so no statement of the transaction is refused. *)
Definition InsertTeam (d : DB) (team : Team.t) : result unit * DB :=
  (Ok (), foldl (λ d m, upsert_user d (member_row (Team.TeamName team) m))
            (insert_team d (Team.TeamName team)) (Team.Members team)).

(** [INSERT INTO pr_reviewers(pull_request_id, user_id)], then [GetPR]. *)
Definition AddReviewer (d : DB) (prID userID : string) : result PullRequest.t * DB :=
  match insert_reviewer d prID userID with
  | Ok d' => (GetPR d' prID, d')
  | Err e => (Err (Errorf ("insert reviewer: " +:+ Error e)), d)
  end.

(** [DELETE FROM pr_reviewers WHERE pull_request_id = $1 AND user_id IN
    (SELECT user_id FROM users WHERE is_active = false)]. *)
Definition CleanupInactiveReviewers (d : DB) (prID : string) : result unit * DB :=
  let inactive := User.UserID <$> filter (λ u, User.IsActive u = false) (users d) in
  (Ok (), mkDB (teams d) (users d) (pull_requests d)
            (filter (λ rr, ¬ (rr.1 = prID ∧ rr.2 ∈ inactive)) (pr_reviewers d))).

(** [SELECT u.user_id, COUNT(rr.pull_request_id) FROM users u LEFT JOIN
    pr_reviewers rr ON u.user_id = rr.user_id GROUP BY u.user_id]: one group
    per user id, counting the joined rows; the rows are stored in a map, so
    their order does not matter. *)
Definition GetReviewerStats (d : DB) : result (gmap string nat) :=
  Ok (list_to_map
        ((λ uid, (uid, length (filter (λ u, User.UserID u = uid) (users d) ≫= λ u,
                                 filter (λ rr, rr.2 = User.UserID u) (pr_reviewers d))))
           <$> remove_dups (User.UserID <$> users d))).

End repo.

(** ** Dynamic values, logging, world *)

(** A Go [interface{}] value, as far as the service passes one around: job
    payload entries, job results and the key/value arguments of the logger. *)
#[warnings="-register-all"] Inductive any :=
  | AnyNil
  | AnyString (s : string)
  | AnyBool (b : bool)
  | AnyInt (n : Z)
  | AnyError (e : error)
  | AnyPullRequest (pr : PullRequest.t)
  | AnyReviewers (l : list PRReviewer.t)
  | AnyTeam (t : Team.t)
  | AnyUser (u : User.t)
  | AnyPRShorts (l : list PullRequestShort.t)
  | AnyMap (m : list (string * any)).

Inductive level := SUCCESS | INFO | WARN | ERROR.

(** One call of a [logger.Logger] method. *)
Record LogEntry := mkLog { lvl : level; msg : string; kv : list any }.

(** A [context.Context]: [polls_left = None] never becomes done
    ([context.Background]); [Some n] answers "not done" to the next [n]
    polls of [Done] and "done" from then on, with [ctx_err] as [Err()]. *)
Record Ctx := mkCtx { polls_left : option nat; ctx_err : error }.

Definition Background : Ctx := mkCtx None Canceled.

Record World := mkWorld
  { db : DB;
    ctx : Ctx;
    draws : list (option nat);
    clock : Z;
    log : list LogEntry }.

Definition set_db (d : DB) (w : World) : World :=
  mkWorld d (ctx w) (draws w) (clock w) (log w).

(** ** The monad of service methods *)

(** A method either returns a value, returns a non-nil error, panics, or
    asks for more random draws than the world holds. *)
Inductive outcome (A : Type) : Type :=
  | Return (a : A) (w : World)
  | Fail (e : error) (w : World)
  | Panic
  | Starved.
Arguments Return {A} a w.
Arguments Fail {A} e w.
Arguments Panic {A}.
Arguments Starved {A}.

Definition M (A : Type) : Type := World → outcome A.

#[global] Instance M_ret : MRet M := λ A a w, Return a w.

#[global] Instance M_bind : MBind M := λ A B k m w,
  match m w with
  | Return a w' => k a w'
  | Fail e w' => Fail e w'
  | Panic => Panic
  | Starved => Starved
  end.

(** [return ..., e]. *)
Definition fail {A} (e : error) : M A := λ w, Fail e w.

(** [v, err := m()] with the error handled by the caller. *)
Definition try {A} (m : M A) : M (result A) := λ w,
  match m w with
  | Return a w' => Return (Ok a) w'
  | Fail e w' => Return (Err e) w'
  | Panic => Panic
  | Starved => Starved
  end.

(** A repository call that only reads, and one that may write. *)
Definition query {A} (f : DB → result A) : M (result A) :=
  λ w, Return (f (db w)) w.

Definition exec {A} (f : DB → result A * DB) : M (result A) :=
  λ w, Return (f (db w)).1 (set_db (f (db w)).2 w).

(** [if err != nil { ...; return ..., e }]: [h] runs the body of the branch
    and yields the error that is returned. *)
Definition or_return {A} (h : error → M error) (r : result A) : M A :=
  match r with
  | Ok a => mret a
  | Err e => e' ← h e; fail e'
  end.

Definition Log (l : level) (m : string) (kvs : list any) : M unit :=
  λ w, Return () (mkWorld (db w) (ctx w) (draws w) (clock w) (log w ++ [mkLog l m kvs])).

(** [time.Now().UTC()]. *)
Definition Now : M Z := λ w, Return (clock w) w.

(** One poll of [ctx.Done()] in a [select] with a [default] case: the error
    of the context when it is done. *)
Definition ctx_poll : M (option error) := λ w,
  match polls_left (ctx w) with
  | None => Return None w
  | Some 0%nat => Return (Some (ctx_err (ctx w))) w
  | Some (S n) =>
      Return None
        (mkWorld (db w) (mkCtx (Some n) (ctx_err (ctx w))) (draws w) (clock w) (log w))
  end.

(** [select { case <-ctx.Done(): return ..., ctx.Err(); default: }]. *)
Definition check_ctx : M unit :=
  done ← ctx_poll;
  match done with
  | Some e => fail e
  | None => mret ()
  end.

(** [cryptoRandInt]: a draw [Some k] stands for the index [k mod n], a draw
    [None] for a failure of [rand.Reader].  For the bound 1 [rand.Int]
    returns 0 without reading [rand.Reader], so a failed draw gives 0 there
    as well; the draw is taken all the same, one per call. *)
Definition cryptoRandInt (n : nat) : M (result nat) := λ w,
  if bool_decide (n ≤ 0)%nat then
    Return (Err (Errorf ("invalid n for cryptoRandInt: " +:+ pretty n))) w
  else
    match draws w with
    | [] => Starved
    | d :: ds =>
        Return (match d with
                | Some k => Ok (k mod n)%nat
                | None => if bool_decide (n = 1)%nat then Ok 0%nat
                          else Err (Errorf "crypto rand failed: EOF")
                end)
          (mkWorld (db w) (ctx w) ds (clock w) (log w))
    end.

(** [l[i]], which panics out of range. *)
Definition index {A} (l : list A) (i : nat) : M A := λ w,
  match l !! i with
  | Some a => Return a w
  | None => Panic
  end.

(** [for _, x := range l { body }] with a loop-carried value; [continue] is
    the end of [body], [return] inside the body is [fail]. *)
Fixpoint for_range {A S} (l : list A) (s : S) (body : S → A → M S) : M S :=
  match l with
  | [] => mret s
  | x :: l => s' ← body s x; for_range l s' body
  end.

(** ** The assignment engine ([internal/service/service.go]) *)

Module service.

Definition numWorkers : nat := 3.
Definition jobQueueSize : nat := 200.
Definition maxReviewers : nat := 2.

Definition validatePullRequest (pr : PullRequest.t) : option error :=
  if String.eqb (PullRequest.PullRequestID pr) "" then Some errMissingPRID
  else if String.eqb (PullRequest.PullRequestName pr) "" then Some errMissingPRName
  else if String.eqb (PullRequest.AuthorID pr) "" then Some errMissingAuthorID
  else None.

Definition validateUserID (userID : string) : option error :=
  if String.eqb userID "" then Some errMissingUserID else None.

Definition validateTeamName (name : string) : option error :=
  if String.eqb name "" then Some errMissingTeamName else None.

(** The loop of [validateTeam] over the members, with the map [userIDs] of
    the ids seen so far; a missing key reads as [false]. *)
Fixpoint seen_twice (userIDs : gmap string bool) (members : list TeamMember.t) : bool :=
  match members with
  | [] => false
  | member :: members =>
      if default false (userIDs !! TeamMember.UserID member) then true
      else seen_twice (<[TeamMember.UserID member := true]> userIDs) members
  end.

Definition validateTeam (team : Team.t) : option error :=
  if String.eqb (Team.TeamName team) "" then Some errMissingTeamName
  else if seen_twice ∅ (Team.Members team) then Some errDuplicates
  else None.

(** [if err := validate(...); err != nil { return ..., err }]. *)
Definition validated (v : option error) : M unit :=
  match v with
  | Some e => fail e
  | None => mret ()
  end.

(** The branch shared by the lookups: a repository error whose text
    contains "not found" becomes [ErrNotFound], any other one is logged and
    returned as it is. *)
Definition not_found_or_log (m : string) (kvs : list any) (e : error) : M error :=
  if is_not_found e then mret ErrNotFound
  else Log ERROR m (kvs ++ [AnyString "error"; AnyError e]);; mret e.

Definition log_and_return (m : string) (kvs : list any) (e : error) : M error :=
  Log ERROR m (kvs ++ [AnyString "error"; AnyError e]);; mret e.

Definition AddTeam (team : Team.t) : M unit :=
  validated (validateTeam team);;
  r ← exec (λ d, repo.InsertTeam d team);
  or_return (log_and_return "failed to add team"
               [AnyString "team"; AnyString (Team.TeamName team)]) r;;
  Log SUCCESS "team added" [AnyString "team"; AnyString (Team.TeamName team)].

Definition GetTeam (name : string) : M Team.t :=
  validated (validateTeamName name);;
  r ← query (λ d, repo.GetTeam d name);
  or_return (not_found_or_log "failed to get team" [AnyString "team"; AnyString name]) r.

Definition SetUserActive (userID : string) (active : bool) : M User.t :=
  validated (validateUserID userID);;
  r ← exec (λ d, repo.UpdateUserActive d userID active);
  or_return (not_found_or_log "failed to set user active"
               [AnyString "user"; AnyString userID]) r.

Definition GetPRsByReviewer (userID : string) : M (list PullRequestShort.t) :=
  r ← query (λ d, repo.GetPRsByReviewer d userID);
  or_return mret r.

Definition as_reviewer (user : User.t) : PRReviewer.t :=
  PRReviewer.mk (User.UserID user) (User.Username user) (User.IsActive user).

(** The selection loop of [CreatePR] (lines 668-699).  Every iteration that
    does not leave the method takes one draw, so the loop is run with one
    unit of [fuel] more than the world has draws. *)
Fixpoint select_reviewers (fuel : nat) (candidateIDs : list string)
    (selected : list PRReviewer.t) : M (list PRReviewer.t) :=
  if bool_decide (length selected < maxReviewers ∧ 0 < length candidateIDs)%nat then
    match fuel with
    | 0%nat => λ _, Starved
    | S fuel =>
        check_ctx;;
        r ← cryptoRandInt (length candidateIDs);
        match r with
        | Err _ => select_reviewers fuel candidateIDs selected
        | Ok idx =>
            userID ← index candidateIDs idx;
            r ← query (λ d, repo.GetUser d userID);
            match r with
            | Err _ => select_reviewers fuel (delete idx candidateIDs) selected
            | Ok user =>
                if negb (User.IsActive user) then
                  select_reviewers fuel (delete idx candidateIDs) selected
                else
                  select_reviewers fuel (delete idx candidateIDs)
                    (selected ++ [as_reviewer user])
            end
        end
    end
  else mret selected.

Definition CreatePR (pullRequest : PullRequest.t) : M PullRequest.t :=
  let prID := PullRequest.PullRequestID pullRequest in
  let authorID := PullRequest.AuthorID pullRequest in
  validated (validatePullRequest pullRequest);;
  r ← query (λ d, repo.GetPR d prID);
  match r with
  | Ok _ => fail ErrPRExists
  | Err e =>
      if is_not_found e then mret ()
      else e' ← log_and_return "failed to check PR existence"
                  [AnyString "pr"; AnyString prID] e; fail e'
  end;;
  r ← query (λ d, repo.GetUserTeam d authorID);
  teamName ← or_return (λ _, mret ErrNotFound) r;
  r ← query (λ d, repo.GetActiveTeamMembersExcept d teamName authorID);
  candidateIDs ← or_return (log_and_return "failed to get active candidates"
                              [AnyString "author"; AnyString authorID]) r;
  selected ←
    (if bool_decide (0 < length candidateIDs)%nat
     then (λ w, select_reviewers (S (length (draws w))) candidateIDs [] w)
     else mret []);
  now ← Now;
  let pullRequest :=
    PullRequest.mk prID (PullRequest.PullRequestName pullRequest) authorID
      "OPEN" selected (bool_decide (length selected < maxReviewers)%nat) now
      (PullRequest.MergedAt pullRequest) in
  r ← exec (λ d, repo.CreatePR d pullRequest);
  or_return (log_and_return "failed to create PR" [AnyString "pr"; AnyString prID]) r;;
  r ← query (λ d, repo.GetPR d prID);
  or_return (log_and_return "failed to fetch created PR"
               [AnyString "pr"; AnyString prID]) r.

Definition MergePR (prID : string) : M PullRequest.t :=
  r ← query (λ d, repo.GetPR d prID);
  pr ← or_return (not_found_or_log "failed to fetch PR for merge"
                    [AnyString "pr"; AnyString prID]) r;
  if String.eqb (PullRequest.Status pr) "MERGED" then mret pr
  else
    t ← Now;
    r ← exec (λ d, repo.MergePR d prID t);
    or_return (log_and_return "failed to merge PR" [AnyString "pr"; AnyString prID]) r.

Definition with_assigned (pr : PullRequest.t) (l : list PRReviewer.t) : PullRequest.t :=
  PullRequest.mk (PullRequest.PullRequestID pr) (PullRequest.PullRequestName pr)
    (PullRequest.AuthorID pr) (PullRequest.Status pr) l
    (PullRequest.NeedMoreReviewers pr) (PullRequest.CreatedAt pr)
    (PullRequest.MergedAt pr).

Definition with_need_more (pr : PullRequest.t) (b : bool) : PullRequest.t :=
  PullRequest.mk (PullRequest.PullRequestID pr) (PullRequest.PullRequestName pr)
    (PullRequest.AuthorID pr) (PullRequest.Status pr) (PullRequest.Assigned pr)
    b (PullRequest.CreatedAt pr) (PullRequest.MergedAt pr).

(** Lines 755-760 of [Reassign]: the activity flag of every listed reviewer
    is read again; a failed lookup leaves the entry as it is. *)
Definition refresh_assigned (pr : PullRequest.t) : M PullRequest.t :=
  l ← for_range (PullRequest.Assigned pr) [] (λ acc r,
         usr ← query (λ d, repo.GetUser d (PRReviewer.UserID r));
         mret (acc ++ [match usr with
                       | Ok usr => PRReviewer.mk (PRReviewer.UserID r)
                                     (PRReviewer.Username r) (User.IsActive usr)
                       | Err _ => r
                       end]));
  mret (with_assigned pr l).

(** [assignedSet] and the filter that builds [avail] (lines 800-814). *)
Definition assignedSet (pr : PullRequest.t) : gset string :=
  list_to_set (reviewer_ids (PullRequest.Assigned pr)).

Definition avail_for_reassign (pr : PullRequest.t) (oldUser : string)
    (cands : list string) : list string :=
  filter (λ c, c ≠ oldUser ∧ c ∉ assignedSet pr) cands.

(** The choice of one candidate, written out twice in the source (lines
    820-830 of [Reassign], lines 949-959 of [reassignReviewer]): one poll of
    the context, one draw, [avail[idx]]. *)
Definition pick (avail : list string) : M string :=
  check_ctx;;
  r ← cryptoRandInt (length avail);
  idx ← or_return mret r;
  index avail idx.

(** Lines 832-845 of [Reassign]: the chosen candidate is checked once more
    and then written. *)
Definition Reassign_commit (prID oldUser newUID : string) : M (PullRequest.t * string) :=
  nu ← query (λ d, repo.GetUser d newUID);
  match nu with
  | Err _ => fail ErrNoCandidate
  | Ok nu =>
      if negb (User.IsActive nu) then fail ErrNoCandidate
      else
        r ← exec (λ d, repo.ReplaceReviewer d prID oldUser newUID);
        pr ← or_return (log_and_return "failed to replace reviewer"
                          [AnyString "pr"; AnyString prID;
                           AnyString "oldUser"; AnyString oldUser]) r;
        mret (with_need_more pr
                (bool_decide (length (PullRequest.Assigned pr) < maxReviewers)%nat),
              newUID)
  end.

Definition Reassign (prID oldUser : string) : M (PullRequest.t * string) :=
  r ← query (λ d, repo.GetPR d prID);
  pr ← or_return (not_found_or_log "failed to fetch PR for reassign"
                    [AnyString "pr"; AnyString prID]) r;
  pr ← refresh_assigned pr;
  if String.eqb (PullRequest.Status pr) "MERGED" then fail ErrPRMerged
  else if negb (existsb (λ r, String.eqb (PRReviewer.UserID r) oldUser)
                  (PullRequest.Assigned pr)) then fail ErrNotAssigned
  else
    r ← query (λ d, repo.GetUser d oldUser);
    u ← or_return (λ _, mret ErrNotFound) r;
    if negb (User.IsActive u) then fail ErrUserInactive
    else
      r ← query (λ d, repo.GetUserTeam d oldUser);
      teamName ← or_return (not_found_or_log "failed to get user's team"
                              [AnyString "user"; AnyString oldUser]) r;
      r ← query (λ d, repo.GetActiveTeamMembersExcept d teamName "");
      cands ← or_return (log_and_return "failed to get active candidates for reassign"
                           [AnyString "team"; AnyString teamName]) r;
      let avail := avail_for_reassign pr oldUser cands in
      if bool_decide (length avail = 0)%nat then fail ErrNoCandidate
      else
        newUID ← pick avail;
        Reassign_commit prID oldUser newUID.

(** [avail] of [reassignReviewer] (lines 933-944): only the reviewers already
    on the pull request are left out. *)
Definition avail_for_replacement (pr : PullRequest.t) (cands : list string)
    : list string :=
  filter (λ c, c ∉ assignedSet pr) cands.

Definition reassignReviewer (prID oldUID teamName : string) : M string :=
  r ← query (λ d, repo.GetActiveTeamMembersExcept d teamName "");
  cands ← or_return mret r;
  r ← query (λ d, repo.GetPR d prID);
  pr ← or_return mret r;
  let avail := avail_for_replacement pr cands in
  if bool_decide (length avail = 0)%nat then fail ErrNoCandidate
  else
    newUID ← pick avail;
    r ← exec (λ d, repo.ReplaceReviewer d prID oldUID newUID);
    or_return mret r;;
    mret newUID.

(** The body of the loop over [pr.Assigned] in [DeactivateTeam] (lines
    896-911); [updated] is the loop-carried flag. *)
Definition replace_if_inactive (pr : PullRequest.t) (teamName : string)
    (updated : bool) (rev : PRReviewer.t) : M bool :=
  let prID := PullRequest.PullRequestID pr in
  let uid := PRReviewer.UserID rev in
  r ← query (λ d, repo.GetUser d uid);
  match r with
  | Err e =>
      Log WARN "could not fetch user while deactivating team"
        [AnyString "user"; AnyString uid; AnyString "pr"; AnyString prID;
         AnyString "error"; AnyError e];;
      mret updated
  | Ok user =>
      if negb (User.IsActive user) then
        r ← try (reassignReviewer prID uid teamName);
        match r with
        | Err _ =>
            Log WARN "no replacement found for inactive reviewer"
              [AnyString "pr"; AnyString prID; AnyString "user"; AnyString uid];;
            mret updated
        | Ok newUID =>
            Log INFO "reviewer replaced"
              [AnyString "pr"; AnyString prID; AnyString "old_user"; AnyString uid;
               AnyString "new_user"; AnyString newUID];;
            mret true
        end
      else mret updated
  end.

(** The body of the loop over the pull requests of one member (lines
    879-914).  The assignment to [pr.NeedMoreReviewers] at its end changes a
    local copy that is not used afterwards. *)
Definition cleanup_pr (teamName : string) (prShort : PullRequestShort.t) : M unit :=
  check_ctx;;
  r ← query (λ d, repo.GetPR d (PullRequestShort.PullRequestID prShort));
  match r with
  | Err e =>
      Log ERROR "failed to get full PR"
        [AnyString "pr"; AnyString (PullRequestShort.PullRequestID prShort);
         AnyString "error"; AnyError e]
  | Ok pr =>
      if negb (String.eqb (PullRequest.Status pr) "OPEN") then mret ()
      else
        updated ← for_range (PullRequest.Assigned pr) false
                    (replace_if_inactive pr teamName);
        let _ := if updated : bool
                 then with_need_more pr
                        (bool_decide (length (PullRequest.Assigned pr) < maxReviewers)%nat)
                 else pr in
        mret ()
  end.

(** The body of the loop over [team.Members] (lines 865-915). *)
Definition cleanup_member (teamName : string) (member : TeamMember.t) : M unit :=
  check_ctx;;
  r ← query (λ d, repo.GetPRsByReviewer d (TeamMember.UserID member));
  match r with
  | Err e =>
      Log ERROR "failed to get PRs for member"
        [AnyString "user"; AnyString (TeamMember.UserID member);
         AnyString "error"; AnyError e]
  | Ok prs => for_range prs () (λ _, cleanup_pr teamName)
  end.

Definition DeactivateTeam (teamName : string) : M unit :=
  team ← GetTeam teamName;
  r ← exec (λ d, repo.SetTeamActive d teamName false);
  or_return (log_and_return "failed to deactivate team"
               [AnyString "team"; AnyString teamName]) r;;
  for_range (Team.Members team) () (λ _, cleanup_member teamName);;
  Log SUCCESS "team deactivated" [AnyString "team"; AnyString teamName].

(** ** The job dispatcher *)

Record JobResult := mkJobResult { Data : any; Error_ : option error }.

(** A job: kind, parameter bag and reply channel.  The channel is a
    reference into the channel store of the dispatcher ([None] is a nil
    channel); the context of the job is the one of the world that
    [handleJob] runs in. *)
Record Job := mkJob
  { Type_ : string;
    Payload : gmap string any;
    RespCh : option nat }.

(** The comma-ok type assertions [job.Payload[k].(T)]. *)
Definition as_string (v : option any) : option string :=
  match v with Some (AnyString s) => Some s | _ => None end.

Definition as_bool (v : option any) : option bool :=
  match v with Some (AnyBool b) => Some b | _ => None end.

Definition as_PullRequest (v : option any) : option PullRequest.t :=
  match v with Some (AnyPullRequest pr) => Some pr | _ => None end.

Definition unknown : M (JobResult * list any) :=
  mret (mkJobResult AnyNil (Some ErrUnknownJobType), []).

(** [JobResult{Data: ..., Error: err}] from a call: on an error the data is
    the zero value the method returned with it. *)
Definition job_result {A} (wrap : A → any) (zero : A) (r : result A) : JobResult :=
  match r with
  | Ok a => mkJobResult (wrap a) None
  | Err e => mkJobResult (wrap zero) (Some e)
  end.

Definition is_ok {A} (r : result A) : bool :=
  match r with Ok _ => true | Err _ => false end.

Definition handleJob (job : Job) : M (JobResult * list any) :=
  done ← ctx_poll;
  match done with
  | Some e => mret (mkJobResult AnyNil (Some e), [])
  | None =>
     let arg k := Payload job !! k in
     if String.eqb (Type_ job) "create_pr" then
       match as_PullRequest (arg "pr") with
       | None => unknown
       | Some v =>
           r ← try (CreatePR v);
           mret (job_result AnyPullRequest PullRequest.zero r,
                 match r with
                 | Ok created =>
                     [AnyString "pr"; AnyString (PullRequest.PullRequestID created);
                      AnyString "assigned"; AnyReviewers (PullRequest.Assigned created)]
                 | Err _ => []
                 end)
       end
     else if String.eqb (Type_ job) "merge_pr" then
       match as_string (arg "pr_id") with
       | None => unknown
       | Some v =>
           r ← try (MergePR v);
           mret (job_result AnyPullRequest PullRequest.zero r,
                 if is_ok r then [AnyString "pr"; AnyString v] else [])
       end
     else if String.eqb (Type_ job) "reassign_pr" then
       match as_string (arg "pr_id"), as_string (arg "old_user") with
       | Some prID, Some oldUser =>
           r ← try (Reassign prID oldUser);
           mret (job_result
                   (λ x, AnyMap [("pr", AnyPullRequest x.1); ("new_user", AnyString x.2)])
                   (PullRequest.zero, "") r,
                 match r with
                 | Ok (_, newUID) =>
                     [AnyString "pr"; AnyString prID; AnyString "old_user";
                      AnyString oldUser; AnyString "new_user"; AnyString newUID]
                 | Err _ =>
                     [AnyString "pr"; AnyString prID; AnyString "old_user";
                      AnyString oldUser]
                 end)
       | _, _ => unknown
       end
     else if String.eqb (Type_ job) "get_team" then
       match as_string (arg "team") with
       | None => unknown
       | Some name =>
           r ← try (GetTeam name);
           mret (job_result AnyTeam Team.zero r,
                 match r with
                 | Ok t => [AnyString "team"; AnyString name; AnyString "members";
                            AnyInt (Z.of_nat (length (Team.Members t)))]
                 | Err _ => [AnyString "team"; AnyString name]
                 end)
       end
     else if String.eqb (Type_ job) "set_user_active" then
       match as_string (arg "uid"), as_bool (arg "active") with
       | Some uid, Some active =>
           r ← try (SetUserActive uid active);
           mret (job_result AnyUser User.zero r,
                 [AnyString "user"; AnyString uid; AnyString "active"; AnyBool active])
       | _, _ => unknown
       end
     else if String.eqb (Type_ job) "get_reviews" then
       match as_string (arg "uid") with
       | None => unknown
       | Some uid =>
           r ← try (GetPRsByReviewer uid);
           mret (job_result AnyPRShorts [] r,
                 match r with
                 | Ok data => [AnyString "user"; AnyString uid; AnyString "count";
                               AnyInt (Z.of_nat (length data))]
                 | Err _ => [AnyString "user"; AnyString uid]
                 end)
       end
     else if String.eqb (Type_ job) "deactivate_team" then
       match as_string (arg "team_name") with
       | None => unknown
       | Some teamName =>
           r ← try (DeactivateTeam teamName);
           mret (mkJobResult (AnyMap [("team", AnyString teamName)])
                   (match r with Ok _ => None | Err e => Some e end),
                 [AnyString "team"; AnyString teamName])
       end
     else unknown
  end.

(** *** Channels and [EnqueueJob] *)

(** A Go channel: capacity, buffered values, the number of goroutines blocked
    in a receive, the values handed directly to such receivers, and whether
    it has been closed. *)
Record chan (A : Type) := mkChan
  { cap : nat; buf : list A; receivers : nat; handed : list A; closed : bool }.
Arguments mkChan {A} _ _ _ _ _.
Arguments cap {A} _.
Arguments buf {A} _.
Arguments receivers {A} _.
Arguments handed {A} _.
Arguments closed {A} _.

(** What a send case of a [select] finds. *)
Inductive readiness (A : Type) : Type :=
  | Ready (c : chan A)
  | NotReady
  | SendOnClosed.
Arguments Ready {A} c.
Arguments NotReady {A}.
Arguments SendOnClosed {A}.

(** [ch <- v] as a case of a [select]: it can proceed when a receiver is
    waiting or the buffer has room; on a closed channel it panics. *)
Definition try_send {A} (c : chan A) (v : A) : readiness A :=
  if closed c then SendOnClosed
  else if bool_decide (0 < receivers c)%nat then
    Ready (mkChan (cap c) (buf c) (pred (receivers c)) (handed c ++ [v]) false)
  else if bool_decide (length (buf c) < cap c)%nat then
    Ready (mkChan (cap c) (buf c ++ [v]) (receivers c) (handed c) false)
  else NotReady.

(** The values a channel has taken so far. *)
Definition delivered {A} (c : chan A) : list A := handed c ++ buf c.

(** The dispatcher part of [PRService]: the job queue, the [stopped]
    channel (only ever closed, so a flag), the reply channels that jobs refer
    to, and the log sink. *)
Record PRService := mkService
  { jobs : chan Job;
    stopped : bool;
    chans : gmap nat (chan JobResult);
    svc_log : list LogEntry }.

(** How a call on the dispatcher ends: it returns, it blocks, or it panics. *)
Inductive step :=
  | Proceed (s : PRService)
  | Block
  | Crash.

(** A [select] with one send case; [default = None] is a [select] without a
    [default] case, which waits. *)
Definition select_send {A} (c : chan A) (v : A) (sent : chan A → step)
    (default : option step) : step :=
  match try_send c v with
  | Ready c' => sent c'
  | NotReady => match default with Some k => k | None => Block end
  | SendOnClosed => Crash
  end.

(** [if job.RespCh != nil { select { case job.RespCh <- res: default: } }].
    A reference to no channel of the store behaves as a nil channel. *)
Definition reply (s : PRService) (job : Job) (res : JobResult) : step :=
  match RespCh job ≫= λ ch, (λ c, (ch, c)) <$> chans s !! ch with
  | None => Proceed s
  | Some (ch, c) =>
      select_send c res
        (λ c', Proceed (mkService (jobs s) (stopped s) (<[ch := c']> (chans s)) (svc_log s)))
        (Some (Proceed s))
  end.

Definition EnqueueJob (s : PRService) (job : Job) : step :=
  if stopped s then reply s job (mkJobResult AnyNil (Some Canceled))
  else
    select_send (jobs s) job
      (λ q, Proceed (mkService q (stopped s) (chans s) (svc_log s)))
      (Some
         (let s' := mkService (jobs s) (stopped s) (chans s)
                      (svc_log s ++ [mkLog WARN "job queue full, dropping job"
                                       [AnyString "type"; AnyString (Type_ job)]]) in
          reply s' job (mkJobResult AnyNil (Some ErrJobQueueFull)))).

(** The first two statements of [StopWorkers], [close(s.stopped)] and
    [close(s.jobs)]; closing a closed channel panics.  What follows them,
    the wait for the workers and the log entry after it, depends on the
    goroutines of the workers, which are no part of [PRService] here. *)
Definition close_channels (s : PRService) : step :=
  if stopped s || closed (jobs s) then Crash
  else Proceed (mkService
                  (mkChan (cap (jobs s)) (buf (jobs s)) (receivers (jobs s))
                     (handed (jobs s)) true)
                  true (chans s) (svc_log s)).

(** *** The workers *)

(** [logJobResult]: one entry per job, a success with the duration in front
    of the fields of the job, or an error under the text of the error.  The
    worker tag that [workerLog] carries is not recorded in the entries. *)
Definition logJobResult (jobType durationStr : string) (kvs : list any)
    (err : option error) : M unit :=
  match err with
  | None =>
      Log SUCCESS (jobType +:+ " succeeded")
        ([AnyString "duration"; AnyString durationStr] ++ kvs)
  | Some e => Log ERROR (Error e) kvs
  end.

(** The receive [case job, ok := <-s.jobs] of [workerLoop] when a job is
    buffered: the oldest job leaves the queue. *)
Definition take_job (s : PRService) : option (Job * PRService) :=
  match buf (jobs s) with
  | [] => None
  | job :: rest =>
      Some (job, mkService
                   (mkChan (cap (jobs s)) rest (receivers (jobs s)) (handed (jobs s))
                      (closed (jobs s)))
                   (stopped s) (chans s) (svc_log s))
  end.

(** What [workerLoop] does with a job it has received (lines 440-462): the
    job is handled under its context, the outcome is logged, and the result
    is offered to the reply channel in a [select] with a [default] case
    that logs a warning.  The duration that is logged is measured on the
    wall clock; its formatted text is the parameter [durationStr]. *)
Definition workerLoop_job (durationStr : string) (job : Job) (s : PRService)
    : M PRService :=
  r ← handleJob job;
  logJobResult (Type_ job) durationStr r.2 (Error_ r.1);;
  match RespCh job ≫= λ ch, (λ c, (ch, c)) <$> chans s !! ch with
  | None => mret s
  | Some (ch, c) =>
      match try_send c r.1 with
      | Ready c' => mret (mkService (jobs s) (stopped s) (<[ch := c']> (chans s)) (svc_log s))
      | NotReady =>
          Log WARN "response channel blocked, dropping result"
            [AnyString "type"; AnyString (Type_ job)];;
          mret s
      | SendOnClosed => λ _, Panic
      end
  end.

End service.

Import service.

(** * Notions used in the statements *)

(** ** Tables, pools and worlds *)

(** The rows of [pr_reviewers] of one pull request. *)
Definition reviewer_rows (d : DB) (prID : string) : list (string * string) :=
  filter (λ rr, rr.1 = prID) (pr_reviewers d).

(** The row that [repo.CreatePR] inserts for a pull request. *)
Definition new_row (pr : PullRequest.t) : PRRow :=
  mkPRRow (PullRequest.PullRequestID pr) (PullRequest.PullRequestName pr)
    (PullRequest.AuthorID pr) (PullRequest.Status pr)
    (PullRequest.NeedMoreReviewers pr) (PullRequest.CreatedAt pr) None.

(** The database after the update of [repo.MergePR]. *)
Definition merged_db (d : DB) (prID : string) (t : Z) : DB := (repo.MergePR d prID t).2.

(** The entry that the loop of [refresh_assigned] writes for a reviewer. *)
Definition refreshed (d : DB) (r : PRReviewer.t) : PRReviewer.t :=
  match repo.GetUser d (PRReviewer.UserID r) with
  | Ok usr => PRReviewer.mk (PRReviewer.UserID r) (PRReviewer.Username r) (User.IsActive usr)
  | Err _ => r
  end.

(** The candidate pool of [Reassign] in the words of the specification: the
    active members of the team, without the reviewer that is replaced and
    without the reviewers already on the pull request. *)
Definition candidate_pool (d : DB) (pr : PullRequest.t) (oldUser teamName : string)
    : list string :=
  match repo.GetActiveTeamMembersExcept d teamName "" with
  | Ok members =>
      filter (λ c, c ≠ oldUser ∧ c ∉ reviewer_ids (PullRequest.Assigned pr)) members
  | Err _ => []
  end.

(** The database an outcome ends with. *)
Definition final_db {A} (o : outcome A) : option DB :=
  match o with
  | Return _ w | Fail _ w => Some (db w)
  | Panic | Starved => None
  end.

(** The world after one negative poll of the context and one draw. *)
Definition after_pick (w : World) : World :=
  mkWorld (db w)
    (match polls_left (ctx w) with
     | Some (S n) => mkCtx (Some n) (ctx_err (ctx w))
     | _ => ctx w
     end)
    (tail (draws w)) (clock w) (log w).

(** The world with more entries in the log. *)
Definition add_log (w : World) (es : list LogEntry) : World :=
  mkWorld (db w) (ctx w) (draws w) (clock w) (log w ++ es).

(** The database after [SetTeamActive(teamName, false)]. *)
Definition deactivated (d : DB) (teamName : string) : DB :=
  repo.set_active (repo.by_team teamName) false d.

(** The pool of [reassignReviewer]: the active members of [teamName] that
    are not on the pull request. *)
Definition replacement_pool (d : DB) (prID teamName : string) : list string :=
  match repo.GetActiveTeamMembersExcept d teamName "", repo.GetPR d prID with
  | Ok cands, Ok pr => avail_for_replacement pr cands
  | _, _ => []
  end.

(** ** The cascade of [DeactivateTeam] *)

(** What the cascade of [DeactivateTeam] logs on a database in which no
    replacement is available: per reviewer, per pull request, per member. *)
Definition reviewer_log (d : DB) (pr : PullRequest.t) (rev : PRReviewer.t)
    : list LogEntry :=
  let prID := PullRequest.PullRequestID pr in
  let uid := PRReviewer.UserID rev in
  match repo.GetUser d uid with
  | Err e =>
      [mkLog WARN "could not fetch user while deactivating team"
         [AnyString "user"; AnyString uid; AnyString "pr"; AnyString prID;
          AnyString "error"; AnyError e]]
  | Ok user =>
      if negb (User.IsActive user)
      then [mkLog WARN "no replacement found for inactive reviewer"
              [AnyString "pr"; AnyString prID; AnyString "user"; AnyString uid]]
      else []
  end.

Definition pr_log (d : DB) (prShort : PullRequestShort.t) : list LogEntry :=
  match repo.GetPR d (PullRequestShort.PullRequestID prShort) with
  | Err e =>
      [mkLog ERROR "failed to get full PR"
         [AnyString "pr"; AnyString (PullRequestShort.PullRequestID prShort);
          AnyString "error"; AnyError e]]
  | Ok pr =>
      if negb (String.eqb (PullRequest.Status pr) "OPEN") then []
      else PullRequest.Assigned pr ≫= reviewer_log d pr
  end.

Definition member_log (d : DB) (member : TeamMember.t) : list LogEntry :=
  match repo.GetPRsByReviewer d (TeamMember.UserID member) with
  | Err e =>
      [mkLog ERROR "failed to get PRs for member"
         [AnyString "user"; AnyString (TeamMember.UserID member);
          AnyString "error"; AnyError e]]
  | Ok prs => prs ≫= pr_log d
  end.

(** The worlds the cascade runs in: a fixed database without an active
    member of the team, and a context that is never done. *)
Definition cascade_world (d : DB) (w : World) : Prop :=
  db w = d ∧ polls_left (ctx w) = None.

(** What [SetTeamActive(teamName, false)] does to one row of [users]. *)
Definition flip_user (teamName : string) (u : User.t) : User.t :=
  if repo.by_team teamName u
  then User.mk (User.UserID u) (User.Username u) (User.TeamName u) false
  else u.

(** The pool in the words of the specification: the candidate-selection
    rule of [Reassign] applied to the team of the author of the pull
    request. *)
Definition author_team_pool (d : DB) (pr : PullRequest.t) (oldUID : string)
    : list string :=
  match repo.GetUserTeam d (PullRequest.AuthorID pr) with
  | Ok teamName => candidate_pool d pr oldUID teamName
  | Err _ => []
  end.

(** ** Jobs and channels *)

(** The dynamic types that the parameters of the known job kinds have. *)
Inductive dyn := DString | DBool | DPullRequest.

Definition has_dyn (ty : dyn) (v : option any) : bool :=
  match ty, v with
  | DString, Some (AnyString _) => true
  | DBool, Some (AnyBool _) => true
  | DPullRequest, Some (AnyPullRequest _) => true
  | _, _ => false
  end.

(** The known job kinds with the parameters each one requires. *)
Definition required (kind : string) : option (list (string * dyn)) :=
  if String.eqb kind "create_pr" then Some [("pr", DPullRequest)]
  else if String.eqb kind "merge_pr" then Some [("pr_id", DString)]
  else if String.eqb kind "reassign_pr" then Some [("pr_id", DString); ("old_user", DString)]
  else if String.eqb kind "get_team" then Some [("team", DString)]
  else if String.eqb kind "set_user_active" then Some [("uid", DString); ("active", DBool)]
  else if String.eqb kind "get_reviews" then Some [("uid", DString)]
  else if String.eqb kind "deactivate_team" then Some [("team_name", DString)]
  else None.

(** A payload that lacks a required parameter or has it with another
    dynamic type. *)
Definition malformed (job : Job) (reqs : list (string * dyn)) : Prop :=
  ∃ k ty, (k, ty) ∈ reqs ∧ has_dyn ty (Payload job !! k) = false.

(** The result [handleJob] gives for a job it cannot dispatch. *)
Definition unknown_result : JobResult * list any :=
  (mkJobResult AnyNil (Some ErrUnknownJobType), []).

(** The world after one negative poll of the context. *)
Definition after_poll (w : World) : World :=
  mkWorld (db w)
    (match polls_left (ctx w) with
     | Some (S n) => mkCtx (Some n) (ctx_err (ctx w))
     | _ => ctx w
     end)
    (draws w) (clock w) (log w).

(** A channel can take a value without blocking the sender: it is open and a
    receiver waits or the buffer has room. *)
Definition can_receive {A} (c : chan A) : Prop :=
  closed c = false ∧ (0 < receivers c ∨ length (buf c) < cap c).

(** The queue is full: open, nobody waiting to receive, no room. *)
Definition queue_full {A} (c : chan A) : Prop :=
  closed c = false ∧ receivers c = 0 ∧ cap c ≤ length (buf c).

(** The reply channel of a job, when it names a channel of the store. *)
Definition reply_chan (s : PRService) (job : Job) : option (nat * chan JobResult) :=
  RespCh job ≫= λ ch, (λ c, (ch, c)) <$> chans s !! ch.

(** The dispatcher with one reply channel updated, and with the warning of
    a full queue logged. *)
Definition with_chan (s : PRService) (ch : nat) (c : chan JobResult) : PRService :=
  mkService (jobs s) (stopped s) (<[ch := c]> (chans s)) (svc_log s).

Definition with_warning (s : PRService) (job : Job) : PRService :=
  mkService (jobs s) (stopped s) (chans s)
    (svc_log s ++ [mkLog WARN "job queue full, dropping job"
                     [AnyString "type"; AnyString (Type_ job)]]).

(** The outcome of a rejection with result [res]: delivered to the reply
    channel when that channel can receive, dropped otherwise. *)
Definition rejected (s : PRService) (job : Job) (res : JobResult) (o : step) : Prop :=
  match reply_chan s job with
  | None => o = Proceed s
  | Some (ch, c) =>
      (can_receive c →
       ∃ c', o = Proceed (with_chan s ch c')
             ∧ delivered c' ≡ₚ res :: delivered c ∧ cap c' = cap c ∧ closed c' = false)
      ∧ (closed c = false → ¬ can_receive c → o = Proceed s)
  end.

(** ** Example data *)

(** A checker for the constraints of the schema. *)
Definition check_db (d : DB) : bool :=
  bool_decide (NoDup (User.UserID <$> users d))
  && bool_decide (NoDup (pull_request_id <$> pull_requests d))
  && bool_decide (NoDup (pr_reviewers d))
  && forallb (λ rr, has_pr d rr.1 && has_user d rr.2) (pr_reviewers d)
  && forallb (λ p, has_user d (author_id p)) (pull_requests d).

(** The team of the specification's scenario: u1 and u2 active, u3 not. *)
Definition backend_users : list User.t :=
  [User.mk "u1" "Alice" "backend" true;
   User.mk "u2" "Bob" "backend" true;
   User.mk "u3" "Charlie" "backend" false].

(** The team alone, before any pull request. *)
Definition db_team : DB := mkDB ["backend"] backend_users [] [].

(** A request to create [pr-1] by u1. *)
Definition new_pr : PullRequest.t := PullRequest.mk "pr-1" "T" "u1" "" [] false 0 None.

(** A world at time 100 with a context that is never done. *)
Definition world (d : DB) (ds : list (option nat)) : World :=
  mkWorld d Background ds 100 [].

(** [pr-1] by u1, open, reviewed by u2. *)
Definition db_backend : DB :=
  mkDB ["backend"] backend_users [mkPRRow "pr-1" "T" "u1" "OPEN" true 100 None] [("pr-1", "u2")].

(** The same with u3 active again. *)
Definition db_backend3 : DB :=
  mkDB ["backend"]
    [User.mk "u1" "Alice" "backend" true;
     User.mk "u2" "Bob" "backend" true;
     User.mk "u3" "Charlie" "backend" true]
    [mkPRRow "pr-1" "T" "u1" "OPEN" true 100 None] [("pr-1", "u2")].

(** An author whose team has nobody else. *)
Definition db_solo : DB := mkDB ["solo"] [User.mk "u9" "Zoe" "solo" true] [] [].

Definition solo_pr : PullRequest.t := PullRequest.mk "pr-9" "S" "u9" "" [] false 0 None.

(** [pr-1] merged at time 100. *)
Definition db_merged : DB :=
  mkDB ["backend"] backend_users [mkPRRow "pr-1" "T" "u1" "MERGED" true 100 (Some 100%Z)]
    [("pr-1", "u2")].

Definition pr1_merged : PullRequest.t :=
  PullRequest.mk "pr-1" "T" "u1" "MERGED" [PRReviewer.mk "u2" "Bob" true] true 100
    (Some 100%Z).

(** u2, the reviewer of [pr-1], has been deactivated. *)
Definition db_origin_inactive : DB :=
  mkDB ["backend"]
    [User.mk "u1" "Alice" "backend" true;
     User.mk "u2" "Bob" "backend" false;
     User.mk "u3" "Charlie" "backend" true]
    [mkPRRow "pr-1" "T" "u1" "OPEN" true 100 None] [("pr-1", "u2")].

(** The reviewer u5 of [pr-2] is the only member of its team. *)
Definition db_no_pool : DB :=
  mkDB ["alpha"; "beta"]
    [User.mk "u4" "Dan" "alpha" true; User.mk "u5" "Eve" "beta" true]
    [mkPRRow "pr-2" "T" "u4" "OPEN" true 100 None] [("pr-2", "u5")].

Definition pr1_open (active : bool) : PullRequest.t :=
  PullRequest.mk "pr-1" "T" "u1" "OPEN" [PRReviewer.mk "u2" "Bob" active] true 100 None.

Definition pr2_open : PullRequest.t :=
  PullRequest.mk "pr-2" "T" "u4" "OPEN" [PRReviewer.mk "u5" "Eve" true] true 100 None.

(** Author a1 and c1 are in team alpha; the reviewer r1 of [pr-7] is in team
    beta. *)
Definition db_cross : DB :=
  mkDB ["alpha"; "beta"]
    [User.mk "a1" "Ann" "alpha" true; User.mk "c1" "Cat" "alpha" true;
     User.mk "r1" "Rob" "beta" true]
    [mkPRRow "pr-7" "T" "a1" "OPEN" true 100 None] [("pr-7", "r1")].

Definition pr7 (active : bool) : PullRequest.t :=
  PullRequest.mk "pr-7" "T" "a1" "OPEN" [PRReviewer.mk "r1" "Rob" active] true 100 None.

(** The warning of a failed replacement. *)
Definition no_replacement (prID uid : string) : LogEntry :=
  mkLog WARN "no replacement found for inactive reviewer"
    [AnyString "pr"; AnyString prID; AnyString "user"; AnyString uid].

(** r1 has been deactivated alone; b2 of the same team is active. *)
Definition db_partial : DB :=
  mkDB ["alpha"; "beta"]
    [User.mk "a1" "Ann" "alpha" true; User.mk "b2" "Bea" "beta" true;
     User.mk "r1" "Rob" "beta" false]
    [mkPRRow "pr-7" "T" "a1" "OPEN" true 100 None] [("pr-7", "r1")].

(** The outcome the specification promises for an open pull request whose
    sole reviewer [r] was deactivated: replaced by another, active user, or
    removed with [needsMoreReviewers] set. *)
Definition replaced_or_reduced (d' : DB) (prID r : string) : Prop :=
  ∃ pr', repo.GetPR d' prID = Ok pr'
    ∧ ((∃ x u, reviewer_ids (PullRequest.Assigned pr') = [x] ∧ x ≠ r
               ∧ repo.GetUser d' x = Ok u ∧ User.IsActive u = true)
       ∨ ((r ∉ reviewer_ids (PullRequest.Assigned pr'))
          ∧ PullRequest.NeedMoreReviewers pr' = true)).

(** [merge_pr] with a number where the id is expected, and with nothing. *)
Definition job_bad_id : Job := mkJob "merge_pr" {["pr_id" := AnyInt 3]} None.

Definition job_no_id : Job := mkJob "merge_pr" ∅ None.

(** A world whose context is already cancelled. *)
Definition cancelled_world (d : DB) : World := mkWorld d (mkCtx (Some 0) Canceled) [] 100 [].

(** A one-slot reply channel, empty and full. *)
Definition reply_empty : chan JobResult := mkChan 1 [] 0 [] false.

Definition reply_taken : chan JobResult :=
  mkChan 1 [mkJobResult AnyNil None] 0 [] false.

Definition job_get_team (ch : option nat) : Job :=
  mkJob "get_team" {["team" := AnyString "alpha"]} ch.

(** The dispatcher once [StopWorkers] has closed its channels, and one
    whose queue of two is full. *)
Definition svc_stopped (c : chan JobResult) : PRService :=
  mkService (mkChan jobQueueSize [] 0 [] true) true {[7 := c]} [].

Definition svc_full (c : chan JobResult) : PRService :=
  mkService (mkChan 2 [job_get_team None; job_get_team None] 0 [] false)
    false {[7 := c]} [].

(** A team with a member whose id is the empty string. *)
Definition db_empty_id : DB :=
  mkDB ["backend"]
    [User.mk "" "Nil" "backend" true; User.mk "u1" "Alice" "backend" true;
     User.mk "u2" "Bob" "backend" true]
    [mkPRRow "pr-1" "T" "u1" "OPEN" true 100 None] [("pr-1", "u2")].

(** The same with that member and u2 as the reviewers of [pr-1]. *)
Definition db_empty_reviewer : DB :=
  mkDB ["backend"]
    [User.mk "" "Nil" "backend" true; User.mk "u1" "Alice" "backend" true;
     User.mk "u2" "Bob" "backend" true]
    [mkPRRow "pr-1" "T" "u1" "OPEN" false 100 None] [("pr-1", ""); ("pr-1", "u2")].

(** ** Notions for the rest of the code *)

(** The member of a team that a row of [users] is listed as. *)
Definition as_member (u : User.t) : TeamMember.t :=
  TeamMember.mk (User.UserID u) (User.Username u) (User.IsActive u).

(** The ids of a member list. *)
Definition member_ids (l : list TeamMember.t) : list string := TeamMember.UserID <$> l.

(** The order of [ORDER BY user_id] on members. *)
Definition by_member_id (a b : TeamMember.t) : Prop :=
  Is_true (String.leb (TeamMember.UserID a) (TeamMember.UserID b)).

(** A team of two for the examples. *)
Definition team_alpha : Team.t :=
  Team.mk "alpha" [TeamMember.mk "a2" "Abe" true; TeamMember.mk "a1" "Ann" false].

(** The database after [InsertTeam]. *)
Definition with_team (d : DB) (team : Team.t) : DB := (repo.InsertTeam d team).2.

(** A computation that leaves the database and the clock as they are,
    whether it returns or fails. *)
Definition read_only {A} (m : M A) : Prop :=
  ∀ w, match m w with
       | Return _ w' | Fail _ w' => db w' = db w ∧ clock w' = clock w
       | Panic | Starved => True
       end.

(** A computation that does not panic, in whatever world it starts. *)
Definition no_panic {A} (m : M A) : Prop := ∀ w, m w ≠ Panic.

(** The pull request that [CreatePR] hands to the repository. *)
Definition stored_pr (pr : PullRequest.t) (selected : list PRReviewer.t) (now : Z)
    : PullRequest.t :=
  PullRequest.mk (PullRequest.PullRequestID pr) (PullRequest.PullRequestName pr)
    (PullRequest.AuthorID pr) "OPEN" selected
    (bool_decide (length selected < maxReviewers)) now (PullRequest.MergedAt pr).

(** The world after [n] draws. *)
Definition after_draws (n : nat) (w : World) : World :=
  mkWorld (db w) (ctx w) (drop n (draws w)) (clock w) (log w).

(** The team with all three members active, before any pull request. *)
Definition db_team3 : DB :=
  mkDB ["backend"]
    [User.mk "u1" "Alice" "backend" true; User.mk "u2" "Bob" "backend" true;
     User.mk "u3" "Charlie" "backend" true] [] [].

(** The pull request [pr] as [repo.MergePR] leaves it at time [t]. *)
Definition merged_at_time (pr : PullRequest.t) (t : Z) : PullRequest.t :=
  PullRequest.mk (PullRequest.PullRequestID pr) (PullRequest.PullRequestName pr)
    (PullRequest.AuthorID pr) "MERGED" (PullRequest.Assigned pr)
    (PullRequest.NeedMoreReviewers pr) (PullRequest.CreatedAt pr) (Some t).


(** A computation that does not leave with an error: its errors, if any,
    are part of the value it returns. *)
Definition no_fail {A} (m : M A) : Prop := ∀ w e w', m w ≠ Fail e w'.

(** A sequence of submissions, as long as none of them blocks or panics. *)
Definition enqueue_all (s : PRService) (l : list Job) : step :=
  foldl (λ st job, match st with Proceed s => EnqueueJob s job | _ => st end)
    (Proceed s) l.

(** The dispatcher with another buffer in its queue. *)
Definition with_buf (s : PRService) (b : list Job) : PRService :=
  mkService (mkChan (cap (jobs s)) b (receivers (jobs s)) (handed (jobs s))
               (closed (jobs s)))
    (stopped s) (chans s) (svc_log s).

(** No reply channel of the store has been closed by its owner. *)
Definition replies_open (s : PRService) : Prop :=
  ∀ ch c, chans s !! ch = Some c → closed c = false.

(** The order of [ORDER BY user_id] on ids. *)
Definition by_id (a b : string) : Prop := Is_true (String.leb a b).



(** The number of pull requests a user reviews. *)
Definition review_count (d : DB) (uid : string) : nat :=
  length (filter (λ rr, rr.2 = uid) (pr_reviewers d)).

(** The entry of [logJobResult] for a job and its result. *)
Definition job_entry (durationStr : string) (job : Job) (r : JobResult * list any)
    : LogEntry :=
  match Error_ r.1 with
  | None => mkLog SUCCESS (Type_ job +:+ " succeeded")
              ([AnyString "duration"; AnyString durationStr] ++ r.2)
  | Some e => mkLog ERROR (Error e) r.2
  end.

(** The warning of a worker whose reply is not taken. *)
Definition dropped_entry (job : Job) : LogEntry :=
  mkLog WARN "response channel blocked, dropping result"
    [AnyString "type"; AnyString (Type_ job)].

(** A reply channel as the handlers make it: one slot, empty. *)
Definition fresh_reply : chan JobResult := mkChan 1 [] 0 [] false.

(** A running dispatcher whose queue, of the capacity [NewService] gives
    it, is empty while no worker waits in a receive: each one is handling
    a job. *)
Definition svc_busy : PRService :=
  mkService (mkChan jobQueueSize [] 0 [] false) false ∅ [].

(** A computation under which the constraints of the schema are kept,
    whether it returns or fails. *)
Definition keeps_schema {A} (m : M A) : Prop :=
  ∀ w, wf_db (db w) →
       match m w with
       | Return _ w' | Fail _ w' => wf_db (db w')
       | Panic | Starved => True
       end.

(** * Properties *)

(** ** Sorting, lookups *)

Lemma order_by_perm {A} (key : A → string) (l : list A) : order_by key l ≡ₚ l.
Proof. apply merge_sort_Permutation. Qed.

Lemma order_by_desc_perm {A} (key : A → Z) (l : list A) : order_by_desc key l ≡ₚ l.
Proof. apply merge_sort_Permutation. Qed.

Lemma find_Some_elem {A} (f : A → bool) (l : list A) (x : A) :
  find f l = Some x → x ∈ l ∧ f x = true.
Proof.
  intros H. apply find_some in H as [Hin Hf]. split; [by apply list_elem_of_In | done].
Qed.

Lemma find_None_elem {A} (f : A → bool) (l : list A) (x : A) :
  find f l = None → x ∈ l → f x = false.
Proof.
  intros H Hin. apply list_elem_of_In in Hin. by eapply find_none in H.
Qed.

Lemma GetUser_Ok d uid u :
  repo.GetUser d uid = Ok u → User.UserID u = uid ∧ u ∈ users d.
Proof.
  unfold repo.GetUser. destruct (find _ _) eqn:E; [|done].
  intros [= ->]. apply find_Some_elem in E as [? E]. split; [|done].
  by apply String.eqb_eq.
Qed.

(** ** Running the monad *)

Lemma bind_Return_inv {A B} (m : M A) (k : A → M B) w b w2 :
  (m ≫= k) w = Return b w2 → ∃ a w1, m w = Return a w1 ∧ k a w1 = Return b w2.
Proof. unfold mbind, M_bind. destruct (m w); naive_solver. Qed.

Lemma bind_Return {A B} (m : M A) (k : A → M B) w a w1 :
  m w = Return a w1 → (m ≫= k) w = k a w1.
Proof. unfold mbind, M_bind. by intros ->. Qed.

Lemma bind_Fail {A B} (m : M A) (k : A → M B) w e w1 :
  m w = Fail e w1 → (m ≫= k) w = Fail e w1.
Proof. unfold mbind, M_bind. by intros ->. Qed.

Lemma ret_Return_inv {A} (a b : A) w w' :
  (mret a : M A) w = Return b w' → a = b ∧ w = w'.
Proof. by intros [= -> ->]. Qed.

Lemma query_inv {A} (f : DB → result A) w r w' :
  query f w = Return r w' → r = f (db w) ∧ w' = w.
Proof. by intros [= <- <-]. Qed.

Lemma exec_inv {A} (f : DB → result A * DB) w r w' :
  exec f w = Return r w' → r = (f (db w)).1 ∧ w' = set_db (f (db w)).2 w.
Proof. by intros [= <- <-]. Qed.

Lemma index_inv {A} (l : list A) i w a w' :
  index l i w = Return a w' → l !! i = Some a ∧ w' = w.
Proof. unfold index. destruct (l !! i); [|done]. by intros [= -> ->]. Qed.

Lemma check_ctx_inv w u w' :
  check_ctx w = Return u w' →
  db w' = db w ∧ draws w' = draws w ∧ log w' = log w ∧ clock w' = clock w.
Proof.
  unfold check_ctx, ctx_poll, mbind, M_bind, mret, M_ret, fail.
  destruct (polls_left (ctx w)) as [[|n]|]; simpl; intros ?; by simplify_eq/=.
Qed.

Lemma cryptoRandInt_inv n w r w' :
  cryptoRandInt n w = Return r w' →
  db w' = db w ∧ ctx w' = ctx w ∧ log w' = log w ∧ clock w' = clock w
  ∧ ∀ idx, r = Ok idx → idx < n.
Proof.
  unfold cryptoRandInt. case_bool_decide as Hn.
  - intros ?; by simplify_eq/=.
  - destruct (draws w) as [|d ds]; [done|]. intros ?; simplify_eq/=.
    repeat split. intros idx. destruct d; [|case_bool_decide; [|done]]; intros [= <-];
      [apply Nat.mod_upper_bound|]; lia.
Qed.

Lemma Log_inv l m kvs w u w' :
  Log l m kvs w = Return u w' →
  db w' = db w ∧ ctx w' = ctx w ∧ draws w' = draws w ∧ clock w' = clock w
  ∧ log w' = log w ++ [mkLog l m kvs].
Proof. unfold Log. intros ?; by simplify_eq/=. Qed.


Lemma validated_inv v w u w' : validated v w = Return u w' → v = None ∧ w' = w.
Proof. destruct v; [done|]. by intros [= <-]. Qed.

Lemma or_return_inv {A} h (r : result A) w a w' :
  or_return h r w = Return a w' → r = Ok a ∧ w' = w.
Proof.
  destruct r as [a'|e]; simpl.
  - by intros [= <- <-].
  - intros (? & ? & _ & ?)%bind_Return_inv. done.
Qed.

Lemma Now_inv w t w' : Now w = Return t w' → t = clock w ∧ w' = w.
Proof. by intros [= <- <-]. Qed.

Ltac minv :=
  repeat match goal with
  | H : (_ ≫= _) _ = Return _ _ |- _ =>
      apply bind_Return_inv in H; destruct H as (? & ? & ? & ?)
  | H : @mret M _ _ _ _ = Return _ _ |- _ => apply ret_Return_inv in H; destruct H as [? ?]; subst
  | H : fail _ _ = Return _ _ |- _ => discriminate H
  | H : query _ _ = Return _ _ |- _ => apply query_inv in H; destruct H as [? ?]; subst
  | H : exec _ _ = Return _ _ |- _ => apply exec_inv in H; destruct H as [? ?]; subst
  | H : Now _ = Return _ _ |- _ => apply Now_inv in H; destruct H as [? ?]; subst
  | H : validated _ _ = Return _ _ |- _ => apply validated_inv in H; destruct H as [? ?]; subst
  | H : or_return _ _ _ = Return _ _ |- _ => apply or_return_inv in H; destruct H as [? ?]; subst
  | H : index _ _ _ = Return _ _ |- _ => apply index_inv in H; destruct H as [? ?]; subst
  | H : check_ctx _ = Return _ _ |- _ => apply check_ctx_inv in H; destruct H as (? & ? & ? & ?)
  | H : cryptoRandInt _ _ = Return _ _ |- _ =>
      apply cryptoRandInt_inv in H; destruct H as (? & ? & ? & ? & ?)
  end.

(** ** The selection loop of CreatePR *)

(** The loop does not write, keeps the bound on the number of selected
    reviewers, and selects candidates only. *)
Lemma select_reviewers_inv fuel : ∀ cands selected w sel' w',
  select_reviewers fuel cands selected w = Return sel' w' →
  db w' = db w
  ∧ (length selected ≤ maxReviewers → length sel' ≤ maxReviewers)
  ∧ ∀ x, x ∈ reviewer_ids sel' → x ∈ reviewer_ids selected ∨ x ∈ cands.
Proof.
  induction fuel as [|fuel IH]; intros cands selected w sel' w'.
  - simpl. case_bool_decide; [done|]. intros [= -> ->]. auto.
  - simpl. case_bool_decide as Hc; [|intros [= -> ->]; auto].
    destruct Hc as [Hlen Hne]. intros H. minv.
    assert (Hdb : db x2 = db w) by congruence.
    destruct x1 as [idx|e]; minv.
    + assert (Hsub : ∀ y, y ∈ delete idx cands → y ∈ cands)
        by (intros y; apply list_elem_of_delete_inv).
      destruct (repo.GetUser (db x2) x1) as [user|e] eqn:Hu;
        [destruct (User.IsActive user) eqn:Hact; simpl in *|].
      * apply IH in H10 as (Hd & Hl & Hin). split; [congruence|]. split.
        { intros _. apply Hl. rewrite length_app. simpl.
          unfold maxReviewers in *. lia. }
        intros y Hy. destruct (Hin y Hy) as [Hy'|Hy']; [|by auto].
        unfold reviewer_ids in Hy'. rewrite fmap_app in Hy'.
        apply elem_of_app in Hy' as [?|Hy']; [by left|right].
        apply list_elem_of_singleton in Hy' as ->. simpl.
        apply GetUser_Ok in Hu as [-> _]. by eapply list_elem_of_lookup_2.
      * apply IH in H10 as (Hd & Hl & Hin). split; [congruence|]. split; [done|].
        intros y Hy. destruct (Hin y Hy); auto.
      * apply IH in H10 as (Hd & Hl & Hin). split; [congruence|]. split; [done|].
        intros y Hy. destruct (Hin y Hy); auto.
    + apply IH in H1 as (Hd & Hl & Hin). split; [congruence|]. done.
Qed.

(** ** Facts about the tables *)

Lemma filter_none {A} (P : A → Prop) `{∀ x, Decision (P x)} (l : list A) :
  (∀ x, x ∈ l → ¬ P x) → filter P l = [].
Proof.
  induction l as [|a l IH]; [done|]. intros Hn.
  rewrite filter_cons, decide_False by (apply Hn; by left).
  apply IH. intros x ?. apply Hn. by right.
Qed.

Lemma filter_key_NoDup {A K} `{EqDecision K} (f : A → K) (l : list A) (x : A) :
  NoDup (f <$> l) → x ∈ l → filter (λ y, f y = f x) l = [x].
Proof.
  induction l as [|a l IH]; [by intros _ ?%elem_of_nil|].
  rewrite fmap_cons, NoDup_cons. intros [Hnin Hnd] Hin.
  rewrite filter_cons. apply elem_of_cons in Hin as [->|Hin].
  - rewrite decide_True by done. f_equal.
    apply filter_none. intros y Hy Heq.
    apply Hnin. rewrite <- Heq. by apply list_elem_of_fmap_2.
  - rewrite decide_False; [by apply IH|].
    intros Heq. apply Hnin. rewrite Heq. by apply list_elem_of_fmap_2.
Qed.

Lemma has_user_elem d uid :
  has_user d uid = true ↔ ∃ u, u ∈ users d ∧ User.UserID u = uid.
Proof.
  unfold has_user. rewrite existsb_exists. split.
  - intros (u & Hin & He). exists u. split; [by apply list_elem_of_In|by apply String.eqb_eq].
  - intros (u & Hin & He). exists u. split; [by apply list_elem_of_In|by apply String.eqb_eq].
Qed.

Lemma has_pr_elem d prID :
  has_pr d prID = true ↔ ∃ p, p ∈ pull_requests d ∧ pull_request_id p = prID.
Proof.
  unfold has_pr. rewrite existsb_exists. split.
  - intros (u & Hin & He). exists u. split; [by apply list_elem_of_In|by apply String.eqb_eq].
  - intros (u & Hin & He). exists u. split; [by apply list_elem_of_In|by apply String.eqb_eq].
Qed.

(** With unique user ids and the user foreign key, the join of [GetPR]
    yields one reviewer per row. *)
Lemma reviewers_of_ids d prID :
  NoDup (User.UserID <$> users d) →
  (∀ rr, rr ∈ reviewer_rows d prID → has_user d rr.2 = true) →
  reviewer_ids (repo.reviewers_of d prID) ≡ₚ (reviewer_rows d prID).*2.
Proof.
  intros Hpk Hfk. unfold repo.reviewers_of, reviewer_ids.
  rewrite order_by_perm. fold (reviewer_rows d prID).
  induction (reviewer_rows d prID) as [|rr rows IH]; [done|].
  rewrite bind_cons, fmap_app, fmap_cons.
  assert (Hrr : has_user d rr.2 = true) by (apply Hfk; by left).
  apply has_user_elem in Hrr as (u & Hin & Hid).
  rewrite <- Hid, (filter_key_NoDup User.UserID _ u) by done. simpl.
  apply perm_skip, IH. intros rr' ?. apply Hfk. by right.
Qed.

Lemma reviewers_of_length d prID :
  NoDup (User.UserID <$> users d) →
  (∀ rr, rr ∈ reviewer_rows d prID → has_user d rr.2 = true) →
  length (repo.reviewers_of d prID) = length (reviewer_rows d prID).
Proof.
  intros Hpk Hfk. pose proof (reviewers_of_ids d prID Hpk Hfk) as Hp.
  apply Permutation_length in Hp. unfold reviewer_ids in Hp.
  by rewrite !length_fmap in Hp.
Qed.

Lemma insert_reviewer_Ok d prID uid d' :
  repo.insert_reviewer d prID uid = Ok d' →
  has_reviewer d prID uid = false ∧ has_pr d prID = true ∧ has_user d uid = true
  ∧ d' = mkDB (teams d) (users d) (pull_requests d) (pr_reviewers d ++ [(prID, uid)]).
Proof.
  unfold repo.insert_reviewer.
  destruct (has_reviewer d prID uid); [done|].
  destruct (has_pr d prID); [|done]. destruct (has_user d uid); [|done].
  simpl. by intros [= <-].
Qed.

Lemma insert_reviewers_Ok prID revs : ∀ d d',
  repo.insert_reviewers d prID revs = Ok d' →
  users d' = users d ∧ pull_requests d' = pull_requests d
  ∧ pr_reviewers d' = pr_reviewers d ++ ((λ r, (prID, PRReviewer.UserID r)) <$> revs)
  ∧ ∀ r, r ∈ revs → has_user d (PRReviewer.UserID r) = true.
Proof.
  induction revs as [|r revs IH]; intros d d'; simpl.
  - intros [= <-]. rewrite app_nil_r. repeat split. by intros ? ?%elem_of_nil.
  - destruct (repo.insert_reviewer d prID (PRReviewer.UserID r)) as [d1|e] eqn:E; [|done].
    apply insert_reviewer_Ok in E as (_ & _ & Hu & ->).
    intros (Hus & Hps & Hrs & Hall)%IH. simpl in *.
    rewrite Hus, Hps, Hrs, <- app_assoc. repeat split.
    intros r' [->|?]%elem_of_cons; [done|]. by apply Hall.
Qed.

Lemma repo_CreatePR_Ok d pr u d' :
  repo.CreatePR d pr = (Ok u, d') →
  has_pr d (PullRequest.PullRequestID pr) = false
  ∧ users d' = users d
  ∧ pull_requests d' = pull_requests d ++ [new_row pr]
  ∧ pr_reviewers d' = pr_reviewers d ++
      ((λ r, (PullRequest.PullRequestID pr, PRReviewer.UserID r)) <$> PullRequest.Assigned pr)
  ∧ ∀ r, r ∈ PullRequest.Assigned pr → has_user d (PRReviewer.UserID r) = true.
Proof.
  unfold repo.CreatePR, repo.insert_pull_request.
  destruct (has_pr d _) eqn:Hp; [done|].
  destruct (has_user d (PullRequest.AuthorID pr)); [|done]. simpl.
  destruct (repo.insert_reviewers _ _ _) as [d2|e] eqn:E; [|done].
  intros [= ?]. apply insert_reviewers_Ok in E as (Hus & Hps & Hrs & Hall).
  simpl in *. subst d'. repeat split; auto.
Qed.

Lemma find_app_miss {A} (f : A → bool) (l : list A) (x : A) :
  existsb f l = false → find f (l ++ [x]) = if f x then Some x else None.
Proof.
  induction l as [|a l IH]; simpl; [done|].
  destruct (f a); [done|]. simpl. apply IH.
Qed.

Lemma no_rows_without_pr d prID :
  (∀ rr, rr ∈ pr_reviewers d → has_pr d rr.1 = true) →
  has_pr d prID = false → reviewer_rows d prID = [].
Proof.
  intros Hfk Hno. apply filter_none. intros rr Hin <-.
  apply Hfk in Hin. congruence.
Qed.

Lemma find_None_existsb {A} (f : A → bool) (l : list A) :
  find f l = None → existsb f l = false.
Proof. induction l as [|a l IH]; simpl; [done|]. destruct (f a); [done|]. auto. Qed.

Lemma GetPR_Err d prID e : repo.GetPR d prID = Err e → has_pr d prID = false.
Proof.
  unfold repo.GetPR. destruct (find _ _) eqn:E; [done|]. intros _.
  by apply find_None_existsb in E.
Qed.

(** ** CreatePR *)

Lemma active_candidates_exclude d team except l :
  except ≠ "" →
  repo.GetActiveTeamMembersExcept d team except = Ok l → ∀ x, x ∈ l → x ≠ except.
Proof.
  intros Hne [= <-] x. rewrite order_by_perm.
  intros (u & -> & (Hf & _)%list_elem_of_filter)%list_elem_of_fmap.
  apply Is_true_true in Hf. apply andb_prop in Hf as [_ Hf].
  apply orb_prop in Hf as [Hf|Hf].
  - by apply String.eqb_eq in Hf.
  - apply negb_true_iff, String.eqb_neq in Hf. done.
Qed.

Lemma validatePullRequest_author pr :
  validatePullRequest pr = None → PullRequest.AuthorID pr ≠ "".
Proof.
  unfold validatePullRequest. repeat case_match; try done.
  intros _. by apply String.eqb_neq.
Qed.

Lemma CreatePR_returns w pr created w' :
  wf_db (db w) →
  CreatePR pr w = Return created w' →
  ∃ selected,
    length selected ≤ maxReviewers
    ∧ (∀ x, x ∈ reviewer_ids selected → x ≠ PullRequest.AuthorID pr)
    ∧ length (PullRequest.Assigned created) = length selected
    ∧ reviewer_ids (PullRequest.Assigned created) ≡ₚ reviewer_ids selected
    ∧ PullRequest.NeedMoreReviewers created
      = bool_decide (length selected < maxReviewers).
Proof.
  intros Hwf H. unfold CreatePR in H. minv.
  match goal with H : validatePullRequest _ = None |- _ =>
    apply validatePullRequest_author in H; rename H into Hauthor end.
  match goal with H : match repo.GetPR ?d ?i with _ => _ end _ = Return _ ?w1 |- _ =>
    destruct (repo.GetPR d i) as [?|e] eqn:Hget; [done|];
    assert (w1 = w) as -> by (destruct (is_not_found e); minv; done); clear H end.
  apply GetPR_Err in Hget.
  match goal with H : repo.GetActiveTeamMembersExcept _ _ _ = Ok ?l |- _ =>
    pose proof (active_candidates_exclude _ _ _ _ ltac:(eassumption) H) as Hcands;
    simpl in Hcands end.
  match goal with
  | H : (if bool_decide (0 < length ?c) then _ else _) w = Return ?sel ?w2 |- _ =>
    assert (db w2 = db w ∧ length sel ≤ maxReviewers
            ∧ ∀ x, x ∈ reviewer_ids sel → x ≠ PullRequest.AuthorID pr)
      as (Hdb & Hlen & Hsel);
    [ destruct (bool_decide (0 < length c));
      [ apply select_reviewers_inv in H as (? & Hl & Hin); split; [done|];
        split; [apply Hl; simpl; unfold maxReviewers; lia|];
        intros y Hy; destruct (Hin y Hy) as [[]%elem_of_nil|?]; by apply Hcands
      | minv; split; [done|]; split; [simpl; lia|]; by intros ? ?%elem_of_nil ]
    | clear H; rename sel into selected ]
  end.
  match goal with H : (repo.CreatePR ?d ?p).1 = Ok _ |- _ =>
    destruct (repo.CreatePR d p) as [r d2] eqn:Hcreate; simpl in H; subst r end.
  apply repo_CreatePR_Ok in Hcreate as (_ & Hus & Hps & Hrs & Hall).
  simpl in *. rewrite Hdb in *.
  match goal with H : repo.GetPR _ _ = Ok _ |- _ => unfold repo.GetPR in H;
    rewrite Hps, find_app_miss in H by done; unfold new_row in H; simpl in H;
    unfold repo.by_pr in H; simpl in H;
    rewrite String.eqb_refl in H; injection H as <- end.
  simpl. exists selected.
  assert (Hrows : reviewer_rows d2 (PullRequest.PullRequestID pr)
                  = (λ r, (PullRequest.PullRequestID pr, PRReviewer.UserID r)) <$> selected).
  { unfold reviewer_rows. rewrite Hrs, filter_app.
    fold (reviewer_rows (db w) (PullRequest.PullRequestID pr)).
    rewrite no_rows_without_pr by (done || apply Hwf). simpl.
    clear. induction selected as [|r l IH]; [done|].
    rewrite fmap_cons, filter_cons, decide_True by done. by rewrite IH. }
  assert (Hfk : ∀ rr, rr ∈ reviewer_rows d2 (PullRequest.PullRequestID pr)
                → has_user d2 rr.2 = true).
  { rewrite Hrows. intros rr (r & -> & Hr)%list_elem_of_fmap. simpl.
    unfold has_user. rewrite Hus. by apply Hall. }
  assert (Hpk : NoDup (User.UserID <$> users d2)) by (rewrite Hus; apply Hwf).
  pose proof (reviewers_of_ids d2 _ Hpk Hfk) as Hids.
  rewrite Hrows in Hids. rewrite <- list_fmap_compose in Hids.
  split; [done|]. split; [done|]. split; [|split; [done|done]].
  rewrite reviewers_of_length, Hrows, length_fmap by done. done.
Qed.

Lemma GetPR_missing d prID :
  has_pr d prID = false → repo.GetPR d prID = Err (Errorf "not found").
Proof.
  unfold repo.GetPR, has_pr. intros Hno.
  destruct (find _ _) as [p|] eqn:E; [|done].
  apply find_some in E as [Hin He].
  assert (existsb (λ p, String.eqb (pull_request_id p) prID) (pull_requests d) = true)
    by (apply existsb_exists; eauto).
  congruence.
Qed.

Lemma GetUserTeam_has_user d uid team :
  repo.GetUserTeam d uid = Ok team → has_user d uid = true.
Proof.
  unfold repo.GetUserTeam. destruct (find _ _) as [u|] eqn:E; [|done]. intros _.
  apply find_some in E as [Hin He]. apply existsb_exists. eauto.
Qed.

(** C1: on a database that satisfies the constraints of the schema, every
    pull request returned by a successful [CreatePR] carries at most
    [maxReviewers] (two) reviewers, never its own author, and has
    [NeedMoreReviewers] set exactly when it carries fewer than two.  When
    the context is never done, the request is valid, the id is new and the
    team of the author has no active member besides the author, [CreatePR]
    does return: the pull request is stored with no reviewer and
    [NeedMoreReviewers = true]. *)
Theorem CreatePR_reviewer_bounds w pr :
  wf_db (db w) →
  (∀ created w', CreatePR pr w = Return created w' →
     length (PullRequest.Assigned created) ≤ maxReviewers
     ∧ (PullRequest.AuthorID pr ∉ reviewer_ids (PullRequest.Assigned created))
     ∧ (PullRequest.NeedMoreReviewers created = true
        ↔ length (PullRequest.Assigned created) < maxReviewers))
  ∧ (polls_left (ctx w) = None →
     validatePullRequest pr = None →
     has_pr (db w) (PullRequest.PullRequestID pr) = false →
     (∃ team, repo.GetUserTeam (db w) (PullRequest.AuthorID pr) = Ok team
              ∧ repo.GetActiveTeamMembersExcept (db w) team (PullRequest.AuthorID pr)
                = Ok []) →
     ∃ created w', CreatePR pr w = Return created w'
       ∧ PullRequest.Assigned created = []
       ∧ PullRequest.NeedMoreReviewers created = true).
Proof.
  intros Hwf. split.
  - intros created w' (sel & Hlen & Hsel & Hl & Hids & Hneed)%CreatePR_returns; [|done].
    rewrite Hl, Hneed. split; [done|]. split.
    + intros Hin. rewrite Hids in Hin. by apply Hsel in Hin.
    + by rewrite bool_decide_eq_true.
  - intros _ Hval Hno (team & Hteam & Hcands).
    assert (Hnf : is_not_found (Errorf "not found") = true) by reflexivity.
    unfold CreatePR, mbind, M_bind, validated, query, or_return, mret, M_ret, exec, Now.
    rewrite Hval, (GetPR_missing _ _ Hno). cbn beta iota. rewrite Hnf. cbn beta iota.
    rewrite Hteam. cbn beta iota. rewrite Hcands. cbn beta iota.
    change (bool_decide (0 < length (@nil string))) with false. cbn beta iota.
    unfold repo.CreatePR, repo.insert_pull_request. cbn [PullRequest.PullRequestID PullRequest.AuthorID PullRequest.Assigned set_db db].
    rewrite Hno, (GetUserTeam_has_user _ _ _ Hteam). cbn.
    unfold repo.GetPR. cbn. rewrite find_app_miss by done.
    unfold repo.by_pr. cbn. rewrite String.eqb_refl.
    eexists _, _. split; [reflexivity|]. cbn. split; [|done].
    unfold repo.reviewers_of. cbn.
    fold (reviewer_rows (db w) (PullRequest.PullRequestID pr)).
    rewrite no_rows_without_pr by (done || apply Hwf). done.
Qed.

(** ** MergePR *)

Lemma find_fmap_same {A} (f : A → bool) (g : A → A) (l : list A) :
  (∀ x, f (g x) = f x) → find f (g <$> l) = g <$> find f l.
Proof.
  intros Hg. induction l as [|a l IH]; [done|].
  rewrite fmap_cons. simpl. rewrite Hg. destruct (f a); [done|apply IH].
Qed.

Lemma GetPR_merged d prID t pr :
  repo.GetPR (merged_db d prID t) prID = Ok pr →
  PullRequest.Status pr = "MERGED" ∧ PullRequest.MergedAt pr = Some t
  ∧ PullRequest.Assigned pr = repo.reviewers_of d prID.
Proof.
  unfold merged_db, repo.MergePR, repo.GetPR. cbn [snd pull_requests].
  rewrite find_fmap_same.
  - destruct (find _ _) as [p|] eqn:E; [|done]. cbn -[repo.reviewers_of].
    apply find_some in E as [_ ->]. intros Heq. injection Heq as <-.
    cbn -[repo.reviewers_of]. done.
  - intros p. unfold repo.by_pr.
    destruct (String.eqb (pull_request_id p) prID) eqn:E; cbn; by rewrite E.
Qed.

(** C3: [MergePR] is idempotent.  A successful call returns the pull request
    in status MERGED; any further call on the resulting database, under a
    context that is never done, returns the very same pull request, without
    an error and without touching the world.  The reviewers are those the
    pull request had before the call, and a call on a pull request that is
    already merged changes nothing at all. *)
Theorem MergePR_idempotent w prID pr1 w1 :
  MergePR prID w = Return pr1 w1 →
  PullRequest.Status pr1 = "MERGED"
  ∧ (∀ w2, db w2 = db w1 → polls_left (ctx w2) = None →
       MergePR prID w2 = Return pr1 w2)
  ∧ (∀ pr0, repo.GetPR (db w) prID = Ok pr0 →
       PullRequest.Assigned pr1 = PullRequest.Assigned pr0
       ∧ (PullRequest.Status pr0 = "MERGED" → pr1 = pr0 ∧ w1 = w)).
Proof.
  intros H. unfold MergePR in H. minv.
  match goal with H : repo.GetPR _ _ = Ok ?p |- _ => rename H into Hget, p into pr end.
  match goal with H : _ _ = Return pr1 w1 |- _ => rename H into Hrest end.
  assert (Hsecond : ∀ w2 p, repo.GetPR (db w2) prID = Ok p →
            PullRequest.Status p = "MERGED" → MergePR prID w2 = Return p w2).
  { intros w2 p Hp Hs. unfold MergePR, mbind, M_bind, query, or_return, mret, M_ret.
    rewrite Hp. cbn beta iota. by rewrite Hs. }
  destruct (String.eqb (PullRequest.Status pr) "MERGED") eqn:Hst.
  - minv. apply String.eqb_eq in Hst. split; [done|]. split.
    + intros w2 Hdb _. apply Hsecond; [by rewrite Hdb|done].
    + intros pr0 Hpr0. rewrite Hget in Hpr0. injection Hpr0 as <-. done.
  - minv. apply String.eqb_neq in Hst.
    match goal with H : (repo.MergePR _ _ _).1 = Ok _ |- _ => rename H into Hm end.
    cbn in Hm. fold (merged_db (db w) prID (clock w)) in Hm.
    pose proof (GetPR_merged _ _ _ _ Hm) as (Hs & Ht & Ha).
    split; [done|]. split.
    + intros w2 Hdb _. apply Hsecond; [|done]. by rewrite Hdb.
    + intros pr0 Hpr0. rewrite Hget in Hpr0. injection Hpr0 as <-. split; [|done].
      rewrite Ha. unfold repo.GetPR in Hget. destruct (find _ _); [|done].
      by injection Hget as <-.
Qed.

(** ** Reassign *)

Lemma refreshed_id d r : PRReviewer.UserID (refreshed d r) = PRReviewer.UserID r.
Proof. unfold refreshed. by destruct (repo.GetUser _ _). Qed.

Lemma refresh_assigned_eq pr w :
  refresh_assigned pr w
  = Return (with_assigned pr (refreshed (db w) <$> PullRequest.Assigned pr)) w.
Proof.
  unfold refresh_assigned.
  assert (Hloop : ∀ l acc,
    for_range l acc (λ acc r,
        usr ← query (λ d, repo.GetUser d (PRReviewer.UserID r));
        mret (acc ++ [match usr with
                      | Ok usr => PRReviewer.mk (PRReviewer.UserID r)
                                    (PRReviewer.Username r) (User.IsActive usr)
                      | Err _ => r
                      end])) w
    = Return (acc ++ (refreshed (db w) <$> l)) w).
  { induction l as [|r l IH]; intros acc; simpl.
    - by rewrite app_nil_r.
    - unfold mbind at 1, M_bind at 1. unfold mbind at 1, M_bind at 1, query at 1.
      cbn beta iota. unfold mret at 1, M_ret at 1. cbn beta iota.
      rewrite IH, <- app_assoc. done. }
  unfold mbind, M_bind. rewrite Hloop. done.
Qed.

Lemma refreshed_ids d l : reviewer_ids (refreshed d <$> l) = reviewer_ids l.
Proof.
  unfold reviewer_ids. rewrite <- list_fmap_compose.
  apply list_fmap_ext. intros i r _. apply refreshed_id.
Qed.

Lemma existsb_reviewer l uid :
  existsb (λ r, String.eqb (PRReviewer.UserID r) uid) l = true ↔ uid ∈ reviewer_ids l.
Proof.
  rewrite existsb_exists. unfold reviewer_ids. rewrite list_elem_of_fmap. split.
  - intros (r & Hin & He%String.eqb_eq). exists r. split; [done|by apply list_elem_of_In].
  - intros (r & -> & Hin). exists r. split; [by apply list_elem_of_In|apply String.eqb_refl].
Qed.

(** A reviewer listed by [GetPR] is a row of [users]. *)
Lemma GetPR_reviewer_is_user d prID pr uid :
  repo.GetPR d prID = Ok pr → uid ∈ reviewer_ids (PullRequest.Assigned pr) →
  has_user d uid = true.
Proof.
  unfold repo.GetPR. destruct (find _ _); [|done]. intros [= <-]. cbn.
  unfold repo.reviewers_of, reviewer_ids. rewrite order_by_perm.
  intros (r & Heq & (rr & Hr & _)%list_elem_of_bind)%list_elem_of_fmap.
  apply list_elem_of_fmap in Hr as (u & Hr & (_ & Hu)%list_elem_of_filter).
  subst. apply has_user_elem. eauto.
Qed.

Lemma has_user_GetUser d uid :
  has_user d uid = true → ∃ u, repo.GetUser d uid = Ok u ∧ repo.GetUserTeam d uid = Ok (User.TeamName u).
Proof.
  unfold has_user, repo.GetUser, repo.GetUserTeam, repo.by_user. intros H.
  destruct (find _ _) as [u|] eqn:E; [eauto|].
  apply find_None_existsb in E. congruence.
Qed.

Lemma avail_for_reassign_pool d pr oldUser teamName cands :
  repo.GetActiveTeamMembersExcept d teamName "" = Ok cands →
  avail_for_reassign (with_assigned pr (refreshed d <$> PullRequest.Assigned pr))
    oldUser cands
  = candidate_pool d pr oldUser teamName.
Proof.
  intros Hc. unfold candidate_pool. rewrite Hc. unfold avail_for_reassign.
  apply list_filter_iff. intros c. unfold assignedSet. cbn [with_assigned PullRequest.Assigned].
  rewrite elem_of_list_to_set, refreshed_ids. done.
Qed.

(** The first part of [Reassign], up to the choice of the candidate. *)
Lemma Reassign_eq w prID oldUser pr u :
  repo.GetPR (db w) prID = Ok pr →
  PullRequest.Status pr ≠ "MERGED" →
  oldUser ∈ reviewer_ids (PullRequest.Assigned pr) →
  repo.GetUser (db w) oldUser = Ok u →
  Reassign prID oldUser w =
    if negb (User.IsActive u) then Fail ErrUserInactive w
    else
      let avail := candidate_pool (db w) pr oldUser (User.TeamName u) in
      if bool_decide (length avail = 0) then Fail ErrNoCandidate w
      else (newUID ← pick avail; Reassign_commit prID oldUser newUID) w.
Proof.
  intros Hpr Hst Hold Hu.
  unfold Reassign.
  unfold mbind at 1, M_bind at 1. unfold query at 1. cbn beta iota.
  unfold mbind at 1, M_bind at 1. rewrite Hpr. cbn [or_return].
  unfold mret at 1, M_ret at 1. cbn beta iota.
  unfold mbind at 1, M_bind at 1. rewrite refresh_assigned_eq. cbn beta iota.
  cbn [with_assigned PullRequest.Status PullRequest.Assigned].
  apply String.eqb_neq in Hst. rewrite Hst.
  rewrite <- (refreshed_ids (db w)) in Hold.
  apply existsb_reviewer in Hold. rewrite Hold. cbn [negb].
  unfold mbind at 1, M_bind at 1. unfold query at 1. cbn beta iota.
  unfold mbind at 1, M_bind at 1. rewrite Hu. cbn [or_return].
  unfold mret at 1, M_ret at 1. cbn beta iota.
  destruct (User.IsActive u); cbn [negb]; [|done].
  unfold mbind at 1, M_bind at 1. unfold query at 1. cbn beta iota.
  assert (Ht : repo.GetUserTeam (db w) oldUser = Ok (User.TeamName u)).
  { unfold repo.GetUser in Hu. unfold repo.GetUserTeam.
    destruct (find _ _); [|done]. by injection Hu as ->. }
  unfold mbind at 1, M_bind at 1. rewrite Ht. cbn [or_return].
  unfold mret at 1, M_ret at 1. cbn beta iota.
  unfold mbind at 1, M_bind at 1. unfold query at 1. cbn beta iota.
  unfold mbind at 1, M_bind at 1.
  destruct (repo.GetActiveTeamMembersExcept _ _ _) as [cands|e] eqn:Hc; [|done].
  cbn [or_return]. unfold mret at 1, M_ret at 1. cbn beta iota zeta.
  rewrite (avail_for_reassign_pool _ _ _ _ _ Hc).
  case_bool_decide; [done|].
  unfold pick, mbind, M_bind. by repeat case_match.
Qed.

Lemma Reassign_commit_inv prID oldUser newUID w r w' :
  Reassign_commit prID oldUser newUID w = Return r w' →
  ∃ nu pr2,
    repo.GetUser (db w) newUID = Ok nu ∧ User.IsActive nu = true
    ∧ repo.ReplaceReviewer (db w) prID oldUser newUID = (Ok pr2, db w')
    ∧ r = (with_need_more pr2
             (bool_decide (length (PullRequest.Assigned pr2) < maxReviewers)), newUID).
Proof.
  unfold Reassign_commit. intros H. minv.
  match goal with H : match ?r with _ => _ end _ = Return _ _ |- _ =>
    destruct r as [nu|] eqn:Hnu; [|done];
    destruct (User.IsActive nu) eqn:Hact; [|done]; cbn [negb] in H end.
  minv.
  match goal with H : (repo.ReplaceReviewer ?d ?a ?b ?c).1 = Ok ?p |- _ =>
    destruct (repo.ReplaceReviewer d a b c) as [r2 d2] eqn:Hrep; cbn in H; subst r2 end.
  eexists _, _. repeat split; eauto.
Qed.

Lemma pick_inv avail w c w' :
  pick avail w = Return c w' → c ∈ avail ∧ db w' = db w.
Proof.
  unfold pick. intros H. minv. split; [by eapply list_elem_of_lookup_2|congruence].
Qed.

Lemma Reassign_Return_inv w prID oldUser r w' :
  Reassign prID oldUser w = Return r w' →
  ∃ pr u w1,
    repo.GetPR (db w) prID = Ok pr
    ∧ PullRequest.Status pr ≠ "MERGED"
    ∧ oldUser ∈ reviewer_ids (PullRequest.Assigned pr)
    ∧ repo.GetUser (db w) oldUser = Ok u ∧ User.IsActive u = true
    ∧ r.2 ∈ candidate_pool (db w) pr oldUser (User.TeamName u)
    ∧ db w1 = db w
    ∧ Reassign_commit prID oldUser r.2 w1 = Return r w'.
Proof.
  intros H.
  destruct (repo.GetPR (db w) prID) as [pr|e] eqn:Hpr;
    [|unfold Reassign in H; minv; congruence].
  destruct (String.eqb (PullRequest.Status pr) "MERGED") eqn:Hst.
  { unfold Reassign in H. minv.
    match goal with H : refresh_assigned _ _ = Return _ _ |- _ =>
      rewrite refresh_assigned_eq in H; injection H as <- <- end.
    assert (pr = x1) as <- by congruence.
    cbn [with_assigned PullRequest.Status] in *. by rewrite Hst in *. }
  apply String.eqb_neq in Hst.
  destruct (decide (oldUser ∈ reviewer_ids (PullRequest.Assigned pr))) as [Hold|Hold].
  2:{ unfold Reassign in H. minv.
    match goal with H : refresh_assigned _ _ = Return _ _ |- _ =>
      rewrite refresh_assigned_eq in H; injection H as <- <- end.
    assert (pr = x1) as <- by congruence.
    cbn [with_assigned PullRequest.Status PullRequest.Assigned] in *.
    apply String.eqb_neq in Hst. rewrite Hst in *.
    rewrite <- (refreshed_ids (db w)), <- existsb_reviewer in Hold.
    apply not_true_is_false in Hold. by rewrite Hold in *. }
  destruct (has_user_GetUser (db w) oldUser) as (u & Hu & _);
    [by eapply GetPR_reviewer_is_user|].
  rewrite (Reassign_eq w prID oldUser pr u) in H by done.
  destruct (User.IsActive u) eqn:Hact; [|done]. cbn [negb] in H. cbn zeta in H.
  case_bool_decide; [done|]. minv.
  match goal with H : pick _ _ = Return _ _ |- _ => apply pick_inv in H as [Hin Hdb] end.
  match goal with H : Reassign_commit _ _ _ _ = Return _ _ |- _ =>
    pose proof (Reassign_commit_inv _ _ _ _ _ _ H) as (? & ? & _ & _ & _ & ->) end.
  eexists pr, u, _. cbn [snd]. eauto 10.
Qed.

(** C6: the replacement returned by a successful [Reassign] differs from the
    reviewer it replaces and is not among the reviewers the pull request had
    when the call started. *)
Theorem Reassign_fresh_replacement w prID oldUser pr' newUID w' :
  Reassign prID oldUser w = Return (pr', newUID) w' →
  newUID ≠ oldUser
  ∧ ∀ pr, repo.GetPR (db w) prID = Ok pr →
          newUID ∉ reviewer_ids (PullRequest.Assigned pr).
Proof.
  intros (pr & u & w1 & Hpr & _ & _ & _ & _ & Hin & _)%Reassign_Return_inv.
  cbn [snd] in Hin. unfold candidate_pool in Hin.
  destruct (repo.GetActiveTeamMembersExcept _ _ _); [|by apply elem_of_nil in Hin].
  apply list_elem_of_filter in Hin as [[Hne Hnin] _]. split; [done|].
  intros pr0 Hpr0. assert (pr0 = pr) as -> by congruence. done.
Qed.

(** *** The merge freeze *)

Lemma Reassign_merged w prID oldUser pr :
  repo.GetPR (db w) prID = Ok pr → PullRequest.Status pr = "MERGED" →
  Reassign prID oldUser w = Fail ErrPRMerged w.
Proof.
  intros Hpr Hst. unfold Reassign.
  unfold mbind at 1, M_bind at 1. unfold query at 1. cbn beta iota.
  unfold mbind at 1, M_bind at 1. rewrite Hpr. cbn [or_return].
  unfold mret at 1, M_ret at 1. cbn beta iota.
  unfold mbind at 1, M_bind at 1. rewrite refresh_assigned_eq. cbn beta iota.
  cbn [with_assigned PullRequest.Status]. by rewrite Hst.
Qed.

Lemma cleanup_pr_not_open w teamName prShort pr :
  repo.GetPR (db w) (PullRequestShort.PullRequestID prShort) = Ok pr →
  PullRequest.Status pr ≠ "OPEN" →
  final_db (cleanup_pr teamName prShort w) = Some (db w).
Proof.
  intros Hpr Hst. unfold cleanup_pr, check_ctx, ctx_poll, mbind, M_bind, query, mret, M_ret, fail.
  apply String.eqb_neq in Hst.
  destruct (polls_left (ctx w)) as [[|n]|]; cbn -[String.eqb]; [done| |];
    rewrite Hpr; cbn -[String.eqb]; by rewrite Hst.
Qed.

(** C4: a merged pull request is frozen.  Whatever reviewer is named,
    [Reassign] under a context that is never done fails with [ErrPRMerged]
    before any write and leaves the world as it was, and under no context
    does it return; the cascade of [DeactivateTeam] skips the pull request
    as well, its status not being OPEN, and leaves the database
    untouched. *)
Theorem merge_freeze w prID pr :
  repo.GetPR (db w) prID = Ok pr →
  PullRequest.Status pr = "MERGED" →
  (polls_left (ctx w) = None →
   ∀ oldUser, Reassign prID oldUser w = Fail ErrPRMerged w)
  ∧ (∀ oldUser r w', Reassign prID oldUser w ≠ Return r w')
  ∧ (∀ teamName prShort, PullRequestShort.PullRequestID prShort = prID →
       final_db (cleanup_pr teamName prShort w) = Some (db w)).
Proof.
  intros Hpr Hst. split; [|split].
  - intros _ oldUser. by apply Reassign_merged with pr.
  - intros oldUser r w'. by rewrite (Reassign_merged w prID oldUser pr).
  - intros teamName prShort <-. apply cleanup_pr_not_open with pr; [done|].
    by rewrite Hst.
Qed.

(** *** Failures *)

Lemma Reassign_commit_inactive prID oldUser newUID w :
  (∀ nu, repo.GetUser (db w) newUID = Ok nu → User.IsActive nu = false) →
  Reassign_commit prID oldUser newUID w = Fail ErrNoCandidate w.
Proof.
  intros H. unfold Reassign_commit, mbind, M_bind, query. cbn beta iota.
  destruct (repo.GetUser (db w) newUID) as [nu|e]; [|done].
  by rewrite (H nu).
Qed.

Lemma pick_eq avail w k :
  avail ≠ [] → polls_left (ctx w) ≠ Some 0 → head (draws w) = Some (Some k) →
  ∃ c, avail !! (k mod length avail) = Some c ∧ pick avail w = Return c (after_pick w).
Proof.
  intros Hne Hctx Hd.
  assert (Hlt : k mod length avail < length avail).
  { apply Nat.mod_upper_bound. by destruct avail. }
  destruct (lookup_lt_is_Some_2 _ _ Hlt) as [c Hc]. exists c. split; [done|].
  unfold pick, check_ctx, ctx_poll, cryptoRandInt, index, after_pick,
    mbind, M_bind, mret, M_ret, or_return.
  destruct w as [d [pl ce] dr cl lg]. cbn -[lookup Nat.modulo] in *.
  destruct dr as [|dr0 ds]; [done|]. cbn in Hd. injection Hd as ->.
  rewrite bool_decide_false by (destruct avail; [done|simpl; lia]).
  destruct pl as [[|n]|]; [done| |]; cbn -[lookup Nat.modulo]; by rewrite Hc.
Qed.

(** C5: the failures of [Reassign] on an open pull request whose reviewer
    [oldUser] exists.  Under a context that is never done, an inactive
    [oldUser] gives [ErrUserInactive] and an active one whose team has no
    active member outside the current reviewers gives [ErrNoCandidate];
    both leave the world unchanged.  Otherwise, under a context that is not
    done, one candidate is drawn, and the rest of the call is
    [Reassign_commit] on that candidate alone: if the re-read of the
    candidate finds it inactive or missing, the call fails with
    [ErrNoCandidate] without drawing again, whatever other candidates there
    were. *)
Theorem Reassign_failures w prID oldUser pr u :
  repo.GetPR (db w) prID = Ok pr →
  PullRequest.Status pr ≠ "MERGED" →
  oldUser ∈ reviewer_ids (PullRequest.Assigned pr) →
  repo.GetUser (db w) oldUser = Ok u →
  let pool := candidate_pool (db w) pr oldUser (User.TeamName u) in
  (polls_left (ctx w) = None → User.IsActive u = false →
   Reassign prID oldUser w = Fail ErrUserInactive w)
  ∧ (polls_left (ctx w) = None → User.IsActive u = true → pool = [] →
     Reassign prID oldUser w = Fail ErrNoCandidate w)
  ∧ (User.IsActive u = true → pool ≠ [] → polls_left (ctx w) ≠ Some 0 →
     ∀ k, head (draws w) = Some (Some k) →
     ∃ newUID, pool !! (k mod length pool) = Some newUID
       ∧ Reassign prID oldUser w = Reassign_commit prID oldUser newUID (after_pick w))
  ∧ (∀ w1 newUID,
       (∀ nu, repo.GetUser (db w1) newUID = Ok nu → User.IsActive nu = false) →
       Reassign_commit prID oldUser newUID w1 = Fail ErrNoCandidate w1).
Proof.
  intros Hpr Hst Hold Hu pool.
  pose proof (Reassign_eq w prID oldUser pr u Hpr Hst Hold Hu) as Heq.
  cbn zeta in Heq. fold pool in Heq. repeat split.
  - intros _ Hact. by rewrite Heq, Hact.
  - intros _ Hact Hpool. by rewrite Heq, Hact, Hpool.
  - intros Hact Hpool Hctx k Hk.
    destruct (pick_eq pool w k Hpool Hctx Hk) as (c & Hc & Hpick).
    exists c. split; [done|].
    rewrite Heq, Hact. cbn [negb].
    rewrite bool_decide_false by (by destruct pool).
    unfold mbind, M_bind. by rewrite Hpick.
  - intros w1 newUID. apply Reassign_commit_inactive.
Qed.

(** *** The replacement in storage *)

Lemma ReplaceReviewer_Ok d prID oldUID newUID pr2 d2 :
  oldUID ≠ "" → newUID ≠ "" →
  repo.ReplaceReviewer d prID oldUID newUID = (Ok pr2, d2) →
  users d2 = users d ∧ pull_requests d2 = pull_requests d
  ∧ pr_reviewers d2
    = filter (λ rr, ¬ (rr.1 = prID ∧ rr.2 = oldUID)) (pr_reviewers d) ++ [(prID, newUID)]
  ∧ has_user d newUID = true
  ∧ repo.GetPR d2 prID = Ok pr2.
Proof.
  intros Ho Hn. unfold repo.ReplaceReviewer.
  apply String.eqb_neq in Ho, Hn. rewrite Ho, Hn. cbn [andb].
  destruct (repo.insert_reviewer _ _ _) as [d'|e] eqn:E; [|done].
  apply insert_reviewer_Ok in E as (_ & _ & Hu & ->). cbn in *.
  intros [= Hget <-]. cbn. done.
Qed.

Lemma filter_all {A} (P : A → Prop) `{∀ x, Decision (P x)} (l : list A) :
  (∀ x, x ∈ l → P x) → filter P l = l.
Proof.
  induction l as [|a l IH]; [done|]. intros Hall.
  rewrite filter_cons, decide_True by (apply Hall; by left).
  f_equal. apply IH. intros x ?. apply Hall. by right.
Qed.

Lemma length_filter_remove {A} `{EqDecision A} (l : list A) (x : A) :
  NoDup l → x ∈ l → S (length (filter (λ y, y ≠ x) l)) = length l.
Proof.
  induction l as [|a l IH]; [by intros _ ?%elem_of_nil|].
  rewrite NoDup_cons. intros [Hnin Hnd] Hin. rewrite filter_cons.
  destruct (decide (a = x)) as [->|Hne].
  - rewrite decide_False by (intros Hn; by apply Hn). cbn. f_equal.
    f_equal. apply filter_all. intros y Hy ->. done.
  - rewrite decide_True by done. cbn. f_equal. apply IH; [done|].
    apply elem_of_cons in Hin as [->|?]; done.
Qed.

Lemma filter_rows_remove (l : list (string * string)) prID oldUID :
  filter (λ rr, rr.1 = prID) (filter (λ rr, ¬ (rr.1 = prID ∧ rr.2 = oldUID)) l)
  = filter (λ rr, rr ≠ (prID, oldUID)) (filter (λ rr, rr.1 = prID) l).
Proof.
  induction l as [|[p u] l IH]; [done|].
  destruct (decide (p = prID)) as [->|Hp]; [destruct (decide (u = oldUID)) as [->|Hu]|].
  - rewrite (filter_cons_False (λ rr, ¬ _)) by (intros Hn; by apply Hn).
    rewrite (filter_cons_True (λ rr, rr.1 = prID)) by done.
    rewrite (filter_cons_False (λ rr, rr ≠ _)) by (intros Hn; by apply Hn). done.
  - rewrite (filter_cons_True (λ rr, ¬ _)) by (intros [_ ?]; done).
    rewrite !(filter_cons_True (λ rr, rr.1 = prID)) by done.
    rewrite (filter_cons_True (λ rr, rr ≠ _)) by congruence. by rewrite IH.
  - rewrite (filter_cons_True (λ rr, ¬ _)) by (intros [? _]; done).
    rewrite !(filter_cons_False (λ rr, rr.1 = prID)) by done. done.
Qed.

Lemma reviewer_rows_replace d d2 prID oldUID newUID :
  pr_reviewers d2
    = filter (λ rr, ¬ (rr.1 = prID ∧ rr.2 = oldUID)) (pr_reviewers d) ++ [(prID, newUID)] →
  reviewer_rows d2 prID
    = filter (λ rr, rr ≠ (prID, oldUID)) (reviewer_rows d prID) ++ [(prID, newUID)].
Proof.
  intros Hd2. unfold reviewer_rows. rewrite Hd2, filter_app.
  rewrite (filter_cons _ (prID, newUID)), decide_True by done.
  by rewrite filter_rows_remove.
Qed.

Lemma NoDup_reviewer_rows d prID : NoDup (pr_reviewers d) → NoDup (reviewer_rows d prID).
Proof. apply NoDup_filter. Qed.

Lemma assigned_row d prID pr uid :
  NoDup (User.UserID <$> users d) →
  (∀ rr, rr ∈ pr_reviewers d → has_user d rr.2 = true) →
  repo.GetPR d prID = Ok pr → uid ∈ reviewer_ids (PullRequest.Assigned pr) →
  (prID, uid) ∈ reviewer_rows d prID.
Proof.
  intros Hpk Hfk Hpr Hin.
  assert (Ha : PullRequest.Assigned pr = repo.reviewers_of d prID).
  { unfold repo.GetPR in Hpr. destruct (find _ _); [|done]. by injection Hpr as <-. }
  rewrite Ha, reviewers_of_ids in Hin; [|done|].
  - apply list_elem_of_fmap in Hin as ([p u] & -> & Hrr).
    pose proof Hrr as [Hp _]%list_elem_of_filter. cbn in Hp. by subst.
  - intros rr [_ ?]%list_elem_of_filter. by apply Hfk.
Qed.

Lemma GetPR_Assigned d prID pr :
  repo.GetPR d prID = Ok pr → PullRequest.Assigned pr = repo.reviewers_of d prID.
Proof. unfold repo.GetPR. destruct (find _ _); [|done]. by intros [= <-]. Qed.

(** C10, for non-empty user ids: on a database that satisfies the
    constraints of the schema, a successful [Reassign] of a non-empty
    [oldUser] to a non-empty replacement removes exactly the row of the old
    reviewer and adds exactly the row of the new one, so the pull request
    has as many reviewers after the call as before, and a pull request
    within the bound of two stays within it. *)
Theorem Reassign_keeps_count w prID oldUser pr' newUID w' :
  wf_db (db w) →
  oldUser ≠ "" → newUID ≠ "" →
  Reassign prID oldUser w = Return (pr', newUID) w' →
  pr_reviewers (db w')
    = filter (λ rr, ¬ (rr.1 = prID ∧ rr.2 = oldUser)) (pr_reviewers (db w))
      ++ [(prID, newUID)]
  ∧ ∀ pr, repo.GetPR (db w) prID = Ok pr →
      length (PullRequest.Assigned pr') = length (PullRequest.Assigned pr)
      ∧ (length (PullRequest.Assigned pr) ≤ maxReviewers →
         length (PullRequest.Assigned pr') ≤ maxReviewers).
Proof.
  intros Hwf Ho Hn (pr & u & w1 & Hpr & _ & Hold & _ & _ & _ & Hdb & Hc)%Reassign_Return_inv.
  cbn [snd] in *.
  apply Reassign_commit_inv in Hc as (nu & pr2 & _ & _ & Hrep & [= -> ]).
  rewrite Hdb in Hrep.
  apply ReplaceReviewer_Ok in Hrep as (Hus & Hps & Hrs & Hnew & Hget2); [|done..].
  split; [done|]. intros pr0 Hpr0. assert (pr0 = pr) as -> by congruence.
  assert (Hlen : length (PullRequest.Assigned
                    (with_need_more pr2
                       (bool_decide (length (PullRequest.Assigned pr2) < maxReviewers))))
                 = length (PullRequest.Assigned pr)); [|by rewrite Hlen].
  cbn [with_need_more PullRequest.Assigned].
  rewrite (GetPR_Assigned _ _ _ Hget2), (GetPR_Assigned _ _ _ Hpr).
  rewrite !reviewers_of_length.
  - rewrite (reviewer_rows_replace _ _ _ _ _ Hrs), length_app. cbn.
    rewrite Nat.add_1_r. apply length_filter_remove.
    + apply NoDup_reviewer_rows, Hwf.
    + eapply assigned_row; [apply Hwf|apply Hwf|done..].
  - apply Hwf.
  - intros rr [_ ?]%list_elem_of_filter. by apply Hwf.
  - rewrite Hus. apply Hwf.
  - rewrite (reviewer_rows_replace _ _ _ _ _ Hrs).
    intros rr [[_ Hrr]%list_elem_of_filter| ->%list_elem_of_singleton]%elem_of_app.
    + apply list_elem_of_filter in Hrr as [_ Hrr].
      unfold has_user. rewrite Hus. by apply Hwf.
    + unfold has_user. rewrite Hus. done.
Qed.

(** ** DeactivateTeam *)

Lemma add_log_nil w : add_log w [] = w.
Proof. destruct w. unfold add_log. cbn. by rewrite app_nil_r. Qed.

Lemma add_log_app w es1 es2 : add_log (add_log w es1) es2 = add_log w (es1 ++ es2).
Proof. unfold add_log. cbn. by rewrite app_assoc. Qed.

Lemma Log_eq l m kvs w : Log l m kvs w = Return () (add_log w [mkLog l m kvs]).
Proof. done. Qed.

(** A loop whose body only writes to the log. *)
Lemma for_range_log {A S} (P : World → Prop) (body : S → A → M S) (g : A → list LogEntry)
    (l : list A) (s : S) (w : World) :
  (∀ w es, P w → P (add_log w es)) →
  (∀ s x w, x ∈ l → P w → body s x w = Return s (add_log w (g x))) →
  P w →
  for_range l s body w = Return s (add_log w (l ≫= g)).
Proof.
  intros HP Hbody. revert w. induction l as [|x l IH]; intros w Hw; cbn.
  - by rewrite add_log_nil.
  - unfold mbind at 1, M_bind at 1. rewrite Hbody by (done || by left).
    rewrite IH.
    + by rewrite add_log_app.
    + intros s' y w' Hy. apply Hbody. by right.
    + by apply HP.
Qed.

(** After the flip the team has no active member. *)
Lemma deactivated_no_active d teamName except :
  repo.GetActiveTeamMembersExcept (deactivated d teamName) teamName except = Ok [].
Proof.
  unfold repo.GetActiveTeamMembersExcept, deactivated, repo.set_active. cbn [users].
  f_equal.
  assert (Hf : filter (λ u, String.eqb (User.TeamName u) teamName && User.IsActive u
                          && (String.eqb except ""
                              || negb (String.eqb (User.UserID u) except)))
                 ((λ u, if repo.by_team teamName u
                        then User.mk (User.UserID u) (User.Username u)
                               (User.TeamName u) false
                        else u) <$> users d) = []).
  { apply filter_none. intros u (u0 & -> & _)%list_elem_of_fmap Hu.
    apply Is_true_true in Hu. unfold repo.by_team in Hu.
    destruct (String.eqb (User.TeamName u0) teamName) eqn:E; cbn in Hu.
    - by rewrite E in Hu.
    - by rewrite E in Hu. }
  rewrite Hf. done.
Qed.

Lemma reassignReviewer_no_candidate w prID oldUID teamName :
  repo.GetActiveTeamMembersExcept (db w) teamName "" = Ok [] →
  ∃ e, reassignReviewer prID oldUID teamName w = Fail e w.
Proof.
  intros Hc. unfold reassignReviewer, mbind, M_bind, query, or_return, mret, M_ret, fail.
  rewrite Hc. cbn beta iota.
  destruct (repo.GetPR (db w) prID) as [pr|e]; cbn; eauto.
Qed.

Lemma cascade_world_add_log d w es : cascade_world d w → cascade_world d (add_log w es).
Proof. by intros [? ?]. Qed.

Lemma check_ctx_live w : polls_left (ctx w) = None → check_ctx w = Return () w.
Proof. intros H. unfold check_ctx, ctx_poll, mbind, M_bind. by rewrite H. Qed.

Lemma replace_if_inactive_eq d teamName pr updated rev w :
  repo.GetActiveTeamMembersExcept d teamName "" = Ok [] →
  cascade_world d w →
  replace_if_inactive pr teamName updated rev w
  = Return updated (add_log w (reviewer_log d pr rev)).
Proof.
  intros Hc [Hd _]. unfold replace_if_inactive, reviewer_log.
  unfold mbind at 1, M_bind at 1. unfold query at 1. cbn beta iota zeta. rewrite Hd.
  destruct (repo.GetUser d _) as [user|e].
  - destruct (User.IsActive user); cbn [negb].
    + by rewrite add_log_nil.
    + unfold mbind at 1, M_bind at 1, try.
      destruct (reassignReviewer_no_candidate w (PullRequest.PullRequestID pr)
                  (PRReviewer.UserID rev) teamName) as [e He]; [by rewrite Hd|].
      rewrite He. unfold mbind, M_bind. by rewrite Log_eq.
  - unfold mbind, M_bind. by rewrite Log_eq.
Qed.

Lemma cleanup_pr_eq d teamName prShort w :
  repo.GetActiveTeamMembersExcept d teamName "" = Ok [] →
  cascade_world d w →
  cleanup_pr teamName prShort w = Return () (add_log w (pr_log d prShort)).
Proof.
  intros Hc Hw. pose proof Hw as [Hd Hctx]. unfold cleanup_pr, pr_log.
  unfold mbind at 1, M_bind at 1. rewrite check_ctx_live by done.
  unfold mbind at 1, M_bind at 1. unfold query at 1. cbn beta iota. rewrite Hd.
  destruct (repo.GetPR d _) as [pr|e]; [|by rewrite Log_eq].
  destruct (String.eqb (PullRequest.Status pr) "OPEN"); cbn [negb].
  - unfold mbind, M_bind.
    rewrite (for_range_log (cascade_world d) _ (reviewer_log d pr)).
    + done.
    + intros. by apply cascade_world_add_log.
    + intros s x w' _ Hw'. by apply replace_if_inactive_eq.
    + done.
  - by rewrite add_log_nil.
Qed.

Lemma cleanup_member_eq d teamName member w :
  repo.GetActiveTeamMembersExcept d teamName "" = Ok [] →
  cascade_world d w →
  cleanup_member teamName member w = Return () (add_log w (member_log d member)).
Proof.
  intros Hc Hw. pose proof Hw as [Hd Hctx]. unfold cleanup_member, member_log.
  unfold mbind at 1, M_bind at 1. rewrite check_ctx_live by done.
  unfold mbind at 1, M_bind at 1. unfold query at 1. cbn beta iota. rewrite Hd.
  destruct (repo.GetPRsByReviewer d _) as [prs|e]; [|by rewrite Log_eq].
  rewrite (for_range_log (cascade_world d) _ (pr_log d)).
  - done.
  - intros. by apply cascade_world_add_log.
  - intros [] x w' _ Hw'. by apply cleanup_pr_eq.
  - done.
Qed.

Lemma GetTeam_has_member d teamName team :
  repo.GetTeam d teamName = Ok team →
  existsb (repo.by_team teamName) (users d) = true
  ∧ team = Team.mk teamName
      (order_by TeamMember.UserID
         ((λ u, TeamMember.mk (User.UserID u) (User.Username u) (User.IsActive u))
            <$> filter (λ u, User.TeamName u = teamName) (users d))).
Proof.
  unfold repo.GetTeam.
  destruct (order_by _ _) as [|m ms] eqn:E; [done|]. intros [= <-]. split; [|done].
  assert (Hm : m ∈ order_by TeamMember.UserID
                 ((λ u, TeamMember.mk (User.UserID u) (User.Username u) (User.IsActive u))
                    <$> filter (λ u, User.TeamName u = teamName) (users d)))
    by (rewrite E; by left).
  rewrite order_by_perm in Hm.
  apply list_elem_of_fmap in Hm as (u & _ & [Hu Hin]%list_elem_of_filter).
  apply existsb_exists. exists u. split; [by apply list_elem_of_In|].
  by apply String.eqb_eq.
Qed.

Lemma GetTeam_eq w name team :
  name ≠ "" → repo.GetTeam (db w) name = Ok team → GetTeam name w = Return team w.
Proof.
  intros Hname Hteam. unfold GetTeam, validated, validateTeamName.
  apply String.eqb_neq in Hname. rewrite Hname.
  unfold mbind, M_bind, query, mret, M_ret. cbn beta iota. by rewrite Hteam.
Qed.

(** The run of [DeactivateTeam] when the context stays live. *)
Theorem DeactivateTeam_eq w teamName team :
  polls_left (ctx w) = None →
  teamName ≠ "" →
  repo.GetTeam (db w) teamName = Ok team →
  let d' := deactivated (db w) teamName in
  DeactivateTeam teamName w
  = Return ()
      (add_log (set_db d' w)
         ((Team.Members team ≫= member_log d')
          ++ [mkLog SUCCESS "team deactivated" [AnyString "team"; AnyString teamName]])).
Proof.
  intros Hctx Hname Hteam d'.
  pose proof (GetTeam_has_member _ _ _ Hteam) as [Hex _].
  unfold DeactivateTeam.
  rewrite (bind_Return _ _ _ _ _ (GetTeam_eq _ _ _ Hname Hteam)).
  assert (Hexec : exec (λ d, repo.SetTeamActive d teamName false) w
                  = Return (Ok ()) (set_db d' w)).
  { unfold exec, repo.SetTeamActive. by rewrite Hex. }
  rewrite (bind_Return _ _ _ _ _ Hexec).
  assert (Hloop : for_range (Team.Members team) () (λ _, cleanup_member teamName) (set_db d' w)
                  = Return () (add_log (set_db d' w) (Team.Members team ≫= member_log d'))).
  { apply (for_range_log (cascade_world d')).
    - intros. by apply cascade_world_add_log.
    - intros [] x w' _ Hw'. apply cleanup_member_eq; [|done]. apply deactivated_no_active.
    - done. }
  cbn [or_return].
  unfold mbind at 1, M_bind at 1. unfold mret at 1, M_ret at 1. cbn beta iota.
  rewrite (bind_Return _ _ _ _ _ Hloop).
  by rewrite Log_eq, add_log_app.
Qed.

(** *** What the flip preserves *)

Lemma deactivated_users d teamName :
  users (deactivated d teamName) = flip_user teamName <$> users d.
Proof. done. Qed.

Lemma flip_user_id teamName u : User.UserID (flip_user teamName u) = User.UserID u.
Proof. unfold flip_user. by destruct (repo.by_team _ _). Qed.

Lemma deactivated_user_ids d teamName :
  User.UserID <$> users (deactivated d teamName) = User.UserID <$> users d.
Proof.
  rewrite deactivated_users, <- list_fmap_compose.
  apply list_fmap_ext. intros i u _. apply flip_user_id.
Qed.

Lemma has_user_ids d uid : has_user d uid = true ↔ uid ∈ User.UserID <$> users d.
Proof.
  rewrite has_user_elem, list_elem_of_fmap. split.
  - intros (u & ? & <-). by exists u.
  - intros (u & -> & ?). by exists u.
Qed.

Lemma deactivated_has_user d teamName uid :
  has_user (deactivated d teamName) uid = true ↔ has_user d uid = true.
Proof. by rewrite !has_user_ids, deactivated_user_ids. Qed.

Lemma deactivated_GetUser d teamName uid u :
  repo.GetUser d uid = Ok u →
  repo.GetUser (deactivated d teamName) uid = Ok (flip_user teamName u).
Proof.
  unfold repo.GetUser. rewrite deactivated_users, find_fmap_same.
  - destruct (find _ _); [|done]. by intros [= ->].
  - intros x. unfold repo.by_user. by rewrite flip_user_id.
Qed.

Lemma deactivated_GetPR d teamName prID pr :
  repo.GetPR d prID = Ok pr →
  repo.GetPR (deactivated d teamName) prID
  = Ok (with_assigned pr (repo.reviewers_of (deactivated d teamName) prID)).
Proof.
  unfold repo.GetPR. cbn [deactivated repo.set_active pull_requests].
  destruct (find _ _); [|done]. by intros [= <-].
Qed.

Lemma deactivated_reviewer_ids d teamName prID :
  wf_db d →
  reviewer_ids (repo.reviewers_of (deactivated d teamName) prID)
  ≡ₚ reviewer_ids (repo.reviewers_of d prID).
Proof.
  intros Hwf. rewrite !reviewers_of_ids.
  - done.
  - apply Hwf.
  - intros rr [_ ?]%list_elem_of_filter. by apply Hwf.
  - rewrite deactivated_user_ids. apply Hwf.
  - intros rr [_ ?]%list_elem_of_filter. apply deactivated_has_user. by apply Hwf.
Qed.

Lemma GetPR_row d prID pr :
  repo.GetPR d prID = Ok pr →
  ∃ p, p ∈ pull_requests d ∧ pull_request_id p = prID
       ∧ PullRequest.PullRequestID pr = prID ∧ PullRequest.Status pr = status p
       ∧ PullRequest.NeedMoreReviewers pr = need_more_reviewers p.
Proof.
  unfold repo.GetPR. destruct (find _ _) as [p|] eqn:E; [|done]. intros [= <-].
  apply find_Some_elem in E as [Hin He]. apply String.eqb_eq in He.
  exists p. cbn. done.
Qed.

Lemma GetPRsByReviewer_elem d uid p :
  p ∈ pull_requests d → (pull_request_id p, uid) ∈ pr_reviewers d →
  ∃ prs short, repo.GetPRsByReviewer d uid = Ok prs ∧ short ∈ prs
    ∧ PullRequestShort.PullRequestID short = pull_request_id p.
Proof.
  intros Hp Hrr. eexists _, _. split; [reflexivity|]. split.
  - apply list_elem_of_fmap_2. rewrite order_by_desc_perm.
    apply list_elem_of_bind. exists p. split; [|done].
    apply list_elem_of_fmap. exists (pull_request_id p, uid). split; [done|].
    by apply list_elem_of_filter.
  - done.
Qed.

(** C7: the code departs from the specification, which lets a sole
    reviewer that becomes inactive either be replaced or be removed with
    [needsMoreReviewers] set.  Let an open pull request have a member [r] of
    the team as its sole reviewer, on a database that satisfies the
    constraints of the schema and under a context that is never done.  Then
    [DeactivateTeam] returns without an error; the replacement of [r] is
    attempted and fails, which is logged at level WARN and skipped; [r],
    now inactive, is still the sole reviewer of the pull request, no row of
    [pr_reviewers] has changed and the stored [NeedMoreReviewers] is the one
    of before.  The reviewer is neither replaced nor removed. *)
Theorem DeactivateTeam_sole_reviewer w teamName team prID pr r u :
  wf_db (db w) →
  polls_left (ctx w) = None →
  teamName ≠ "" →
  repo.GetTeam (db w) teamName = Ok team →
  repo.GetPR (db w) prID = Ok pr →
  PullRequest.Status pr = "OPEN" →
  reviewer_ids (PullRequest.Assigned pr) = [r] →
  repo.GetUser (db w) r = Ok u →
  User.TeamName u = teamName →
  ∃ w' pr' u',
    DeactivateTeam teamName w = Return () w'
    ∧ mkLog WARN "no replacement found for inactive reviewer"
        [AnyString "pr"; AnyString prID; AnyString "user"; AnyString r] ∈ log w'
    ∧ repo.GetPR (db w') prID = Ok pr'
    ∧ reviewer_ids (PullRequest.Assigned pr') = [r]
    ∧ PullRequest.NeedMoreReviewers pr' = PullRequest.NeedMoreReviewers pr
    ∧ repo.GetUser (db w') r = Ok u' ∧ User.IsActive u' = false
    ∧ pr_reviewers (db w') = pr_reviewers (db w).
Proof.
  intros Hwf Hctx Hname Hteam Hpr Hopen Hsole Hu Hut.
  set (d' := deactivated (db w) teamName).
  pose proof (deactivated_GetPR _ teamName _ _ Hpr) as Hpr'. fold d' in Hpr'.
  pose proof (deactivated_GetUser _ teamName _ _ Hu) as Hu'. fold d' in Hu'.
  assert (Hids : reviewer_ids (repo.reviewers_of d' prID) = [r]).
  { apply Permutation_singleton_r. rewrite <- Hsole, (GetPR_Assigned _ _ _ Hpr).
    by apply deactivated_reviewer_ids. }
  assert (Hflip : User.IsActive (flip_user teamName u) = false).
  { unfold flip_user, repo.by_team. apply String.eqb_eq in Hut. by rewrite Hut. }
  eexists _, _, _. split; [by apply DeactivateTeam_eq|].
  cbn [add_log set_db db log].
  split; [|split; [exact Hpr'|split; [exact Hids|split; [done|split; [exact Hu'|done]]]]].
  apply elem_of_app. right. apply elem_of_app. left.
  (* the member, the pull request, the reviewer *)
  apply GetUser_Ok in Hu as [Hid Huin].
  destruct (GetPR_row _ _ _ Hpr) as (p & Hp & Hpid & Hprid & _).
  assert (Hrow : (pull_request_id p, r) ∈ pr_reviewers d').
  { rewrite Hpid. change (pr_reviewers d') with (pr_reviewers (db w)).
    eapply list_elem_of_filter, (assigned_row (db w)) with (pr := pr);
      [apply Hwf|apply Hwf|done|]. rewrite Hsole. by left. }
  destruct (GetPRsByReviewer_elem d' r p Hp Hrow) as (prs & short & Hprs & Hshort & Hsid).
  apply list_elem_of_bind.
  exists (TeamMember.mk (User.UserID u) (User.Username u) (User.IsActive u)). split.
  - unfold member_log. cbn [TeamMember.UserID]. fold d'. rewrite Hid, Hprs.
    apply list_elem_of_bind. exists short. split; [|done].
    unfold pr_log. rewrite Hsid, Hpid, Hpr'.
    cbn [with_assigned PullRequest.Status PullRequest.Assigned]. rewrite Hopen.
    change (negb (String.eqb "OPEN" "OPEN")) with false. cbn beta iota.
    unfold reviewer_ids in Hids.
    destruct (repo.reviewers_of d' prID) as [|rev [|]]; [done| |done].
    injection Hids as Hrid. rewrite bind_cons. apply elem_of_app. left.
    unfold reviewer_log. cbn [with_assigned PullRequest.PullRequestID].
    rewrite Hrid, Hu', Hflip, Hprid. cbn [negb]. by left.
  - apply GetTeam_has_member in Hteam as [_ ->]. cbn [Team.Members].
    rewrite order_by_perm. apply list_elem_of_fmap. exists u. split; [done|].
    by apply list_elem_of_filter.
Qed.

(** *** The pool of the replacement *)

Lemma reassignReviewer_inv w prID oldUID teamName newUID w' :
  reassignReviewer prID oldUID teamName w = Return newUID w' →
  newUID ∈ replacement_pool (db w) prID teamName
  ∧ db w' = (repo.ReplaceReviewer (db w) prID oldUID newUID).2.
Proof.
  unfold reassignReviewer, replacement_pool. intros H. minv.
  match goal with H : repo.GetActiveTeamMembersExcept _ _ _ = Ok _ |- _ => rewrite H end.
  match goal with H : repo.GetPR _ _ = Ok _ |- _ => rewrite H end.
  match goal with H : (if bool_decide _ then _ else _) _ = Return _ _ |- _ =>
    case_bool_decide; [done|]; minv end.
  match goal with H : pick _ _ = Return _ _ |- _ => apply pick_inv in H as [Hin Hdb] end.
  split; [done|]. cbn. by rewrite Hdb.
Qed.

Lemma bind_Fail_inv {A B} (m : M A) (k : A → M B) w e w2 :
  (m ≫= k) w = Fail e w2 →
  m w = Fail e w2 ∨ ∃ a w1, m w = Return a w1 ∧ k a w1 = Fail e w2.
Proof. unfold mbind, M_bind. destruct (m w); naive_solver. Qed.

Lemma or_return_mret_Fail_inv {A} (r : result A) w e w2 :
  or_return mret r w = Fail e w2 → r = Err e ∧ w2 = w.
Proof. destruct r; [done|]. by intros [= -> ->]. Qed.

Lemma GetPR_Ok_has_pr d prID pr : repo.GetPR d prID = Ok pr → has_pr d prID = true.
Proof.
  intros (p & Hin & Hid & _)%GetPR_row. apply has_pr_elem. eauto.
Qed.

Lemma ReplaceReviewer_Err d prID oldUID newUID e d2 :
  has_pr d prID = true →
  repo.ReplaceReviewer d prID oldUID newUID = (Err e, d2) → d2 = d.
Proof.
  intros Hpr. unfold repo.ReplaceReviewer.
  set (d1 := if String.eqb oldUID "" then d else repo.delete_reviewer d prID oldUID).
  assert (H1 : pull_requests d1 = pull_requests d) by (unfold d1; by destruct (String.eqb _ _)).
  destruct (if String.eqb newUID "" then Ok d1 else repo.insert_reviewer d1 prID newUID)
    as [d3|e'] eqn:E; [|by intros [= _ <-]].
  assert (H3 : pull_requests d3 = pull_requests d).
  { destruct (String.eqb newUID ""); [by injection E as <-|].
    apply insert_reviewer_Ok in E as (_ & _ & _ & ->). done. }
  destruct (_ && _); [by intros [= _ <-]|].
  intros [= Hget <-]. apply GetPR_Err in Hget.
  unfold has_pr in *. rewrite H3 in Hget. congruence.
Qed.

Lemma pick_Fail_db avail w e w2 : pick avail w = Fail e w2 → db w2 = db w.
Proof.
  unfold pick, check_ctx, ctx_poll, cryptoRandInt, index, or_return, mbind, M_bind,
    mret, M_ret, fail.
  intros H. repeat case_match; simplify_eq; done.
Qed.

Lemma reassignReviewer_Fail_db w prID oldUID teamName e w2 :
  reassignReviewer prID oldUID teamName w = Fail e w2 → db w2 = db w.
Proof.
  unfold reassignReviewer. intros H.
  apply bind_Fail_inv in H as [H|(r1 & wa & Ha & H)]; [done|]. minv.
  apply bind_Fail_inv in H as [H|(cands & wb & Hb & H)];
    [by apply or_return_mret_Fail_inv in H as [_ ->]|]. minv.
  apply bind_Fail_inv in H as [H|(r2 & wc & Hc & H)]; [done|]. minv.
  apply bind_Fail_inv in H as [H|(pr & wd & Hd & H)];
    [by apply or_return_mret_Fail_inv in H as [_ ->]|]. minv.
  case_bool_decide; [by injection H as _ <-|].
  apply bind_Fail_inv in H as [H|(newUID & we & He & H)]; [by apply pick_Fail_db in H|].
  apply pick_inv in He as [_ Hdb].
  apply bind_Fail_inv in H as [H|(r3 & wf & Hf & H)]; [done|]. minv.
  apply bind_Fail_inv in H as [H|(? & ? & ? & H)]; [|done].
  apply or_return_mret_Fail_inv in H as [Hr ->]. cbn.
  destruct (repo.ReplaceReviewer _ _ _ _) as [r d2] eqn:Hrep. cbn in *. subst r.
  apply ReplaceReviewer_Err in Hrep; [congruence|].
  rewrite Hdb. by eapply GetPR_Ok_has_pr.
Qed.

Lemma active_member_elem d teamName except c l :
  repo.GetActiveTeamMembersExcept d teamName except = Ok l → c ∈ l →
  ∃ u, u ∈ users d ∧ User.UserID u = c ∧ User.TeamName u = teamName
       ∧ User.IsActive u = true.
Proof.
  intros [= <-]. rewrite order_by_perm.
  intros (u & -> & [Hf Hin]%list_elem_of_filter)%list_elem_of_fmap.
  apply Is_true_true in Hf. apply andb_prop in Hf as [Hf _].
  apply andb_prop in Hf as [Ht Ha]. apply String.eqb_eq in Ht. eauto.
Qed.

(** The step of the cascade for one reviewer, for any team name it is
    given: it either leaves the database as it is or replaces the reviewer
    by a member of [replacement_pool], the pool of that team.  Every member
    of the pool is an active user of [teamName] who does not review the pull
    request; the team of the author of the pull request plays no part.  Once
    the members of [teamName] are inactive the pool is empty. *)
Theorem replacement_pool_source w pr teamName updated rev b w' :
  replace_if_inactive pr teamName updated rev w = Return b w' →
  (db w' = db w
   ∨ (∃ newUID,
       newUID ∈ replacement_pool (db w) (PullRequest.PullRequestID pr) teamName
       ∧ db w' = (repo.ReplaceReviewer (db w) (PullRequest.PullRequestID pr)
                    (PRReviewer.UserID rev) newUID).2))
  ∧ (∀ c, c ∈ replacement_pool (db w) (PullRequest.PullRequestID pr) teamName →
       (c ∉ reviewer_ids (repo.reviewers_of (db w) (PullRequest.PullRequestID pr)))
       ∧ ∃ u, u ∈ users (db w) ∧ User.UserID u = c
              ∧ User.TeamName u = teamName ∧ User.IsActive u = true)
  ∧ replacement_pool (deactivated (db w) teamName) (PullRequest.PullRequestID pr) teamName
    = [].
Proof.
  intros H. split; [|split].
  - unfold replace_if_inactive in H. minv.
    match goal with H : match ?r with _ => _ end _ = Return _ _ |- _ =>
      destruct r as [user|e] end.
    + destruct (User.IsActive user); cbn [negb] in *; [minv; by left|]. minv.
      match goal with H : try ?m ?w = Return ?r ?w1 |- _ =>
        unfold try in H; destruct (m w) as [newUID w2|e w2| |] eqn:Hre; [| |done..];
        injection H as <- <- end.
      * apply reassignReviewer_inv in Hre as [Hin Hdb].
        minv. match goal with H : Log _ _ _ _ = Return _ _ |- _ =>
          apply Log_inv in H as (Hd & _) end.
        right. exists newUID. split; [done|]. congruence.
      * apply reassignReviewer_Fail_db in Hre. minv.
        match goal with H : Log _ _ _ _ = Return _ _ |- _ =>
          apply Log_inv in H as (Hd & _) end.
        left. congruence.
    + minv. match goal with H : Log _ _ _ _ = Return _ _ |- _ =>
          apply Log_inv in H as (Hd & _) end. by left.
  - intros c. unfold replacement_pool.
    destruct (repo.GetActiveTeamMembersExcept _ _ _) as [cands|] eqn:Hc;
      [|by intros ?%elem_of_nil].
    destruct (repo.GetPR _ _) as [pr0|] eqn:Hp; [|by intros ?%elem_of_nil].
    intros [Hnin Hin]%list_elem_of_filter. split.
    + unfold assignedSet in Hnin. rewrite elem_of_list_to_set in Hnin.
      by rewrite <- (GetPR_Assigned _ _ _ Hp).
    + by eapply active_member_elem.
  - unfold replacement_pool. rewrite deactivated_no_active.
    by destruct (repo.GetPR _ _).
Qed.

(** C2: the code departs from the specification, which draws the pool of
    the replacement from the team of the author of the pull request.
    [DeactivateTeam] hands [teamName], the team it has just deactivated, to
    [reassignReviewer], and the active members of that team make the pool.
    So in every run under a context that is never done the database ends as
    the flip of the activity flags left it: for every pull request the pool
    is empty and [reassignReviewer], called as the cascade calls it, fails
    with [ErrNoCandidate]; nobody is replaced, whatever the team of the
    author has to offer. *)
Theorem DeactivateTeam_pool_source w teamName team :
  polls_left (ctx w) = None →
  teamName ≠ "" →
  repo.GetTeam (db w) teamName = Ok team →
  ∃ w', DeactivateTeam teamName w = Return () w'
    ∧ db w' = deactivated (db w) teamName
    ∧ ∀ prID pr, repo.GetPR (db w') prID = Ok pr →
        replacement_pool (db w') prID teamName = []
        ∧ ∀ oldUID, reassignReviewer prID oldUID teamName w' = Fail ErrNoCandidate w'.
Proof.
  intros Hctx Hname Hteam.
  pose proof (DeactivateTeam_eq w teamName team Hctx Hname Hteam) as Hrun.
  cbn zeta in Hrun.
  match type of Hrun with _ = Return () ?x => set (w' := x) in * end.
  assert (Hdb : db w' = deactivated (db w) teamName) by reflexivity.
  exists w'. split; [exact Hrun|]. split; [exact Hdb|].
  intros prID pr Hpr.
  assert (Hnone : repo.GetActiveTeamMembersExcept (db w') teamName "" = Ok [])
    by (rewrite Hdb; apply deactivated_no_active).
  split.
  - unfold replacement_pool. by rewrite Hnone, Hpr.
  - intros oldUID.
    unfold reassignReviewer, mbind, M_bind, query, or_return, mret, M_ret, fail.
    by rewrite Hnone, Hpr.
Qed.

(** ** handleJob *)

Lemma ctx_poll_live w :
  polls_left (ctx w) ≠ Some 0 → ctx_poll w = Return None (after_poll w).
Proof.
  unfold ctx_poll, after_poll. destruct w as [d [[[|n]|] e] dr c l]; cbn; done.
Qed.

Lemma ctx_poll_done w :
  polls_left (ctx w) = Some 0 → ctx_poll w = Return (Some (ctx_err (ctx w))) w.
Proof. unfold ctx_poll. by intros ->. Qed.

Lemma as_string_None v : has_dyn DString v = false → as_string v = None.
Proof. by destruct v as [[]|]. Qed.

Lemma as_bool_None v : has_dyn DBool v = false → as_bool v = None.
Proof. by destruct v as [[]|]. Qed.

Lemma as_PullRequest_None v : has_dyn DPullRequest v = false → as_PullRequest v = None.
Proof. by destruct v as [[]|]. Qed.

(** C9, as the code has it: let the type of the job be one of the known
    kinds and let its payload lack a required parameter or carry it with
    the wrong dynamic type.  If the context of the job is not done,
    [handleJob] returns the result tagged [ErrUnknownJobType], with no data
    and no log fields; if the context is done it returns the error of the
    context instead.  In both cases it returns: no panic. *)
Theorem handleJob_malformed job w reqs :
  required (Type_ job) = Some reqs →
  malformed job reqs →
  (polls_left (ctx w) ≠ Some 0 →
   handleJob job w = Return unknown_result (after_poll w))
  ∧ (polls_left (ctx w) = Some 0 →
     handleJob job w = Return (mkJobResult AnyNil (Some (ctx_err (ctx w))), []) w).
Proof.
  intros Hreq (k & ty & Hin & Hbad). split.
  - intros Hlive. unfold handleJob.
    rewrite (bind_Return _ _ _ _ _ (ctx_poll_live w Hlive)). cbn zeta.
    unfold required in Hreq.
    repeat match type of Hreq with
    | (if String.eqb ?a ?b then _ else _) = _ =>
        destruct (String.eqb a b) eqn:?
    end; [..|done]; injection Hreq as <-;
    repeat match goal with
    | H : _ ∈ _ :: _ |- _ => apply elem_of_cons in H as [[= -> ->]|H]
    | H : _ ∈ [] |- _ => by apply elem_of_nil in H
    end;
    first [ rewrite (as_string_None _ Hbad)
          | rewrite (as_bool_None _ Hbad)
          | rewrite (as_PullRequest_None _ Hbad) ];
    try done; by destruct (as_string _).
  - intros Hdone. unfold handleJob.
    by rewrite (bind_Return _ _ _ _ _ (ctx_poll_done w Hdone)).
Qed.

(** ** EnqueueJob *)

Lemma try_send_Ready {A} (c : chan A) (v : A) :
  can_receive c →
  ∃ c', try_send c v = Ready c' ∧ delivered c' ≡ₚ v :: delivered c
        ∧ cap c' = cap c ∧ closed c' = false.
Proof.
  intros [Hopen Hroom]. unfold try_send. rewrite Hopen.
  case_bool_decide as Hr.
  - eexists. split; [done|]. unfold delivered. cbn. split; [|done].
    rewrite <- app_assoc. cbn. by rewrite Permutation_middle.
  - destruct Hroom as [?|Hroom]; [done|]. rewrite bool_decide_true by done.
    eexists. split; [done|]. unfold delivered. cbn. split; [|done].
    rewrite app_assoc. by rewrite <- Permutation_cons_append.
Qed.

Lemma try_send_NotReady {A} (c : chan A) (v : A) :
  closed c = false → ¬ can_receive c → try_send c v = NotReady.
Proof.
  intros Hopen Hn. unfold try_send. rewrite Hopen.
  rewrite !bool_decide_false; [done|..]; intros ?; apply Hn; split; auto.
Qed.

Lemma reply_rejected s job res : rejected s job res (reply s job res).
Proof.
  unfold rejected, reply. fold (reply_chan s job).
  destruct (reply_chan s job) as [[ch c]|]; [|done]. split.
  - intros Hc. destruct (try_send_Ready c res Hc) as (c' & Hs & Hd & Hcap & Hcl).
    exists c'. unfold select_send. by rewrite Hs.
  - intros Hopen Hn. unfold select_send. by rewrite try_send_NotReady.
Qed.

Lemma reply_not_Block s job res : reply s job res ≠ Block.
Proof.
  unfold reply. destruct (_ ≫= _) as [[ch c]|]; [|done].
  unfold select_send. by destruct (try_send c res).
Qed.

(** C8: [EnqueueJob] never blocks.  After [StopWorkers] the job is answered
    with [Canceled]: the result is delivered if the reply channel of the
    caller can take it and dropped otherwise, and the queue is left as it
    was.  While the service runs and the queue is full, the job is answered
    with [ErrJobQueueFull] in the same way, after a warning is logged, and
    the queue is left as it was. *)
Theorem EnqueueJob_never_blocks s job :
  EnqueueJob s job ≠ Block
  ∧ (stopped s = true →
     rejected s job (mkJobResult AnyNil (Some Canceled)) (EnqueueJob s job)
     ∧ ∀ s', EnqueueJob s job = Proceed s' → jobs s' = jobs s)
  ∧ (stopped s = false → queue_full (jobs s) →
     rejected (with_warning s job) job (mkJobResult AnyNil (Some ErrJobQueueFull))
       (EnqueueJob s job)
     ∧ ∀ s', EnqueueJob s job = Proceed s' → jobs s' = jobs s).
Proof.
  split; [|split].
  - unfold EnqueueJob. destruct (stopped s); [apply reply_not_Block|].
    unfold select_send. destruct (try_send (jobs s) job); [done| |done].
    apply reply_not_Block.
  - intros Hs. unfold EnqueueJob. rewrite Hs. split; [apply reply_rejected|].
    intros s'. unfold reply. destruct (_ ≫= _) as [[ch c]|]; [|by intros [= <-]].
    unfold select_send. destruct (try_send c _); [|by intros [= <-]|done].
    by intros [= <-].
  - intros Hs [Hopen [Hrecv Hfull]].
    assert (Hq : try_send (jobs s) job = NotReady).
    { apply try_send_NotReady; [done|]. intros [_ [?|?]]; lia. }
    assert (Heq : EnqueueJob s job
                  = reply (with_warning s job) job (mkJobResult AnyNil (Some ErrJobQueueFull))).
    { unfold EnqueueJob, with_warning. destruct (stopped s); [done|].
      unfold select_send at 1. by rewrite Hq. }
    rewrite Heq. split; [apply reply_rejected|].
    intros s'. unfold reply. destruct (_ ≫= _) as [[ch c]|]; [|by intros [= <-]].
    unfold select_send. destruct (try_send c _); [|by intros [= <-]|done].
    by intros [= <-].
Qed.

(** ** Examples *)

(** The executable check of the constraints of the schema is sound. *)
Lemma check_db_wf d : check_db d = true → wf_db d.
Proof.
  unfold check_db. rewrite !andb_true_iff, !bool_decide_eq_true, !forallb_forall.
  intros ((((H1 & H2) & H3) & H4) & H5). split; try done.
  - intros rr Hin%list_elem_of_In. apply H4 in Hin. by apply andb_prop in Hin as [? _].
  - intros rr Hin%list_elem_of_In. apply H4 in Hin. by apply andb_prop in Hin as [_ ?].
  - intros p Hin%list_elem_of_In. by apply H5.
Qed.

(** *** The assignment engine *)

(** [CreatePR] on a team of three with one inactive member assigns the one
    candidate; on a team of one it stores the pull request without a
    reviewer. *)
Lemma CreatePR_reviewer_bounds_witness :
  (∃ created w',
     CreatePR new_pr (world db_team [Some 0]) = Return created w'
     ∧ reviewer_ids (PullRequest.Assigned created) = ["u2"]
     ∧ length (PullRequest.Assigned created) ≤ maxReviewers
     ∧ (PullRequest.AuthorID new_pr ∉ reviewer_ids (PullRequest.Assigned created))
     ∧ (PullRequest.NeedMoreReviewers created = true
        ↔ length (PullRequest.Assigned created) < maxReviewers))
  ∧ (∃ created w',
       CreatePR solo_pr (world db_solo []) = Return created w'
       ∧ PullRequest.Assigned created = []
       ∧ PullRequest.NeedMoreReviewers created = true).
Proof.
  split.
  - assert (Hwf : wf_db (db (world db_team [Some 0])))
      by (apply check_db_wf; vm_compute; reflexivity).
    destruct (CreatePR_reviewer_bounds (world db_team [Some 0]) new_pr Hwf) as [Hb _].
    destruct (CreatePR new_pr (world db_team [Some 0])) as [created w'|? ?| |] eqn:Hrun;
      [|vm_compute in Hrun; discriminate..].
    exists created, w'. split; [reflexivity|]. split; [|exact (Hb _ _ eq_refl)].
    vm_compute in Hrun. injection Hrun as <- _. reflexivity.
  - assert (Hwf : wf_db (db (world db_solo [])))
      by (apply check_db_wf; vm_compute; reflexivity).
    destruct (CreatePR_reviewer_bounds (world db_solo []) solo_pr Hwf) as [_ Hz].
    apply Hz; [reflexivity|reflexivity|reflexivity|].
    exists "solo". split; vm_compute; reflexivity.
Defined.

(** Merging [pr-1] at time 100 and again at time 250 gives the same pull
    request, merged at 100. *)
Lemma MergePR_idempotent_witness :
  ∃ pr1 w1,
    MergePR "pr-1" (world db_backend []) = Return pr1 w1
    ∧ PullRequest.MergedAt pr1 = Some 100%Z
    ∧ reviewer_ids (PullRequest.Assigned pr1) = ["u2"]
    ∧ PullRequest.Status pr1 = "MERGED"
    ∧ MergePR "pr-1" (mkWorld (db w1) Background [] 250 []) 
      = Return pr1 (mkWorld (db w1) Background [] 250 []).
Proof.
  destruct (MergePR "pr-1" (world db_backend [])) as [pr1 w1|? ?| |] eqn:Hrun;
    [|vm_compute in Hrun; discriminate..].
  destruct (MergePR_idempotent _ _ _ _ Hrun) as (Hst & Hagain & _).
  exists pr1, w1. split; [reflexivity|].
  split; [vm_compute in Hrun; injection Hrun as <- _; reflexivity|].
  split; [vm_compute in Hrun; injection Hrun as <- _; reflexivity|].
  split; [exact Hst|]. apply Hagain; reflexivity.
Defined.

(** A merged [pr-1] refuses [Reassign] and is skipped by the cascade. *)
Lemma merge_freeze_witness :
  Reassign "pr-1" "u2" (world db_merged [Some 0])
  = Fail ErrPRMerged (world db_merged [Some 0])
  ∧ final_db (cleanup_pr "backend" (PullRequestShort.mk "pr-1" "T" "u1" "MERGED")
                (world db_merged []))
    = Some db_merged.
Proof.
  destruct (merge_freeze (world db_merged [Some 0]) "pr-1" pr1_merged)
    as (Hr & _ & _); [vm_compute; reflexivity|reflexivity|].
  destruct (merge_freeze (world db_merged []) "pr-1" pr1_merged)
    as (_ & _ & Hc); [vm_compute; reflexivity|reflexivity|].
  split; [by apply Hr|]. apply (Hc "backend"). reflexivity.
Defined.

(** The three failures of [Reassign], and the draw of the candidate. *)
Lemma Reassign_failures_witness :
  Reassign "pr-1" "u2" (world db_origin_inactive [Some 0])
  = Fail ErrUserInactive (world db_origin_inactive [Some 0])
  ∧ Reassign "pr-2" "u5" (world db_no_pool [Some 0])
    = Fail ErrNoCandidate (world db_no_pool [Some 0])
  ∧ Reassign "pr-1" "u2" (world db_backend3 [Some 3; Some 0])
    = Reassign_commit "pr-1" "u2" "u3" (world db_backend3 [Some 0])
  ∧ Reassign_commit "pr-1" "u2" "u3" (world db_backend [Some 0])
    = Fail ErrNoCandidate (world db_backend [Some 0]).
Proof.
  split; [|split; [|split]].
  - apply (Reassign_failures (world db_origin_inactive [Some 0]) "pr-1" "u2"
             (pr1_open false) (User.mk "u2" "Bob" "backend" false));
      [vm_compute; reflexivity|discriminate|vm_compute; by left|reflexivity..].
  - apply (Reassign_failures (world db_no_pool [Some 0]) "pr-2" "u5"
             pr2_open (User.mk "u5" "Eve" "beta" true));
      [vm_compute; reflexivity|discriminate|vm_compute; by left|reflexivity
      |reflexivity|reflexivity|vm_compute; reflexivity].
  - destruct (Reassign_failures (world db_backend3 [Some 3; Some 0]) "pr-1" "u2"
                (pr1_open true) (User.mk "u2" "Bob" "backend" true))
      as (_ & _ & Hpick & _);
      [vm_compute; reflexivity|discriminate|vm_compute; by left|reflexivity|].
    destruct (Hpick eq_refl) with (k := 3) as (c & Hc & Hre);
      [vm_compute; discriminate|discriminate|reflexivity|].
    vm_compute in Hc. injection Hc as <-. exact Hre.
  - apply (Reassign_failures (world db_backend [Some 0]) "pr-1" "u2"
             (pr1_open true) (User.mk "u2" "Bob" "backend" true));
      [vm_compute; reflexivity|discriminate|vm_compute; by left|reflexivity|].
    intros nu Hnu. vm_compute in Hnu. injection Hnu as <-. reflexivity.
Defined.

(** With the draw 3 on a pool of one, u2 is replaced by u3. *)
Lemma Reassign_fresh_replacement_witness :
  ∃ pr' w',
    Reassign "pr-1" "u2" (world db_backend3 [Some 3]) = Return (pr', "u3") w'
    ∧ "u3" ≠ "u2"
    ∧ ∀ pr, repo.GetPR db_backend3 "pr-1" = Ok pr →
            "u3" ∉ reviewer_ids (PullRequest.Assigned pr).
Proof.
  destruct (Reassign "pr-1" "u2" (world db_backend3 [Some 3])) as [[pr' new] w'|? ?| |] eqn:Hrun;
    [|vm_compute in Hrun; discriminate..].
  assert (new = "u3") as -> by (vm_compute in Hrun; by injection Hrun as _ <- _).
  exists pr', w'. split; [reflexivity|].
  exact (Reassign_fresh_replacement _ _ _ _ _ _ Hrun).
Defined.

(** The row of u2 is replaced by the row of u3: one reviewer before, one
    after. *)
Lemma Reassign_keeps_count_witness :
  ∃ pr' w',
    Reassign "pr-1" "u2" (world db_backend3 [Some 3]) = Return (pr', "u3") w'
    ∧ pr_reviewers (db w') = [("pr-1", "u3")]
    ∧ length (PullRequest.Assigned pr') = 1.
Proof.
  destruct (Reassign "pr-1" "u2" (world db_backend3 [Some 3])) as [[pr' new] w'|? ?| |] eqn:Hrun;
    [|vm_compute in Hrun; discriminate..].
  assert (new = "u3") as -> by (vm_compute in Hrun; by injection Hrun as _ <- _).
  exists pr', w'. split; [reflexivity|].
  destruct (Reassign_keeps_count (world db_backend3 [Some 3]) "pr-1" "u2" pr' "u3" w')
    as [Hrows Hcount];
    [apply check_db_wf; vm_compute; reflexivity|discriminate|discriminate|exact Hrun|].
  split; [rewrite Hrows; vm_compute; reflexivity|].
  destruct (Hcount (pr1_open true)) as [-> _]; [vm_compute; reflexivity|reflexivity].
Defined.

(** *** The cascade of DeactivateTeam *)

(** C2 fails on this input: team beta is deactivated, its member r1 reviews
    a pull request of team alpha; the pool of the replacement is empty (team
    beta) although the author's team has two candidates, and r1 stays. *)
Lemma pool_not_from_author_team :
  replacement_pool (deactivated db_cross "beta") "pr-7" "beta" = []
  ∧ author_team_pool (deactivated db_cross "beta") (pr7 false) "r1" = ["a1"; "c1"]
  ∧ replacement_pool (deactivated db_cross "beta") "pr-7" "beta"
    ≠ author_team_pool (deactivated db_cross "beta") (pr7 false) "r1"
  ∧ ∃ w', DeactivateTeam "beta" (world db_cross [Some 0]) = Return () w'
          ∧ repo.GetPR (db w') "pr-7" = Ok (pr7 false)
          ∧ no_replacement "pr-7" "r1" ∈ log w'.
Proof.
  split; [vm_compute; reflexivity|]. split; [vm_compute; reflexivity|].
  split; [vm_compute; discriminate|].
  eexists. split; [vm_compute; reflexivity|]. split; [vm_compute; reflexivity|].
  vm_compute. by left.
Defined.

(** The run of [DeactivateTeam] on that input, through the theorem. *)
Lemma DeactivateTeam_pool_source_witness :
  ∃ w', DeactivateTeam "beta" (world db_cross []) = Return () w'
    ∧ db w' = deactivated db_cross "beta"
    ∧ replacement_pool (db w') "pr-7" "beta" = []
    ∧ reassignReviewer "pr-7" "r1" "beta" w' = Fail ErrNoCandidate w'.
Proof.
  destruct (DeactivateTeam_pool_source (world db_cross []) "beta"
              (Team.mk "beta" [TeamMember.mk "r1" "Rob" true]))
    as (w' & Hrun & Hdb & Hpool); [reflexivity|discriminate|vm_compute; reflexivity|].
  exists w'. split; [exact Hrun|]. split; [exact Hdb|].
  destruct (Hpool "pr-7" (pr7 false)) as [Hempty Hfail];
    [rewrite Hdb; vm_compute; reflexivity|].
  split; [exact Hempty|apply Hfail].
Defined.

(** One step of the cascade on a database where a second member of team
    beta is still active: the replacement comes from team beta. *)
Lemma replacement_pool_source_witness :
  ∃ w',
    replace_if_inactive (pr7 false) "beta" false (PRReviewer.mk "r1" "Rob" false)
      (world db_partial [Some 0]) = Return true w'
    ∧ replacement_pool db_partial "pr-7" "beta" = ["b2"]
    ∧ pr_reviewers (db w') = [("pr-7", "b2")]
    ∧ replacement_pool (deactivated db_partial "beta") "pr-7" "beta" = [].
Proof.
  destruct (replace_if_inactive (pr7 false) "beta" false (PRReviewer.mk "r1" "Rob" false)
              (world db_partial [Some 0])) as [b w'|? ?| |] eqn:Hrun;
    [|vm_compute in Hrun; discriminate..].
  assert (b = true) as -> by (vm_compute in Hrun; by injection Hrun as <- _).
  exists w'. split; [reflexivity|].
  destruct (replacement_pool_source _ _ _ _ _ _ _ Hrun) as (_ & _ & Hempty).
  split; [vm_compute; reflexivity|].
  split; [vm_compute in Hrun; injection Hrun as <-; reflexivity|].
  exact Hempty.
Defined.

(** C7 fails on the scenario of the specification: after the team is
    deactivated, u2 is inactive and still the only reviewer of [pr-1]. *)
Lemma sole_reviewer_neither_replaced_nor_reduced :
  ∃ w', DeactivateTeam "backend" (world db_backend [Some 0]) = Return () w'
    ∧ repo.GetPR (db w') "pr-1" = Ok (pr1_open false)
    ∧ repo.GetUser (db w') "u2" = Ok (User.mk "u2" "Bob" "backend" false)
    ∧ ¬ replaced_or_reduced (db w') "pr-1" "u2".
Proof.
  eexists. split; [vm_compute; reflexivity|]. split; [vm_compute; reflexivity|].
  split; [vm_compute; reflexivity|].
  intros (pr' & Hpr & [(x & u & Hx & Hne & _)|[Hnin _]]);
    vm_compute in Hpr; injection Hpr as <-.
  - vm_compute in Hx. injection Hx as <-. done.
  - apply Hnin. vm_compute. by left.
Defined.

(** The scenario of the specification, through the theorem. *)
Lemma DeactivateTeam_sole_reviewer_witness :
  ∃ w' pr' u',
    DeactivateTeam "backend" (world db_backend [Some 0]) = Return () w'
    ∧ no_replacement "pr-1" "u2" ∈ log w'
    ∧ repo.GetPR (db w') "pr-1" = Ok pr'
    ∧ reviewer_ids (PullRequest.Assigned pr') = ["u2"]
    ∧ PullRequest.NeedMoreReviewers pr' = true
    ∧ repo.GetUser (db w') "u2" = Ok u' ∧ User.IsActive u' = false
    ∧ pr_reviewers (db w') = [("pr-1", "u2")].
Proof.
  apply (DeactivateTeam_sole_reviewer (world db_backend [Some 0]) "backend"
           (Team.mk "backend"
              [TeamMember.mk "u1" "Alice" true; TeamMember.mk "u2" "Bob" true;
               TeamMember.mk "u3" "Charlie" false])
           "pr-1" (pr1_open true) "u2" (User.mk "u2" "Bob" "backend" true)).
  - apply check_db_wf. vm_compute. reflexivity.
  - reflexivity.
  - discriminate.
  - vm_compute. reflexivity.
  - vm_compute. reflexivity.
  - reflexivity.
  - reflexivity.
  - reflexivity.
  - reflexivity.
Defined.

(** *** The dispatcher *)

(** C9 as stated fails when the context of the job is done: the result
    carries the error of the context. *)
Lemma handleJob_cancelled_first :
  required (Type_ job_no_id) = Some [("pr_id", DString)]
  ∧ malformed job_no_id [("pr_id", DString)]
  ∧ handleJob job_no_id (cancelled_world db_backend)
    = Return (mkJobResult AnyNil (Some Canceled), []) (cancelled_world db_backend)
  ∧ handleJob job_no_id (cancelled_world db_backend)
    ≠ Return unknown_result (cancelled_world db_backend).
Proof.
  split; [reflexivity|]. split.
  - exists "pr_id", DString. split; [by left|reflexivity].
  - split; [vm_compute; reflexivity|vm_compute; discriminate].
Defined.

(** A [get_pr] job whose [pr_id] is an integer, under a live and under a
    cancelled context. *)
Lemma handleJob_malformed_witness :
  handleJob job_bad_id (world db_backend []) = Return unknown_result (world db_backend [])
  ∧ handleJob job_bad_id (cancelled_world db_backend)
    = Return (mkJobResult AnyNil (Some Canceled), []) (cancelled_world db_backend).
Proof.
  assert (Hbad : malformed job_bad_id [("pr_id", DString)]).
  { exists "pr_id", DString. split; [by left|vm_compute; reflexivity]. }
  split.
  - destruct (handleJob_malformed job_bad_id (world db_backend []) _ eq_refl Hbad)
      as [Hlive _]. apply Hlive. discriminate.
  - destruct (handleJob_malformed job_bad_id (cancelled_world db_backend) _ eq_refl Hbad)
      as [_ Hdone]. apply Hdone. reflexivity.
Defined.

(** A stopped service and a full queue, each with a reply channel that can
    take the result and with one that cannot. *)
Lemma EnqueueJob_never_blocks_witness :
  (∃ c', EnqueueJob (svc_stopped reply_empty) (job_get_team (Some 7))
         = Proceed (with_chan (svc_stopped reply_empty) 7 c')
         ∧ delivered c' ≡ₚ [mkJobResult AnyNil (Some Canceled)])
  ∧ EnqueueJob (svc_stopped reply_taken) (job_get_team (Some 7))
    = Proceed (svc_stopped reply_taken)
  ∧ (∃ c', EnqueueJob (svc_full reply_empty) (job_get_team (Some 7))
           = Proceed (with_chan (with_warning (svc_full reply_empty) (job_get_team (Some 7)))
                        7 c')
           ∧ delivered c' ≡ₚ [mkJobResult AnyNil (Some ErrJobQueueFull)])
  ∧ EnqueueJob (svc_full reply_taken) (job_get_team (Some 7))
    = Proceed (with_warning (svc_full reply_taken) (job_get_team (Some 7))).
Proof.
  assert (Hcan : can_receive reply_empty) by (split; [reflexivity|right; cbn; lia]).
  assert (Hnot : ¬ can_receive reply_taken) by (intros [_ [H|H]]; cbn in H; lia).
  split; [|split; [|split]].
  - destruct (EnqueueJob_never_blocks (svc_stopped reply_empty) (job_get_team (Some 7)))
      as (_ & Hstop & _).
    destruct (Hstop eq_refl) as [[Hdeliver _] _].
    destruct (Hdeliver Hcan) as (c' & Hrun & Hd & _). by exists c'.
  - destruct (EnqueueJob_never_blocks (svc_stopped reply_taken) (job_get_team (Some 7)))
      as (_ & Hstop & _).
    destruct (Hstop eq_refl) as [[_ Hdrop] _]. by apply Hdrop.
  - destruct (EnqueueJob_never_blocks (svc_full reply_empty) (job_get_team (Some 7)))
      as (_ & _ & Hfull).
    destruct Hfull as [[Hdeliver _] _]; [reflexivity|repeat split; cbn; lia|].
    destruct (Hdeliver Hcan) as (c' & Hrun & Hd & _). by exists c'.
  - destruct (EnqueueJob_never_blocks (svc_full reply_taken) (job_get_team (Some 7)))
      as (_ & _ & Hfull).
    destruct Hfull as [[_ Hdrop] _]; [reflexivity|repeat split; cbn; lia|].
    by apply Hdrop.
Defined.

(** *** Reassign with an empty user id *)

(** C10 as stated fails: with the empty id as the replacement the old
    reviewer is deleted and nobody inserted (one reviewer becomes none); with
    the empty id as the old reviewer nobody is deleted (two become three). *)
Lemma Reassign_changes_count :
  wf_db db_empty_id ∧ wf_db db_empty_reviewer
  ∧ (∃ pr pr' w',
       repo.GetPR db_empty_id "pr-1" = Ok pr
       ∧ Reassign "pr-1" "u2" (world db_empty_id [Some 0]) = Return (pr', "") w'
       ∧ length (PullRequest.Assigned pr) = 1
       ∧ length (PullRequest.Assigned pr') = 0
       ∧ pr_reviewers (db w') = [])
  ∧ (∃ pr pr' w',
       repo.GetPR db_empty_reviewer "pr-1" = Ok pr
       ∧ Reassign "pr-1" "" (world db_empty_reviewer [Some 0]) = Return (pr', "u1") w'
       ∧ length (PullRequest.Assigned pr) = 2
       ∧ length (PullRequest.Assigned pr') = 3
       ∧ pr_reviewers (db w') = [("pr-1", ""); ("pr-1", "u2"); ("pr-1", "u1")]).
Proof.
  split; [apply check_db_wf; vm_compute; reflexivity|].
  split; [apply check_db_wf; vm_compute; reflexivity|].
  split.
  - eexists _, _, _. split; [vm_compute; reflexivity|].
    split; [vm_compute; reflexivity|]. repeat split.
  - eexists _, _, _. split; [vm_compute; reflexivity|].
    split; [vm_compute; reflexivity|]. repeat split.
Defined.

(** * The rest of the service and of the repository *)

(** ** Teams: validateTeam, AddTeam, GetTeam, SetUserActive *)

Lemma seen_twice_false userIDs members :
  seen_twice userIDs members = false ↔
  NoDup (member_ids members)
  ∧ ∀ m, m ∈ members → default false (userIDs !! TeamMember.UserID m) = false.
Proof.
  revert userIDs. induction members as [|m l IH]; intros userIDs; cbn [seen_twice].
  - split; [|done]. intros _. split; [constructor|by intros ? ?%elem_of_nil].
  - destruct (default false (userIDs !! TeamMember.UserID m)) eqn:E.
    + split; [done|]. intros [_ H]. specialize (H m ltac:(by left)). congruence.
    + rewrite IH. unfold member_ids. rewrite fmap_cons, NoDup_cons. split.
      * intros [Hnd Hall]. split; [split; [|done]|].
        -- intros (m' & Heq & Hin)%list_elem_of_fmap. specialize (Hall m' Hin).
           by rewrite <- Heq, lookup_insert_eq in Hall.
        -- intros m' [->|Hin]%elem_of_cons; [done|]. specialize (Hall m' Hin).
           destruct (decide (TeamMember.UserID m = TeamMember.UserID m')) as [Heq|Hne].
           ++ by rewrite <- Heq, lookup_insert_eq in Hall.
           ++ by rewrite lookup_insert_ne in Hall.
      * intros [[Hnin Hnd] Hall]. split; [done|]. intros m' Hin.
        rewrite lookup_insert_ne; [apply Hall; by right|].
        intros Heq. apply Hnin. rewrite Heq. by apply list_elem_of_fmap_2.
Qed.

Lemma validateTeam_None team :
  validateTeam team = None
  ↔ Team.TeamName team ≠ "" ∧ NoDup (member_ids (Team.Members team)).
Proof.
  unfold validateTeam. destruct (String.eqb (Team.TeamName team) "") eqn:En.
  - apply String.eqb_eq in En. split; [done|]. by intros [? _].
  - apply String.eqb_neq in En. destruct (seen_twice ∅ (Team.Members team)) eqn:Es.
    + split; [done|]. intros [_ Hnd].
      assert (seen_twice ∅ (Team.Members team) = false); [|congruence].
      apply seen_twice_false. split; [done|]. intros m _. by rewrite lookup_empty.
    + by apply seen_twice_false in Es as [Hnd _].
Qed.

(** X1: [validateTeam] accepts a team exactly when its name is not empty and
    no user id occurs twice among its members; an empty name is reported
    first, as [errMissingTeamName], a repeated id as [errDuplicates]. *)
Theorem validateTeam_accepts team :
  (validateTeam team = None
   ↔ Team.TeamName team ≠ "" ∧ NoDup (member_ids (Team.Members team)))
  ∧ (validateTeam team = Some errMissingTeamName ↔ Team.TeamName team = "")
  ∧ (validateTeam team = Some errDuplicates
     ↔ Team.TeamName team ≠ "" ∧ ¬ NoDup (member_ids (Team.Members team))).
Proof.
  unfold validateTeam.
  destruct (String.eqb (Team.TeamName team) "") eqn:En.
  - apply String.eqb_eq in En. split; [|split]; split; try done; by intros [? _].
  - apply String.eqb_neq in En.
    destruct (seen_twice ∅ (Team.Members team)) eqn:Es.
    + assert (Hdup : ¬ NoDup (member_ids (Team.Members team))).
      { intros Hnd. assert (seen_twice ∅ (Team.Members team) = false); [|congruence].
        apply seen_twice_false. split; [done|]. intros m _. by rewrite lookup_empty. }
      split; [|split]; split; try done. by intros [_ ?].
    + apply seen_twice_false in Es as [Hnd _].
      split; [|split]; split; try done. by intros [_ ?].
Qed.

Lemma find_app_skip {A} (f : A → bool) (l : list A) (x : A) :
  f x = false → find f (l ++ [x]) = find f l.
Proof.
  intros Hx. induction l as [|a l IH]; simpl; [by rewrite Hx|].
  by destruct (f a).
Qed.

(** A lookup after one upsert. *)
Lemma GetUser_upsert d u uid :
  repo.GetUser (repo.upsert_user d u) uid
  = if String.eqb (User.UserID u) uid then Ok u else repo.GetUser d uid.
Proof.
  unfold repo.upsert_user, repo.GetUser. destruct (has_user d (User.UserID u)) eqn:Hu.
  - cbn [users]. rewrite find_fmap_same.
    + destruct (String.eqb (User.UserID u) uid) eqn:E.
      * apply String.eqb_eq in E. subst uid.
        destruct (find _ _) as [x|] eqn:Hf.
        -- apply find_Some_elem in Hf as [_ Hx]. cbn. by rewrite Hx.
        -- apply find_None_existsb in Hf. unfold has_user in Hu. unfold repo.by_user in Hf.
           congruence.
      * destruct (find _ _) as [x|] eqn:Hf; [|done].
        apply find_Some_elem in Hf as [_ Hx]. cbn.
        unfold repo.by_user in *. apply String.eqb_eq in Hx. subst uid.
        rewrite String.eqb_sym in E. by rewrite E.
    + intros x. unfold repo.by_user.
      destruct (String.eqb (User.UserID x) (User.UserID u)) eqn:E; [|done].
      apply String.eqb_eq in E. by rewrite E.
  - cbn [users]. destruct (String.eqb (User.UserID u) uid) eqn:E.
    + apply String.eqb_eq in E. subst uid.
      rewrite find_app_miss by done. unfold repo.by_user. by rewrite String.eqb_refl.
    + by rewrite find_app_skip.
Qed.

Lemma upsert_user_ids d u :
  User.UserID <$> users (repo.upsert_user d u)
  = if has_user d (User.UserID u) then User.UserID <$> users d
    else (User.UserID <$> users d) ++ [User.UserID u].
Proof.
  unfold repo.upsert_user. destruct (has_user d (User.UserID u)); cbn [users].
  - rewrite <- list_fmap_compose. apply list_fmap_ext. intros i x _. cbn.
    unfold repo.by_user. destruct (String.eqb (User.UserID x) (User.UserID u)) eqn:E; [|done].
    by apply String.eqb_eq in E.
  - by rewrite fmap_app.
Qed.

Lemma upsert_user_frame d u :
  pull_requests (repo.upsert_user d u) = pull_requests d
  ∧ pr_reviewers (repo.upsert_user d u) = pr_reviewers d.
Proof. unfold repo.upsert_user. by destruct (has_user d _). Qed.

Lemma has_user_upsert d u uid :
  has_user d uid = true → has_user (repo.upsert_user d u) uid = true.
Proof.
  rewrite !has_user_ids, upsert_user_ids. destruct (has_user d (User.UserID u)); [done|].
  intros ?. apply elem_of_app. by left.
Qed.

Lemma upsert_user_wf d u : wf_db d → wf_db (repo.upsert_user d u).
Proof.
  intros Hwf. pose proof (upsert_user_frame d u) as [Hp Hr].
  split.
  - rewrite upsert_user_ids. destruct (has_user d (User.UserID u)) eqn:E; [apply Hwf|].
    apply NoDup_app. split; [apply Hwf|]. split; [|apply NoDup_singleton].
    intros x Hx ->%list_elem_of_singleton. apply has_user_ids in Hx. congruence.
  - rewrite Hp. apply Hwf.
  - rewrite Hr. apply Hwf.
  - rewrite Hr. intros rr Hin. unfold has_pr. rewrite Hp. by apply Hwf.
  - rewrite Hr. intros rr Hin. apply has_user_upsert. by apply Hwf.
  - rewrite Hp. intros p Hin. apply has_user_upsert. by apply Hwf.
Qed.

Lemma upsert_user_teams d u : teams (repo.upsert_user d u) = teams d.
Proof. unfold repo.upsert_user. by destruct (has_user d _). Qed.

Lemma insert_team_frame d name :
  users (repo.insert_team d name) = users d
  ∧ pull_requests (repo.insert_team d name) = pull_requests d
  ∧ pr_reviewers (repo.insert_team d name) = pr_reviewers d.
Proof. unfold repo.insert_team. by case_bool_decide. Qed.

Lemma insert_team_elem d name x :
  x ∈ teams (repo.insert_team d name) ↔ x ∈ teams d ∨ x = name.
Proof.
  unfold repo.insert_team. case_bool_decide as Hin; cbn [teams].
  - split; [by left|]. by intros [?| ->].
  - rewrite elem_of_app, list_elem_of_singleton. done.
Qed.

Lemma GetUser_insert_team d name uid :
  repo.GetUser (repo.insert_team d name) uid = repo.GetUser d uid.
Proof.
  unfold repo.GetUser. by destruct (insert_team_frame d name) as (-> & _ & _).
Qed.

Lemma insert_team_wf d name : wf_db d → wf_db (repo.insert_team d name).
Proof.
  intros Hwf. unfold repo.insert_team. case_bool_decide; [done|].
  by destruct Hwf; split.
Qed.

Lemma with_team_frame d team :
  pull_requests (with_team d team) = pull_requests d
  ∧ pr_reviewers (with_team d team) = pr_reviewers d.
Proof.
  unfold with_team, repo.InsertTeam. cbn [snd]. destruct team as [name members].
  cbn [Team.TeamName Team.Members].
  destruct (insert_team_frame d name) as (_ & <- & <-).
  generalize (repo.insert_team d name). clear d.
  induction members as [|m l IH]; intros d; [done|]. cbn [foldl].
  destruct (IH (repo.upsert_user d (repo.member_row name m))) as [-> ->].
  apply upsert_user_frame.
Qed.

Lemma with_team_teams d team x :
  x ∈ teams (with_team d team) ↔ x ∈ teams d ∨ x = Team.TeamName team.
Proof.
  unfold with_team, repo.InsertTeam. cbn [snd]. destruct team as [name members].
  cbn [Team.TeamName Team.Members]. rewrite <- insert_team_elem.
  generalize (repo.insert_team d name). clear d.
  induction members as [|m l IH]; intros d; [done|]. cbn [foldl].
  by rewrite IH, upsert_user_teams.
Qed.

Lemma with_team_wf d team : wf_db d → wf_db (with_team d team).
Proof.
  unfold with_team, repo.InsertTeam. cbn [snd]. destruct team as [name members].
  cbn [Team.TeamName Team.Members]. intros Hwf%(insert_team_wf _ name).
  revert Hwf. generalize (repo.insert_team d name). clear d.
  induction members as [|m l IH]; intros d Hwf; [done|]. cbn [foldl].
  by apply IH, upsert_user_wf.
Qed.

(** A lookup after [InsertTeam] of a team without repeated ids. *)
Lemma GetUser_with_team d team uid :
  NoDup (member_ids (Team.Members team)) →
  repo.GetUser (with_team d team) uid
  = match find (λ m, String.eqb (TeamMember.UserID m) uid) (Team.Members team) with
    | Some m => Ok (repo.member_row (Team.TeamName team) m)
    | None => repo.GetUser d uid
    end.
Proof.
  unfold with_team, repo.InsertTeam. cbn [snd]. destruct team as [name members].
  cbn [Team.TeamName Team.Members]. rewrite <- (GetUser_insert_team d name).
  generalize (repo.insert_team d name). clear d.
  induction members as [|m l IH]; intros d Hnd; [done|]. cbn [foldl find].
  unfold member_ids in Hnd. rewrite fmap_cons in Hnd. apply NoDup_cons in Hnd as [Hnin Hnd].
  rewrite IH by done. rewrite GetUser_upsert. cbn [repo.member_row User.UserID].
  destruct (String.eqb (TeamMember.UserID m) uid) eqn:E; [|done].
  apply String.eqb_eq in E. subst uid.
  destruct (find _ l) as [m'|] eqn:Hf; [|done].
  apply find_Some_elem in Hf as [Hin He]. apply String.eqb_eq in He.
  exfalso. apply Hnin. rewrite <- He. by apply list_elem_of_fmap_2.
Qed.

Lemma AddTeam_eq w team :
  validateTeam team = None →
  AddTeam team w
  = Return () (add_log (set_db (with_team (db w) team) w)
                 [mkLog SUCCESS "team added" [AnyString "team"; AnyString (Team.TeamName team)]]).
Proof. intros Hv. unfold AddTeam. rewrite Hv. done. Qed.

Lemma with_team_lookup d team :
  NoDup (member_ids (Team.Members team)) →
  (∀ m, m ∈ Team.Members team →
     repo.GetUser (with_team d team) (TeamMember.UserID m)
     = Ok (repo.member_row (Team.TeamName team) m))
  ∧ (∀ uid, uid ∉ member_ids (Team.Members team) →
       repo.GetUser (with_team d team) uid = repo.GetUser d uid).
Proof.
  intros Hnd. split.
  - intros m Hin. rewrite GetUser_with_team by done.
    destruct (find _ _) as [m'|] eqn:Hf.
    + apply find_Some_elem in Hf as [Hin' He]. apply String.eqb_eq in He.
      f_equal. f_equal.
      destruct (list_elem_of_lookup_1 _ _ Hin) as [i Hi].
      destruct (list_elem_of_lookup_1 _ _ Hin') as [j Hj].
      assert (i = j); [|congruence].
      eapply NoDup_lookup; [exact Hnd|..]; unfold member_ids; rewrite list_lookup_fmap.
      * by rewrite Hi.
      * rewrite Hj. cbn. by rewrite He.
    + apply find_None_elem with (x := m) in Hf; [|done].
      by rewrite String.eqb_refl in Hf.
  - intros uid Hnin. rewrite GetUser_with_team by done.
    destruct (find _ _) as [m'|] eqn:Hf; [|done].
    apply find_Some_elem in Hf as [Hin' He]. apply String.eqb_eq in He.
    exfalso. apply Hnin. rewrite <- He. by apply list_elem_of_fmap_2.
Qed.

(** X2: under a context that is never done, [AddTeam] of a team that
    [validateTeam] accepts returns without an error.  Afterwards the name of
    the team is a row of [teams] and every listed member is stored under its
    id with the listed name and activity flag and with the name of the team,
    whatever team the id belonged to before; the users that are not listed,
    the pull requests and the reviewer rows are as before, and the
    constraints of the schema still hold. *)
Theorem AddTeam_registers w team :
  polls_left (ctx w) = None →
  validateTeam team = None →
  ∃ w', AddTeam team w = Return () w'
    ∧ Team.TeamName team ∈ teams (db w')
    ∧ (∀ m, m ∈ Team.Members team →
         repo.GetUser (db w') (TeamMember.UserID m)
         = Ok (repo.member_row (Team.TeamName team) m))
    ∧ (∀ uid, uid ∉ member_ids (Team.Members team) →
         repo.GetUser (db w') uid = repo.GetUser (db w) uid)
    ∧ pull_requests (db w') = pull_requests (db w)
    ∧ pr_reviewers (db w') = pr_reviewers (db w)
    ∧ (wf_db (db w) → wf_db (db w')).
Proof.
  intros _ Hv. eexists. split; [by apply AddTeam_eq|].
  cbn [add_log set_db db].
  apply validateTeam_None in Hv as [_ Hnd].
  destruct (with_team_frame (db w) team) as [Hp Hr].
  destruct (with_team_lookup (db w) team Hnd) as [Hlisted Hother].
  split; [apply with_team_teams; by right|].
  split; [done|]. split; [done|]. split; [done|]. split; [done|]. apply with_team_wf.
Qed.

Lemma NoDup_fmap_eq {A B} (f : A → B) (l : list A) (x y : A) :
  NoDup (f <$> l) → x ∈ l → y ∈ l → f x = f y → x = y.
Proof.
  intros Hnd Hx Hy Hf.
  destruct (list_elem_of_lookup_1 _ _ Hx) as [i Hi].
  destruct (list_elem_of_lookup_1 _ _ Hy) as [j Hj].
  assert (i = j); [|congruence].
  eapply NoDup_lookup; [exact Hnd|..]; rewrite list_lookup_fmap.
  - by rewrite Hi.
  - rewrite Hj. cbn. by rewrite Hf.
Qed.

(** With unique ids a stored user is the one its id is looked up to. *)
Lemma GetUser_elem d u :
  NoDup (User.UserID <$> users d) → u ∈ users d → repo.GetUser d (User.UserID u) = Ok u.
Proof.
  intros Hnd Hin.
  destruct (has_user_GetUser d (User.UserID u)) as (u' & Hu' & _).
  { apply has_user_elem. eauto. }
  rewrite Hu'. f_equal. apply GetUser_Ok in Hu' as [Hid Hin'].
  by apply (NoDup_fmap_eq User.UserID (users d)).
Qed.


Lemma repo_GetTeam_members d name t :
  repo.GetTeam d name = Ok t →
  Team.TeamName t = name
  ∧ Sorted by_member_id (Team.Members t)
  ∧ ∀ m, m ∈ Team.Members t
         ↔ ∃ u, u ∈ users d ∧ User.TeamName u = name ∧ m = as_member u.
Proof.
  intros [_ ->]%GetTeam_has_member. split; [done|]. cbn [Team.Members]. split.
  - apply Sorted_merge_sort. intros a b.
    destruct (String.leb_total (TeamMember.UserID a) (TeamMember.UserID b)) as [H|H];
      [left|right]; by apply Is_true_true.
  - intros m. rewrite order_by_perm, list_elem_of_fmap. split.
    + intros (u & -> & [Ht Hin]%list_elem_of_filter). by exists u.
    + intros (u & Hin & Ht & ->). exists u. split; [done|]. by apply list_elem_of_filter.
Qed.

Lemma repo_GetTeam_found d name u :
  u ∈ users d → User.TeamName u = name → ∃ t, repo.GetTeam d name = Ok t.
Proof.
  intros Hin Ht. unfold repo.GetTeam.
  destruct (order_by _ _) as [|m ms] eqn:E; [|eauto].
  assert (Hm : as_member u ∈ order_by TeamMember.UserID
                 (as_member <$> filter (λ u, User.TeamName u = name) (users d))).
  { rewrite order_by_perm. apply list_elem_of_fmap_2. by apply list_elem_of_filter. }
  unfold as_member in Hm at 2. rewrite E in Hm. by apply elem_of_nil in Hm.
Qed.

Lemma repo_GetTeam_missing d name :
  (∀ u, u ∈ users d → User.TeamName u ≠ name) →
  repo.GetTeam d name = Err (Errorf "not found").
Proof.
  intros Hno. unfold repo.GetTeam.
  rewrite (filter_none (λ u, User.TeamName u = name)); [done|].
  intros u Hin. by apply Hno.
Qed.

(** X3: [GetTeam] refuses the empty name with [errMissingTeamName],
    whatever the world.  Under a context that is never done it refuses a
    name that no user carries with [ErrNotFound], without touching the
    world, and otherwise returns the team under that name: its members are
    exactly the users stored with this team name, each with its id, name
    and activity flag, in ascending order of the ids. *)
Theorem GetTeam_lists_team w name :
  (name = "" → GetTeam name w = Fail errMissingTeamName w)
  ∧ (polls_left (ctx w) = None → name ≠ "" →
     (∀ u, u ∈ users (db w) → User.TeamName u ≠ name) →
     GetTeam name w = Fail ErrNotFound w)
  ∧ (polls_left (ctx w) = None → name ≠ "" →
     (∃ u, u ∈ users (db w) ∧ User.TeamName u = name) →
     ∃ t, GetTeam name w = Return t w
       ∧ Team.TeamName t = name
       ∧ Sorted by_member_id (Team.Members t)
       ∧ ∀ m, m ∈ Team.Members t
              ↔ ∃ u, u ∈ users (db w) ∧ User.TeamName u = name ∧ m = as_member u).
Proof.
  split; [|split].
  - intros ->. done.
  - intros _ Hname Hno. apply String.eqb_neq in Hname.
    unfold GetTeam, validated, validateTeamName. rewrite Hname.
    unfold mbind, M_bind, query, mret, M_ret. cbn beta iota.
    by rewrite repo_GetTeam_missing.
  - intros _ Hname (u & Hin & Ht).
    destruct (repo_GetTeam_found _ _ _ Hin Ht) as [t Hget].
    exists t. split; [by apply GetTeam_eq|]. by apply repo_GetTeam_members.
Qed.


(** The witness of X2: team alpha is added to a database where a1 is
    already an active member of it. *)
Lemma AddTeam_registers_witness :
  ∃ w', AddTeam team_alpha (world db_cross []) = Return () w'
    ∧ "alpha" ∈ teams (db w')
    ∧ repo.GetUser (db w') "a1" = Ok (User.mk "a1" "Ann" "alpha" false)
    ∧ repo.GetUser (db w') "a2" = Ok (User.mk "a2" "Abe" "alpha" true)
    ∧ repo.GetUser (db w') "r1" = Ok (User.mk "r1" "Rob" "beta" true)
    ∧ pr_reviewers (db w') = [("pr-7", "r1")].
Proof.
  destruct (AddTeam_registers (world db_cross []) team_alpha eq_refl eq_refl)
    as (w' & Hrun & Hteam & Hlisted & Hother & _ & Hr & _).
  exists w'. split; [exact Hrun|]. split; [exact Hteam|].
  split; [apply (Hlisted (TeamMember.mk "a1" "Ann" false)); right; by left|].
  split; [apply (Hlisted (TeamMember.mk "a2" "Abe" true)); by left|].
  split; [|exact Hr].
  rewrite (Hother "r1"); [reflexivity|].
  intros Hin. vm_compute in Hin. by repeat apply elem_of_cons in Hin as [?|Hin];
    [..|apply elem_of_nil in Hin].
Defined.


(** X5: a team without members is stored and cannot be read.  Under a
    context that is never done, [AddTeam] of a named team with an empty
    member list returns without an error: the name is a row of [teams]
    afterwards, the only row that can be new, and the users, the pull
    requests and the reviewer rows are as before.  [GetTeam], which lists
    the users that carry the name, still fails with [ErrNotFound] when no
    user carried the name before. *)
Theorem AddTeam_without_members w name :
  polls_left (ctx w) = None →
  name ≠ "" →
  (∀ u, u ∈ users (db w) → User.TeamName u ≠ name) →
  ∃ w', AddTeam (Team.mk name []) w = Return () w'
    ∧ (∀ x, x ∈ teams (db w') ↔ x ∈ teams (db w) ∨ x = name)
    ∧ users (db w') = users (db w)
    ∧ pull_requests (db w') = pull_requests (db w)
    ∧ pr_reviewers (db w') = pr_reviewers (db w)
    ∧ GetTeam name w' = Fail ErrNotFound w'.
Proof.
  intros _ Hname Hno.
  assert (Hv : validateTeam (Team.mk name []) = None).
  { apply validateTeam_None. split; [done|constructor]. }
  eexists. split; [by apply AddTeam_eq|].
  cbn [add_log set_db db Team.TeamName].
  destruct (insert_team_frame (db w) name) as (Hu & Hp & Hr).
  split; [apply insert_team_elem|]. split; [exact Hu|]. split; [exact Hp|].
  split; [exact Hr|].
  apply String.eqb_neq in Hname.
  unfold GetTeam, validated, validateTeamName. rewrite Hname.
  unfold mbind, M_bind, query, mret, M_ret. cbn beta iota.
  rewrite repo_GetTeam_missing; [done|].
  intros u Hin. change (u ∈ users (repo.insert_team (db w) name)) in Hin.
  rewrite Hu in Hin. by apply Hno.
Qed.

(** The witness of X5: team gamma is added without members to a database
    with the teams alpha and beta. *)
Lemma AddTeam_without_members_witness :
  ∃ w', AddTeam (Team.mk "gamma" []) (world db_cross []) = Return () w'
    ∧ teams (db w') = ["alpha"; "beta"; "gamma"]
    ∧ users (db w') = users db_cross
    ∧ GetTeam "gamma" w' = Fail ErrNotFound w'.
Proof.
  destruct (AddTeam_without_members (world db_cross []) "gamma")
    as (w' & Hrun & _ & Hu & _ & _ & Hget); [reflexivity|discriminate| |].
  - intros u Hin. vm_compute in Hin.
    repeat apply elem_of_cons in Hin as [->|Hin]; [discriminate..|].
    by apply elem_of_nil in Hin.
  - exists w'. split; [exact Hrun|]. split; [|split; [exact Hu|exact Hget]].
    vm_compute in Hrun. by injection Hrun as <-.
Defined.

(** A lookup after an update of the activity flags. *)
Lemma GetUser_set_active on b d uid :
  repo.GetUser (repo.set_active on b d) uid
  = match repo.GetUser d uid with
    | Ok u => Ok (if on u then User.mk (User.UserID u) (User.Username u)
                                 (User.TeamName u) b
                  else u)
    | Err e => Err e
    end.
Proof.
  unfold repo.GetUser, repo.set_active. cbn [users]. rewrite find_fmap_same.
  - by destruct (find _ _).
  - intros x. unfold repo.by_user. by destruct (on x).
Qed.

(** X6: [SetUserActive] refuses the empty id with [errMissingUserID],
    whatever the world.  Under a context that is never done it refuses an id
    that is not stored with [ErrNotFound], without touching the world, and
    for a stored user it returns the user with the new activity flag, which
    is also what the id is looked up to afterwards; every other user, the
    pull requests and the reviewer rows are as before. *)
Theorem SetUserActive_sets w userID active :
  (userID = "" → SetUserActive userID active w = Fail errMissingUserID w)
  ∧ (polls_left (ctx w) = None → userID ≠ "" → has_user (db w) userID = false →
     SetUserActive userID active w = Fail ErrNotFound w)
  ∧ (polls_left (ctx w) = None → userID ≠ "" →
     ∀ u0, repo.GetUser (db w) userID = Ok u0 →
     ∃ w', SetUserActive userID active w
           = Return (User.mk userID (User.Username u0) (User.TeamName u0) active) w'
       ∧ repo.GetUser (db w') userID
         = Ok (User.mk userID (User.Username u0) (User.TeamName u0) active)
       ∧ (∀ other, other ≠ userID →
            repo.GetUser (db w') other = repo.GetUser (db w) other)
       ∧ pull_requests (db w') = pull_requests (db w)
       ∧ pr_reviewers (db w') = pr_reviewers (db w)).
Proof.
  split; [|split].
  - intros ->. done.
  - intros _ Hid Hno. apply String.eqb_neq in Hid.
    unfold SetUserActive, validated, validateUserID. rewrite Hid.
    unfold mbind, M_bind, exec, mret, M_ret, repo.UpdateUserActive. cbn beta iota.
    unfold has_user in Hno. unfold repo.by_user. rewrite Hno. cbn.
    by destruct w.
  - intros _ Hid u0 Hu0. pose proof Hu0 as [Hid0 Hin]%GetUser_Ok.
    assert (Hex : existsb (repo.by_user userID) (users (db w)) = true).
    { apply existsb_exists. exists u0. split; [by apply list_elem_of_In|].
      unfold repo.by_user. rewrite Hid0. apply String.eqb_refl. }
    assert (Hnew : repo.GetUser (repo.set_active (repo.by_user userID) active (db w)) userID
                   = Ok (User.mk userID (User.Username u0) (User.TeamName u0) active)).
    { rewrite GetUser_set_active, Hu0. unfold repo.by_user.
      rewrite Hid0, String.eqb_refl. done. }
    apply String.eqb_neq in Hid.
    eexists. split; [|split; [|split; [|split]]].
    + unfold SetUserActive, validated, validateUserID. rewrite Hid.
      unfold mbind, M_bind, exec, mret, M_ret, repo.UpdateUserActive. cbn beta iota.
      rewrite Hex. cbn [fst snd]. rewrite Hnew. reflexivity.
    + cbn [set_db db snd]. exact Hnew.
    + intros other Hne. cbn [set_db db snd]. rewrite GetUser_set_active.
      destruct (repo.GetUser (db w) other) as [u|] eqn:Hu; [|done].
      apply GetUser_Ok in Hu as [Hido _]. unfold repo.by_user.
      rewrite Hido. apply String.eqb_neq in Hne. by rewrite Hne.
    + done.
    + done.
Qed.

(** ** Computations that only read *)

Lemma read_only_ret {A} (a : A) : read_only (mret a : M A).
Proof. by intros w. Qed.

Lemma read_only_fail {A} e : read_only (fail e : M A).
Proof. by intros w. Qed.

Lemma read_only_bind {A B} (m : M A) (k : A → M B) :
  read_only m → (∀ a, read_only (k a)) → read_only (m ≫= k).
Proof.
  intros Hm Hk w. unfold mbind, M_bind. specialize (Hm w).
  destruct (m w) as [a w1|e w1| |]; [|done..].
  specialize (Hk a w1). destruct (k a w1); try done; destruct Hm, Hk; split; congruence.
Qed.

Lemma read_only_query {A} (f : DB → result A) : read_only (query f).
Proof. by intros w. Qed.

Lemma read_only_Log l m kvs : read_only (Log l m kvs).
Proof. by intros w. Qed.

Lemma read_only_Now : read_only Now.
Proof. by intros w. Qed.

Lemma read_only_ctx_poll : read_only ctx_poll.
Proof. intros w. unfold ctx_poll. by destruct (polls_left (ctx w)) as [[|n]|]. Qed.

Lemma read_only_cryptoRandInt n : read_only (cryptoRandInt n).
Proof.
  intros w. unfold cryptoRandInt. case_bool_decide; [done|]. by destruct (draws w).
Qed.

Lemma read_only_index {A} (l : list A) i : read_only (index l i).
Proof. intros w. unfold index. by destruct (l !! i). Qed.

Lemma read_only_try {A} (m : M A) : read_only m → read_only (try m).
Proof. intros Hm w. unfold try. specialize (Hm w). by destruct (m w). Qed.

Lemma read_only_for_range {A S} (l : list A) (body : S → A → M S) :
  (∀ s x, read_only (body s x)) → ∀ s, read_only (for_range l s body).
Proof.
  intros Hb. induction l as [|x l IH]; intros s; cbn [for_range].
  - apply read_only_ret.
  - apply read_only_bind; [apply Hb|]. intros s'. apply IH.
Qed.

Create HintDb ro.

#[export] Hint Resolve read_only_ret read_only_fail read_only_query read_only_Log
  read_only_Now read_only_ctx_poll read_only_cryptoRandInt read_only_index : ro.

(** Splits a computation along its binds and case distinctions and closes
    the parts that are known to read only. *)
Ltac ro :=
  repeat first
    [ solve [auto with ro]
    | apply read_only_bind; [|intros ?]
    | apply read_only_try
    | match goal with
      | |- read_only (match ?x with _ => _ end) => destruct x
      | |- read_only (let _ := _ in _) => cbn zeta
      end ].

Lemma read_only_check_ctx : read_only check_ctx.
Proof. unfold check_ctx. ro. Qed.

Lemma read_only_validated v : read_only (validated v).
Proof. unfold validated. ro. Qed.

Lemma read_only_log_and_return m kvs e : read_only (log_and_return m kvs e).
Proof. unfold log_and_return. ro. Qed.

Lemma read_only_not_found_or_log m kvs e : read_only (not_found_or_log m kvs e).
Proof. unfold not_found_or_log. ro. Qed.

Lemma read_only_or_return {A} (h : error → M error) (r : result A) :
  (∀ e, read_only (h e)) → read_only (or_return h r).
Proof. intros Hh. unfold or_return. destruct r; ro. Qed.

Lemma read_only_or_return_mret {A} (r : result A) : read_only (or_return mret r).
Proof. apply read_only_or_return. intros e. ro. Qed.

Lemma read_only_or_return_const {A} e (r : result A) :
  read_only (or_return (λ _, mret e) r).
Proof. apply read_only_or_return. intros ?. ro. Qed.

Lemma read_only_or_return_log {A} m kvs (r : result A) :
  read_only (or_return (log_and_return m kvs) r).
Proof. apply read_only_or_return, read_only_log_and_return. Qed.

Lemma read_only_or_return_nf {A} m kvs (r : result A) :
  read_only (or_return (not_found_or_log m kvs) r).
Proof. apply read_only_or_return, read_only_not_found_or_log. Qed.

#[export] Hint Resolve read_only_check_ctx read_only_validated read_only_log_and_return
  read_only_not_found_or_log read_only_or_return_mret read_only_or_return_const
  read_only_or_return_log read_only_or_return_nf : ro.

Lemma read_only_select_reviewers fuel : ∀ cands selected,
  read_only (select_reviewers fuel cands selected).
Proof.
  induction fuel as [|fuel IH]; intros cands selected; cbn [select_reviewers].
  - case_bool_decide; [done|ro].
  - case_bool_decide; [|ro].
    apply read_only_bind; [ro|intros _].
    apply read_only_bind; [ro|intros [idx|e]]; [|apply IH].
    apply read_only_bind; [ro|intros userID].
    apply read_only_bind; [ro|intros [user|e]]; [|apply IH].
    destruct (negb (User.IsActive user)); apply IH.
Qed.

Lemma read_only_pick avail : read_only (pick avail).
Proof. unfold pick. ro. Qed.

Lemma read_only_refresh_assigned pr : read_only (refresh_assigned pr).
Proof.
  unfold refresh_assigned. apply read_only_bind; [|intros l; ro].
  apply read_only_for_range. intros acc r. ro.
Qed.

Lemma read_only_GetTeam name : read_only (GetTeam name).
Proof. unfold GetTeam. ro. Qed.

#[export] Hint Resolve read_only_select_reviewers read_only_pick read_only_refresh_assigned
  read_only_GetTeam : ro.

Lemma read_only_Return {A} (m : M A) w a w' :
  read_only m → m w = Return a w' → db w' = db w ∧ clock w' = clock w.
Proof. intros Hm H. specialize (Hm w). by rewrite H in Hm. Qed.


Lemma read_only_select_all cands :
  read_only (λ w, select_reviewers (S (length (draws w))) cands [] w).
Proof. intros w. apply (read_only_select_reviewers _ _ _ w). Qed.

#[export] Hint Resolve read_only_select_all : ro.

(** ** CreatePR *)

Lemma CreatePR_run w pr created w' :
  CreatePR pr w = Return created w' →
  ∃ team cands selected,
    validatePullRequest pr = None
    ∧ has_pr (db w) (PullRequest.PullRequestID pr) = false
    ∧ repo.GetUserTeam (db w) (PullRequest.AuthorID pr) = Ok team
    ∧ repo.GetActiveTeamMembersExcept (db w) team (PullRequest.AuthorID pr) = Ok cands
    ∧ length selected ≤ maxReviewers
    ∧ (∀ x, x ∈ reviewer_ids selected → x ∈ cands)
    ∧ repo.CreatePR (db w) (stored_pr pr selected (clock w)) = (Ok (), db w')
    ∧ repo.GetPR (db w') (PullRequest.PullRequestID pr) = Ok created.
Proof.
  intros H. unfold CreatePR in H. minv.
  match goal with H : match repo.GetPR ?d ?i with _ => _ end _ = Return _ ?w1 |- _ =>
    destruct (repo.GetPR d i) as [?|e] eqn:Hget; [done|];
    assert (w1 = w) as -> by (destruct (is_not_found e); minv; done); clear H end.
  apply GetPR_Err in Hget.
  match goal with
  | H : (if bool_decide (0 < length ?c) then _ else _) w = Return ?sel ?w2 |- _ =>
    assert (db w2 = db w ∧ clock w2 = clock w) as [Hdb Hclk]
      by (eapply read_only_Return; [|exact H]; ro);
    assert (length sel ≤ maxReviewers ∧ ∀ x, x ∈ reviewer_ids sel → x ∈ c)
      as [Hlen Hsel];
    [ destruct (bool_decide (0 < length c));
      [ apply select_reviewers_inv in H as (_ & Hl & Hin); split;
        [apply Hl; simpl; unfold maxReviewers; lia|];
        intros y Hy; by destruct (Hin y Hy) as [[]%elem_of_nil|?]
      | minv; split; [simpl; lia|]; by intros ? ?%elem_of_nil ]
    | clear H; rename sel into selected, w2 into w1 ]
  end.
  rewrite Hdb, Hclk in *. fold (stored_pr pr selected (clock w)) in *.
  destruct (repo.CreatePR (db w) (stored_pr pr selected (clock w))) as [r d2] eqn:Hcreate.
  cbn [fst snd set_db db] in *.
  match goal with H : r = Ok ?u |- _ => destruct u; subst r end.
  match goal with
  | Ht : repo.GetUserTeam _ _ = Ok ?t,
    Hc : repo.GetActiveTeamMembersExcept _ _ _ = Ok ?c |- _ => exists t, c, selected
  end.
  split_and!; done.
Qed.

Lemma has_reviewer_elem d prID uid :
  has_reviewer d prID uid = true ↔ (prID, uid) ∈ pr_reviewers d.
Proof.
  unfold has_reviewer. rewrite existsb_exists. split.
  - intros ([p u] & Hin & He). apply andb_prop in He as [Hp Hu].
    apply String.eqb_eq in Hp, Hu. cbn in *. subst. by apply list_elem_of_In.
  - intros Hin. exists (prID, uid). split; [by apply list_elem_of_In|].
    cbn. by rewrite !String.eqb_refl.
Qed.

Lemma insert_reviewer_wf d prID uid d' :
  wf_db d → repo.insert_reviewer d prID uid = Ok d' → wf_db d'.
Proof.
  intros Hwf (Hnew & Hp & Hu & ->)%insert_reviewer_Ok. split; cbn.
  - apply Hwf.
  - apply Hwf.
  - apply NoDup_app. split; [apply Hwf|]. split; [|apply NoDup_singleton].
    intros rr Hin ->%list_elem_of_singleton. apply has_reviewer_elem in Hin. congruence.
  - intros rr [?| ->%list_elem_of_singleton]%elem_of_app; [by apply Hwf|done].
  - intros rr [?| ->%list_elem_of_singleton]%elem_of_app; [by apply Hwf|done].
  - apply Hwf.
Qed.

Lemma insert_reviewers_wf prID revs : ∀ d d',
  wf_db d → repo.insert_reviewers d prID revs = Ok d' → wf_db d'.
Proof.
  induction revs as [|r revs IH]; intros d d' Hwf; cbn [repo.insert_reviewers].
  - by intros [= <-].
  - destruct (repo.insert_reviewer d prID (PRReviewer.UserID r)) as [d1|e] eqn:E; [|done].
    apply IH. by eapply insert_reviewer_wf.
Qed.

Lemma has_pr_app d d' p :
  pull_requests d' = pull_requests d ++ [p] →
  ∀ prID, has_pr d prID = true → has_pr d' prID = true.
Proof.
  intros Hp prID. unfold has_pr. rewrite Hp, existsb_app. by intros ->.
Qed.

Lemma insert_pull_request_wf d pr d' :
  wf_db d → repo.insert_pull_request d pr = Ok d' → wf_db d'.
Proof.
  intros Hwf. unfold repo.insert_pull_request.
  destruct (has_pr d _) eqn:Hp; [done|].
  destruct (has_user d (PullRequest.AuthorID pr)) eqn:Hu; [|done]. cbn.
  intros [= <-]. split; cbn.
  - apply Hwf.
  - rewrite fmap_app. apply NoDup_app. split; [apply Hwf|]. split; [|apply NoDup_singleton].
    intros x Hx ->%list_elem_of_singleton.
    apply list_elem_of_fmap in Hx as (p & Hid & Hin).
    assert (has_pr d (PullRequest.PullRequestID pr) = true); [|congruence].
    apply has_pr_elem. eauto.
  - apply Hwf.
  - intros rr Hin. unfold has_pr. cbn. rewrite existsb_app.
    apply (reviewers_fk_pr _ Hwf) in Hin. unfold has_pr in Hin. by rewrite Hin.
  - apply Hwf.
  - intros p [?| ->%list_elem_of_singleton]%elem_of_app; [by apply Hwf|done].
Qed.

Lemma repo_CreatePR_wf d pr u d' :
  wf_db d → repo.CreatePR d pr = (Ok u, d') → wf_db d'.
Proof.
  intros Hwf. unfold repo.CreatePR.
  destruct (repo.insert_pull_request d pr) as [d1|e] eqn:E1; [|done].
  destruct (repo.insert_reviewers d1 _ _) as [d2|e] eqn:E2; [|done].
  intros [= _ <-]. eapply insert_reviewers_wf; [|exact E2]. by eapply insert_pull_request_wf.
Qed.

Lemma repo_CreatePR_Err d pr e d' : repo.CreatePR d pr = (Err e, d') → d' = d.
Proof.
  unfold repo.CreatePR. destruct (repo.insert_pull_request d pr) as [d1|e1]; [|by intros [= _ <-]].
  destruct (repo.insert_reviewers d1 _ _) as [d2|e2]; [done|by intros [= _ <-]].
Qed.

(** What [GetPR] finds right after [repo.CreatePR]. *)
Lemma GetPR_created d pr u d' :
  repo.CreatePR d pr = (Ok u, d') →
  repo.GetPR d' (PullRequest.PullRequestID pr)
  = Ok (PullRequest.mk (PullRequest.PullRequestID pr) (PullRequest.PullRequestName pr)
          (PullRequest.AuthorID pr) (PullRequest.Status pr)
          (repo.reviewers_of d' (PullRequest.PullRequestID pr))
          (PullRequest.NeedMoreReviewers pr) (PullRequest.CreatedAt pr) None).
Proof.
  intros (Hno & _ & Hps & _)%repo_CreatePR_Ok. unfold repo.GetPR.
  rewrite Hps, find_app_miss by done. unfold repo.by_pr, new_row. cbn.
  by rewrite String.eqb_refl.
Qed.

Lemma filter_rows_other prID other (revs : list PRReviewer.t) :
  other ≠ prID →
  filter (λ rr : string * string, rr.1 = other)
    ((λ r, (prID, PRReviewer.UserID r)) <$> revs) = [].
Proof.
  intros Hne. apply filter_none. intros rr (r & -> & _)%list_elem_of_fmap. cbn. congruence.
Qed.

Lemma GetPR_other_after_create d pr u d' other :
  repo.CreatePR d pr = (Ok u, d') → other ≠ PullRequest.PullRequestID pr →
  repo.GetPR d' other = repo.GetPR d other.
Proof.
  intros (_ & Hus & Hps & Hrs & _)%repo_CreatePR_Ok Hne.
  unfold repo.GetPR, repo.reviewers_of.
  rewrite Hps, Hus, Hrs, filter_app, filter_rows_other, app_nil_r by done.
  rewrite find_app_skip; [done|].
  unfold repo.by_pr, new_row. cbn. apply String.eqb_neq. congruence.
Qed.

(** The reviewers that [GetPR] lists: one per reviewer row and user row of
    the same id. *)
Lemma reviewers_of_elem d prID r :
  r ∈ repo.reviewers_of d prID
  ↔ ∃ u, u ∈ users d ∧ (prID, User.UserID u) ∈ pr_reviewers d ∧ r = as_reviewer u.
Proof.
  unfold repo.reviewers_of. rewrite order_by_perm, list_elem_of_bind. split.
  - intros ([p x] & (u & -> & [Hid Hu]%list_elem_of_filter)%list_elem_of_fmap
              & [Hp Hrr]%list_elem_of_filter).
    cbn in *. subst. exists u. done.
  - intros (u & Hu & Hrr & ->). exists (prID, User.UserID u). split.
    + apply list_elem_of_fmap. exists u. split; [done|]. by apply list_elem_of_filter.
    + by apply list_elem_of_filter.
Qed.

Lemma NoDup_reviewer_ids d prID :
  wf_db d → NoDup (reviewer_ids (repo.reviewers_of d prID)).
Proof.
  intros Hwf. rewrite reviewers_of_ids.
  - apply NoDup_fmap_2_strong; [|apply NoDup_filter, Hwf].
    intros [p1 u1] [p2 u2] [H1 _]%list_elem_of_filter [H2 _]%list_elem_of_filter.
    cbn in *. congruence.
  - apply Hwf.
  - intros rr [_ ?]%list_elem_of_filter. by apply Hwf.
Qed.

(** X7: what a successful [CreatePR] stores, on a database that satisfies
    the constraints of the schema.  The returned pull request is the one
    the new id is looked up to afterwards; it carries the id, name and
    author of the request, is OPEN, created at the time of the call and not
    merged.  Its reviewers are pairwise distinct, and each one is a user of
    the author's team who was active when the call started.  The users and
    every other pull request are as before, and the constraints of the
    schema still hold. *)
Theorem CreatePR_stores w pr created w' :
  wf_db (db w) →
  CreatePR pr w = Return created w' →
  repo.GetPR (db w') (PullRequest.PullRequestID pr) = Ok created
  ∧ created = PullRequest.mk (PullRequest.PullRequestID pr)
                (PullRequest.PullRequestName pr) (PullRequest.AuthorID pr) "OPEN"
                (PullRequest.Assigned created) (PullRequest.NeedMoreReviewers created)
                (clock w) None
  ∧ NoDup (reviewer_ids (PullRequest.Assigned created))
  ∧ (∀ r, r ∈ PullRequest.Assigned created →
       ∃ u team, u ∈ users (db w)
         ∧ repo.GetUserTeam (db w) (PullRequest.AuthorID pr) = Ok team
         ∧ User.TeamName u = team ∧ User.IsActive u = true ∧ r = as_reviewer u)
  ∧ users (db w') = users (db w)
  ∧ (∀ other, other ≠ PullRequest.PullRequestID pr →
       repo.GetPR (db w') other = repo.GetPR (db w) other)
  ∧ wf_db (db w').
Proof.
  intros Hwf (team & cands & selected & _ & Hno & Hteam & Hcands & _ & Hsel & Hcreate & Hget)
    %CreatePR_run.
  pose proof (repo_CreatePR_wf _ _ _ _ Hwf Hcreate) as Hwf'.
  pose proof (GetPR_created _ _ _ _ Hcreate) as Hget'.
  cbn [stored_pr PullRequest.PullRequestID PullRequest.PullRequestName
    PullRequest.AuthorID PullRequest.Status PullRequest.Assigned
    PullRequest.NeedMoreReviewers PullRequest.CreatedAt] in Hget'.
  rewrite Hget in Hget'. injection Hget' as ->. cbn [PullRequest.Assigned
    PullRequest.NeedMoreReviewers].
  pose proof Hcreate as (_ & Hus & _ & Hrs & _)%repo_CreatePR_Ok.
  cbn [stored_pr PullRequest.PullRequestID PullRequest.Assigned] in Hrs.
  split; [done|]. split; [done|]. split; [by apply NoDup_reviewer_ids|].
  split; [|split; [done|split; [|done]]].
  - intros r (u & Hu & Hrr & ->)%reviewers_of_elem.
    rewrite Hrs in Hrr. apply elem_of_app in Hrr as [Hold|Hnew].
    + apply (reviewers_fk_pr _ Hwf) in Hold. cbn in Hold. congruence.
    + apply list_elem_of_fmap in Hnew as (r0 & [= Hid] & Hr0).
      assert (Hc : User.UserID u ∈ cands).
      { apply Hsel. rewrite Hid. by apply list_elem_of_fmap_2. }
      destruct (active_member_elem _ _ _ _ _ Hcands Hc) as (u' & Hu' & Hid' & Ht & Ha).
      rewrite Hus in Hu.
      assert (u' = u) as ->
        by (apply (NoDup_fmap_eq User.UserID (users (db w))); [apply Hwf|done..]).
      exists u, team. done.
  - intros other Hne. by eapply GetPR_other_after_create.
Qed.

Lemma has_pr_GetPR d prID : has_pr d prID = true → ∃ pr, repo.GetPR d prID = Ok pr.
Proof.
  intros (p & Hin & Hid)%has_pr_elem. unfold repo.GetPR.
  destruct (find _ _) as [p'|] eqn:E; [eauto|].
  apply find_None_elem with (x := p) in E; [|done].
  unfold repo.by_pr in E. rewrite Hid, String.eqb_refl in E. done.
Qed.





Lemma NoDup_delete_lookup {A} (l : list A) i c :
  NoDup l → l !! i = Some c → (c ∉ delete i l) ∧ NoDup (delete i l).
Proof.
  intros Hnd Hi. rewrite <- (take_drop_middle l i c Hi) in Hnd.
  rewrite delete_take_drop.
  apply NoDup_app in Hnd as (H1 & H2 & [H4 H5]%NoDup_cons). split.
  - intros [Hin|Hin]%elem_of_app; [|done]. apply (H2 c Hin). by left.
  - apply NoDup_app. split; [done|]. split; [|done].
    intros x Hx Hx'. apply (H2 x Hx). by right.
Qed.

(** One turn of the selection loop under a live context, with a draw that
    succeeds on a candidate that is stored and active. *)
Lemma select_reviewers_step fuel cands selected w k ds :
  polls_left (ctx w) = None →
  draws w = Some k :: ds →
  length selected < maxReviewers → cands ≠ [] →
  (∀ c, c ∈ cands → ∃ u, repo.GetUser (db w) c = Ok u ∧ User.IsActive u = true) →
  ∃ c u, cands !! (k mod length cands) = Some c
    ∧ repo.GetUser (db w) c = Ok u
    ∧ select_reviewers (S fuel) cands selected w
      = select_reviewers fuel (delete (k mod length cands) cands)
          (selected ++ [as_reviewer u]) (after_draws 1 w).
Proof.
  intros Hctx Hd Hlen Hne Hact.
  assert (Hpos : 0 < length cands) by (destruct cands; [done|simpl; lia]).
  assert (Hlt : k mod length cands < length cands) by (apply Nat.mod_upper_bound; lia).
  destruct (lookup_lt_is_Some_2 _ _ Hlt) as [c Hc].
  destruct (Hact c) as (u & Hu & Ha); [by eapply list_elem_of_lookup_2|].
  exists c, u. split; [done|]. split; [done|].
  cbn [select_reviewers]. rewrite bool_decide_true by done.
  unfold mbind at 1, M_bind at 1. rewrite check_ctx_live by done.
  unfold mbind at 1, M_bind at 1, cryptoRandInt.
  rewrite bool_decide_false by lia. rewrite Hd.
  unfold mbind at 1, M_bind at 1, index. rewrite Hc.
  unfold mbind at 1, M_bind at 1, query. cbn [db]. rewrite Hu, Ha. cbn [negb].
  unfold after_draws. by rewrite Hd.
Qed.

(** Under a live context and with draws that succeed, the loop selects as
    many candidates as it can: distinct ones, in addition to those already
    selected. *)
Lemma select_reviewers_fills ks : ∀ fuel cands selected w rest,
  polls_left (ctx w) = None →
  draws w = (Some <$> ks) ++ rest →
  length selected ≤ maxReviewers →
  Nat.min (maxReviewers - length selected) (length cands) ≤ length ks →
  Nat.min (maxReviewers - length selected) (length cands) ≤ fuel →
  NoDup cands →
  (∀ c, c ∈ cands → ∃ u, repo.GetUser (db w) c = Ok u ∧ User.IsActive u = true) →
  ∃ extra w',
    select_reviewers fuel cands selected w = Return (selected ++ extra) w'
    ∧ length extra = Nat.min (maxReviewers - length selected) (length cands)
    ∧ NoDup (reviewer_ids extra)
    ∧ (∀ x, x ∈ reviewer_ids extra → x ∈ cands)
    ∧ db w' = db w ∧ clock w' = clock w.
Proof.
  unfold maxReviewers.
  induction ks as [|k ks IH]; intros fuel cands selected w rest Hctx Hd Hsel Hks Hfuel Hnd Hact.
  - assert (Hstop : ¬ (length selected < 2 ∧ 0 < length cands)) by (cbn in Hks; lia).
    exists [], w. rewrite app_nil_r. split.
    + destruct fuel; cbn [select_reviewers]; by rewrite bool_decide_false.
    + split; [cbn in *; lia|]. split; [constructor|]. split; [|done].
      by intros ? ?%elem_of_nil.
  - destruct (decide (length selected < 2 ∧ 0 < length cands)) as [[Hl Hc]|Hstop].
    + destruct fuel as [|fuel]; [lia|].
      assert (Hne : cands ≠ []) by (intros ->; cbn in Hc; lia).
      destruct (select_reviewers_step fuel cands selected w k ((Some <$> ks) ++ rest))
        as (c & u & Hcand & Hu & ->); [done..|].
      destruct (NoDup_delete_lookup _ _ _ Hnd Hcand) as [Hfresh Hnd'].
      assert (Hlen' : length (delete (k mod length cands) cands) = length cands - 1)
        by (apply length_delete; eauto).
      destruct (IH fuel (delete (k mod length cands) cands) (selected ++ [as_reviewer u])
                  (after_draws 1 w) rest) as (extra & w' & Hrun & Hn & Hnd2 & Hin & Hdb & Hclk).
      * done.
      * cbn. by rewrite Hd.
      * rewrite length_app. cbn. lia.
      * rewrite length_app, Hlen'. cbn in *. lia.
      * rewrite length_app, Hlen'. cbn in *. lia.
      * done.
      * intros c' Hc'. apply Hact. by eapply list_elem_of_delete_inv.
      * exists (as_reviewer u :: extra), w'.
        rewrite <- app_assoc in Hrun. split; [done|].
        rewrite length_app, Hlen' in Hn. cbn in Hn.
        apply GetUser_Ok in Hu as [Hid _].
        split; [cbn; lia|]. split; [|split; [|done]].
        -- unfold reviewer_ids. rewrite fmap_cons. apply NoDup_cons. split; [|done].
           cbn. rewrite Hid. intros Hx. by apply Hfresh, Hin.
        -- unfold reviewer_ids. rewrite fmap_cons. cbn. rewrite Hid.
           intros x [->|Hx]%elem_of_cons; [by eapply list_elem_of_lookup_2|].
           eapply list_elem_of_delete_inv. by apply Hin.
    + exists [], w. rewrite app_nil_r. split.
      * destruct fuel; cbn [select_reviewers]; by rewrite bool_decide_false.
      * split; [cbn; lia|]. split; [constructor|]. split; [|done].
        by intros ? ?%elem_of_nil.
Qed.

Lemma insert_reviewers_succeeds prID revs : ∀ d,
  has_pr d prID = true →
  NoDup (reviewer_ids revs) →
  (∀ r, r ∈ revs → has_user d (PRReviewer.UserID r) = true
                    ∧ has_reviewer d prID (PRReviewer.UserID r) = false) →
  ∃ d', repo.insert_reviewers d prID revs = Ok d'.
Proof.
  induction revs as [|r revs IH]; intros d Hp Hnd Hall; cbn [repo.insert_reviewers];
    [eauto|].
  unfold reviewer_ids in Hnd. rewrite fmap_cons in Hnd. apply NoDup_cons in Hnd as [Hfresh Hnd].
  destruct (Hall r) as [Hu Hr]; [by left|].
  unfold repo.insert_reviewer at 1. rewrite Hr, Hp, Hu. cbn [andb negb].
  apply IH; [done|done|]. intros r' Hin. destruct (Hall r') as [Hu' Hr']; [by right|].
  split; [done|]. apply not_true_is_false. intros Hrow%has_reviewer_elem. cbn in Hrow.
  apply elem_of_app in Hrow as [Hrow|[= Heq]%list_elem_of_singleton].
  - apply has_reviewer_elem in Hrow. congruence.
  - apply Hfresh. rewrite <- Heq. by apply list_elem_of_fmap_2.
Qed.

Lemma repo_CreatePR_succeeds d pr :
  wf_db d →
  has_pr d (PullRequest.PullRequestID pr) = false →
  has_user d (PullRequest.AuthorID pr) = true →
  NoDup (reviewer_ids (PullRequest.Assigned pr)) →
  (∀ r, r ∈ PullRequest.Assigned pr → has_user d (PRReviewer.UserID r) = true) →
  ∃ d', repo.CreatePR d pr = (Ok (), d').
Proof.
  intros Hwf Hno Hau Hnd Hall. unfold repo.CreatePR, repo.insert_pull_request.
  rewrite Hno, Hau. cbn [negb].
  match goal with |- context [repo.insert_reviewers ?d1 _ _] => set (d1' := d1) end.
  destruct (insert_reviewers_succeeds (PullRequest.PullRequestID pr)
              (PullRequest.Assigned pr) d1') as [d2 ->]; [| |  |eauto].
  - unfold has_pr. cbn. rewrite existsb_app. cbn. by rewrite String.eqb_refl, orb_true_r.
  - done.
  - intros r Hr. split; [by apply Hall|]. apply not_true_is_false.
    intros Hrow%has_reviewer_elem. cbn in Hrow.
    apply (reviewers_fk_pr _ Hwf) in Hrow. cbn in Hrow. congruence.
Qed.

Lemma created_reviewer_count d pr u d' :
  wf_db d → repo.CreatePR d pr = (Ok u, d') →
  length (repo.reviewers_of d' (PullRequest.PullRequestID pr))
  = length (PullRequest.Assigned pr).
Proof.
  intros Hwf Hcreate. pose proof (repo_CreatePR_wf _ _ _ _ Hwf Hcreate) as Hwf'.
  apply repo_CreatePR_Ok in Hcreate as (Hno & _ & _ & Hrs & _).
  rewrite reviewers_of_length.
  - unfold reviewer_rows. rewrite Hrs, filter_app.
    fold (reviewer_rows d (PullRequest.PullRequestID pr)).
    rewrite no_rows_without_pr by (done || apply Hwf). cbn [app].
    rewrite filter_all, length_fmap; [done|].
    by intros rr (r & -> & _)%list_elem_of_fmap.
  - apply Hwf'.
  - intros rr [_ ?]%list_elem_of_filter. by apply Hwf'.
Qed.

Lemma active_candidates_NoDup d team except cands :
  NoDup (User.UserID <$> users d) →
  repo.GetActiveTeamMembersExcept d team except = Ok cands → NoDup cands.
Proof.
  intros Hnd [= <-]. rewrite order_by_perm.
  induction (users d) as [|u l IH]; [constructor|].
  rewrite fmap_cons in Hnd. apply NoDup_cons in Hnd as [Hfresh Hnd].
  rewrite filter_cons. destruct (decide _); [|by apply IH].
  rewrite fmap_cons. apply NoDup_cons. split; [|by apply IH].
  intros (u' & Hid & [_ Hin]%list_elem_of_filter)%list_elem_of_fmap.
  apply Hfresh. rewrite Hid. by apply list_elem_of_fmap_2.
Qed.

(** X9: [CreatePR] assigns as many reviewers as it can.  On a database that
    satisfies the constraints of the schema, under a context that is never
    done and with two draws of the random source that succeed, a valid
    request with a new id and a stored author returns a pull request with
    two reviewers when the author's team has at least two other active
    members, and with all of them when it has fewer. *)
Theorem CreatePR_fills w pr team cands k1 k2 rest :
  wf_db (db w) →
  polls_left (ctx w) = None →
  draws w = Some k1 :: Some k2 :: rest →
  validatePullRequest pr = None →
  has_pr (db w) (PullRequest.PullRequestID pr) = false →
  repo.GetUserTeam (db w) (PullRequest.AuthorID pr) = Ok team →
  repo.GetActiveTeamMembersExcept (db w) team (PullRequest.AuthorID pr) = Ok cands →
  ∃ created w',
    CreatePR pr w = Return created w'
    ∧ length (PullRequest.Assigned created) = Nat.min maxReviewers (length cands)
    ∧ PullRequest.NeedMoreReviewers created = bool_decide (length cands < maxReviewers).
Proof.
  intros Hwf Hctx Hd Hval Hno Hteam Hcands.
  assert (Hact : ∀ c, c ∈ cands →
            ∃ u, repo.GetUser (db w) c = Ok u ∧ User.IsActive u = true).
  { intros c (u & Hu & <- & _ & Ha)%(active_member_elem _ _ _ _ _ Hcands).
    exists u. split; [|done]. apply GetUser_elem; [apply Hwf|done]. }
  assert (Hsel : ∃ selected w1,
    (if bool_decide (0 < length cands)
     then λ w, select_reviewers (S (length (draws w))) cands [] w
     else (mret [] : M (list PRReviewer.t))) w = Return selected w1
    ∧ length selected = Nat.min maxReviewers (length cands)
    ∧ NoDup (reviewer_ids selected)
    ∧ (∀ x, x ∈ reviewer_ids selected → x ∈ cands)
    ∧ db w1 = db w ∧ clock w1 = clock w).
  { case_bool_decide as Hc.
    - destruct (select_reviewers_fills [k1; k2] (S (length (draws w))) cands [] w rest)
        as (extra & w1 & Hrun & Hlen & Hnd & Hin & Hdb & Hclk);
        [done|by rewrite Hd|unfold maxReviewers; cbn [length]; lia
        |unfold maxReviewers; cbn [length]; lia
        |rewrite Hd; unfold maxReviewers; cbn [length]; lia
        |by eapply active_candidates_NoDup; [apply Hwf|]|done|].
      exists extra, w1. cbn [length] in Hlen. rewrite Nat.sub_0_r in Hlen. done.
    - exists [], w. split; [done|]. split; [unfold maxReviewers; cbn [length]; lia|].
      split; [constructor|]. split; [by intros ? ?%elem_of_nil|done]. }
  destruct Hsel as (selected & w1 & Hsel & Hlen & Hnd & Hin & Hdb & Hclk).
  destruct (repo_CreatePR_succeeds (db w) (stored_pr pr selected (clock w))) as [d' Hcreate];
    [done|done|by eapply GetUserTeam_has_user|done| |].
  { intros r Hr. destruct (Hact (PRReviewer.UserID r)) as (u & Hu & _).
    - apply Hin. by apply list_elem_of_fmap_2.
    - apply GetUser_Ok in Hu as [Hid Hu]. apply has_user_elem. eauto. }
  pose proof (GetPR_created _ _ _ _ Hcreate) as Hget.
  pose proof (created_reviewer_count _ _ _ _ Hwf Hcreate) as Hcount.
  cbn [stored_pr PullRequest.PullRequestID PullRequest.Assigned] in Hget, Hcount.
  eexists _, _. split; [|split].
  - unfold CreatePR. rewrite Hval.
    unfold mbind at 1, M_bind at 1, validated at 1, mret at 1, M_ret at 1.
    unfold mbind at 1, M_bind at 1, query at 1.
    rewrite (GetPR_missing _ _ Hno).
    unfold mbind at 1, M_bind at 1.
    change (is_not_found (Errorf "not found")) with true. cbn beta iota.
    unfold mret at 1, M_ret at 1.
    unfold mbind at 1, M_bind at 1, query at 1. rewrite Hteam.
    unfold mbind at 1, M_bind at 1, or_return at 1, mret at 1, M_ret at 1.
    unfold mbind at 1, M_bind at 1, query at 1. rewrite Hcands.
    unfold mbind at 1, M_bind at 1, or_return at 1, mret at 1, M_ret at 1.
    unfold mbind at 1, M_bind at 1.
    match goal with |- match ?m with _ => _ end = _ =>
      replace m with (Return selected w1) by (symmetry; exact Hsel) end.
    unfold mbind at 1, M_bind at 1, Now at 1. cbn zeta.
    rewrite Hclk. fold (stored_pr pr selected (clock w)).
    unfold mbind at 1, M_bind at 1, exec at 1. rewrite Hdb, Hcreate. cbn [fst snd].
    unfold mbind at 1, M_bind at 1, or_return at 1, mret at 1, M_ret at 1.
    unfold mbind at 1, M_bind at 1, query at 1. cbn [set_db db]. rewrite Hget.
    reflexivity.
  - cbn [PullRequest.Assigned]. by rewrite Hcount.
  - cbn [stored_pr PullRequest.NeedMoreReviewers]. rewrite Hlen.
    apply bool_decide_ext. unfold maxReviewers. lia.
Qed.

(** The witness of X7: [pr-1] is created for the team of the scenario. *)
Lemma CreatePR_stores_witness :
  ∃ created w',
    CreatePR new_pr (world db_team [Some 0]) = Return created w'
    ∧ repo.GetPR (db w') "pr-1" = Ok created
    ∧ PullRequest.Status created = "OPEN"
    ∧ PullRequest.CreatedAt created = 100%Z
    ∧ users (db w') = backend_users.
Proof.
  destruct (CreatePR new_pr (world db_team [Some 0])) as [created w'|? ?| |] eqn:Hrun;
    [|vm_compute in Hrun; discriminate..].
  destruct (CreatePR_stores (world db_team [Some 0]) new_pr created w')
    as (Hget & Hfields & _ & _ & Hus & _);
    [apply check_db_wf; vm_compute; reflexivity|exact Hrun|].
  exists created, w'. split; [reflexivity|]. split; [exact Hget|].
  rewrite Hfields. split; [reflexivity|]. split; [reflexivity|]. exact Hus.
Defined.

(** The witness of X9: two candidates give two reviewers, one candidate
    gives one. *)
Lemma CreatePR_fills_witness :
  (∃ created w',
     CreatePR new_pr (world db_team3 [Some 0; Some 0]) = Return created w'
     ∧ length (PullRequest.Assigned created) = 2
     ∧ PullRequest.NeedMoreReviewers created = false)
  ∧ (∃ created w',
       CreatePR new_pr (world db_team [Some 0; Some 0]) = Return created w'
       ∧ length (PullRequest.Assigned created) = 1
       ∧ PullRequest.NeedMoreReviewers created = true).
Proof.
  split.
  - apply (CreatePR_fills (world db_team3 [Some 0; Some 0]) new_pr "backend" ["u2"; "u3"]
             0 0 []);
      [apply check_db_wf; vm_compute; reflexivity|reflexivity..|vm_compute; reflexivity].
  - apply (CreatePR_fills (world db_team [Some 0; Some 0]) new_pr "backend" ["u2"]
             0 0 []);
      [apply check_db_wf; vm_compute; reflexivity|reflexivity..|vm_compute; reflexivity].
Defined.

(** ** MergePR *)

Lemma GetPR_merged_db d prID t pr :
  repo.GetPR d prID = Ok pr →
  repo.GetPR (merged_db d prID t) prID = Ok (merged_at_time pr t).
Proof.
  unfold merged_db, repo.MergePR, repo.GetPR. cbn [snd pull_requests].
  rewrite find_fmap_same.
  - destruct (find _ _) as [p|] eqn:E; [|done]. intros [= <-].
    apply find_Some_elem in E as [_ E]. cbn. by rewrite E.
  - intros p. unfold repo.by_pr.
    destruct (String.eqb (pull_request_id p) prID) eqn:E; cbn; by rewrite E.
Qed.

Lemma GetPR_merged_other d prID t other :
  other ≠ prID → repo.GetPR (merged_db d prID t) other = repo.GetPR d other.
Proof.
  intros Hne. unfold merged_db, repo.MergePR, repo.GetPR. cbn [snd pull_requests].
  rewrite find_fmap_same.
  - destruct (find _ _) as [p|] eqn:E; [|done].
    apply find_Some_elem in E as [_ E]. apply String.eqb_eq in E.
    assert (Hb : repo.by_pr prID p = false)
      by (unfold repo.by_pr; apply String.eqb_neq; congruence).
    cbn. by rewrite Hb.
  - intros p. unfold repo.by_pr.
    destruct (String.eqb (pull_request_id p) prID) eqn:E; cbn; done.
Qed.

(** X10: what [MergePR] does under a context that is never done.  On an id
    that is not stored it fails with [ErrNotFound] and leaves the world as
    it was.  On a stored pull request that is not yet merged it returns the
    pull request with status MERGED and the time of the call as merge time,
    every other field and the reviewers unchanged; this is also what the id
    is looked up to afterwards, and the users, the reviewer rows and all
    other pull requests stay as they were. *)
Theorem MergePR_stamps w prID :
  polls_left (ctx w) = None →
  (has_pr (db w) prID = false → MergePR prID w = Fail ErrNotFound w)
  ∧ (∀ pr0, repo.GetPR (db w) prID = Ok pr0 → PullRequest.Status pr0 ≠ "MERGED" →
     ∃ w1, MergePR prID w = Return (merged_at_time pr0 (clock w)) w1
       ∧ repo.GetPR (db w1) prID = Ok (merged_at_time pr0 (clock w))
       ∧ users (db w1) = users (db w)
       ∧ pr_reviewers (db w1) = pr_reviewers (db w)
       ∧ ∀ other, other ≠ prID → repo.GetPR (db w1) other = repo.GetPR (db w) other).
Proof.
  intros _. split.
  - intros Hno. unfold MergePR, mbind, M_bind, query. cbn beta iota.
    by rewrite (GetPR_missing _ _ Hno).
  - intros pr0 Hpr Hst. apply String.eqb_neq in Hst.
    pose proof (GetPR_merged_db _ _ (clock w) _ Hpr) as Hm.
    eexists. split; [|split; [|split; [|split]]].
    + unfold MergePR, mbind, M_bind, query, or_return, mret, M_ret, Now, exec.
      cbn beta iota. rewrite Hpr. cbn beta iota. rewrite Hst.
      change (repo.MergePR (db w) prID (clock w)).1
        with (repo.GetPR (merged_db (db w) prID (clock w)) prID).
      rewrite Hm. reflexivity.
    + exact Hm.
    + done.
    + done.
    + intros other Hne. by apply GetPR_merged_other.
Qed.

(** The witness of X10: [pr-9] is not stored; [pr-1], open and reviewed by
    u2, is merged at time 100. *)
Lemma MergePR_stamps_witness :
  MergePR "pr-9" (world db_backend []) = Fail ErrNotFound (world db_backend [])
  ∧ ∃ w1, MergePR "pr-1" (world db_backend [])
          = Return (merged_at_time (pr1_open true) 100) w1
      ∧ repo.GetPR (db w1) "pr-1" = Ok (merged_at_time (pr1_open true) 100)
      ∧ pr_reviewers (db w1) = [("pr-1", "u2")].
Proof.
  destruct (MergePR_stamps (world db_backend []) "pr-9" eq_refl) as [Hmiss _].
  destruct (MergePR_stamps (world db_backend []) "pr-1" eq_refl) as [_ Hm].
  split; [apply Hmiss; reflexivity|].
  destruct (Hm (pr1_open true)) as (w1 & Hrun & Hget & _ & Hr & _);
    [vm_compute; reflexivity|discriminate|].
  exists w1. split; [exact Hrun|]. split; [exact Hget|exact Hr].
Defined.

(** ** Reassign *)

Lemma ReplaceReviewer_frame d prID oldUID newUID r d2 :
  repo.ReplaceReviewer d prID oldUID newUID = (r, d2) →
  users d2 = users d ∧ pull_requests d2 = pull_requests d
  ∧ ∀ pr2, r = Ok pr2 → repo.GetPR d2 prID = Ok pr2.
Proof.
  unfold repo.ReplaceReviewer.
  set (d1 := if String.eqb oldUID "" then d else repo.delete_reviewer d prID oldUID).
  assert (H1 : users d1 = users d ∧ pull_requests d1 = pull_requests d)
    by (unfold d1; by destruct (String.eqb _ _)).
  destruct H1 as [Hu1 Hp1].
  destruct (if String.eqb newUID "" then Ok d1 else repo.insert_reviewer d1 prID newUID)
    as [d3|e'] eqn:E; [|by intros [= <- <-]].
  assert (H3 : users d3 = users d ∧ pull_requests d3 = pull_requests d).
  { destruct (String.eqb newUID ""); [by injection E as <-|].
    apply insert_reviewer_Ok in E as (_ & _ & _ & ->). done. }
  destruct (_ && _); [by intros [= <- <-]|].
  intros [= <- <-]. destruct H3. split; [done|]. split; [done|]. by intros pr2 ->.
Qed.





(** X12: what a successful [Reassign] does, on a database that satisfies
    the constraints of the schema.  The reviewer that is replaced and the
    replacement are both active users of the same team.  Only reviewer rows
    are written: the users and the rows of [pull_requests], with the stored
    [need_more_reviewers], are as before.  The pull request that is
    returned is the one its id is looked up to afterwards, with
    [NeedMoreReviewers] set on the returned copy from the number of its
    reviewers. *)
Theorem Reassign_replaces w prID oldUser pr' newUID w' :
  wf_db (db w) →
  Reassign prID oldUser w = Return (pr', newUID) w' →
  (∃ old new, repo.GetUser (db w) oldUser = Ok old ∧ repo.GetUser (db w) newUID = Ok new
     ∧ User.IsActive old = true ∧ User.IsActive new = true
     ∧ User.TeamName new = User.TeamName old)
  ∧ users (db w') = users (db w)
  ∧ pull_requests (db w') = pull_requests (db w)
  ∧ ∃ stored, repo.GetPR (db w') prID = Ok stored
      ∧ pr' = with_need_more stored
                (bool_decide (length (PullRequest.Assigned stored) < maxReviewers)).
Proof.
  intros Hwf (pr & u & w1 & Hpr & _ & Hold & Hu & Hact & Hpool & Hdb & Hc)%Reassign_Return_inv.
  cbn [snd] in *.
  apply Reassign_commit_inv in Hc as (nu & pr2 & Hnu & Hnact & Hrep & [= ->]).
  rewrite Hdb in *.
  apply ReplaceReviewer_frame in Hrep as (Hus & Hps & Hget).
  split; [|split; [done|split; [done|]]].
  - exists u, nu. split; [done|]. split; [done|]. split; [done|]. split; [done|].
    unfold candidate_pool in Hpool.
    destruct (repo.GetActiveTeamMembersExcept _ _ _) as [cands|] eqn:Hc;
      [|by apply elem_of_nil in Hpool].
    apply list_elem_of_filter in Hpool as [_ Hin].
    destruct (active_member_elem _ _ _ _ _ Hc Hin) as (u' & Hu' & Hid & Ht & _).
    apply GetUser_Ok in Hnu as [Hnid Hnin].
    assert (u' = nu) as ->; [|done].
    apply (NoDup_fmap_eq User.UserID (users (db w))); [apply Hwf|done|done|congruence].
  - exists pr2. split; [by apply Hget|done].
Qed.

(** The witness of X12: in the team of three, u2 is replaced by u3. *)
Lemma Reassign_replaces_witness :
  ∃ pr' w',
    Reassign "pr-1" "u2" (world db_backend3 [Some 3]) = Return (pr', "u3") w'
    ∧ users (db w') = users db_backend3
    ∧ pull_requests (db w') = pull_requests db_backend3.
Proof.
  destruct (Reassign "pr-1" "u2" (world db_backend3 [Some 3])) as [[pr' new] w'|? ?| |] eqn:Hrun;
    [|vm_compute in Hrun; discriminate..].
  assert (new = "u3") as -> by (vm_compute in Hrun; by injection Hrun as _ <- _).
  exists pr', w'. split; [reflexivity|].
  destruct (Reassign_replaces (world db_backend3 [Some 3]) "pr-1" "u2" pr' "u3" w')
    as (_ & Hus & Hps & _);
    [apply check_db_wf; vm_compute; reflexivity|exact Hrun|]. done.
Defined.


Lemma reviewer_row_assigned d prID pr u :
  repo.GetPR d prID = Ok pr → u ∈ users d → (prID, User.UserID u) ∈ pr_reviewers d →
  User.UserID u ∈ reviewer_ids (PullRequest.Assigned pr).
Proof.
  intros Hpr Hu Hrr. rewrite (GetPR_Assigned _ _ _ Hpr).
  apply list_elem_of_fmap. exists (as_reviewer u). split; [done|].
  apply reviewers_of_elem. eauto.
Qed.







(** ** DeactivateTeam *)

(** X15: what [DeactivateTeam] does when its context is never done.  For a
    team that exists it returns without an error; afterwards every user of
    the team is inactive and every other user is as before, and no row of
    [pull_requests] or of [pr_reviewers] has changed: the deactivated
    members stay on the pull requests they review, nobody is replaced. *)
Theorem DeactivateTeam_flips_only w teamName :
  polls_left (ctx w) = None →
  teamName ≠ "" →
  (∃ u, u ∈ users (db w) ∧ User.TeamName u = teamName) →
  ∃ w', DeactivateTeam teamName w = Return () w'
    ∧ (∀ uid u, repo.GetUser (db w) uid = Ok u →
         repo.GetUser (db w') uid = Ok (flip_user teamName u))
    ∧ pull_requests (db w') = pull_requests (db w)
    ∧ pr_reviewers (db w') = pr_reviewers (db w).
Proof.
  intros Hctx Hname (u & Hin & Ht).
  destruct (repo_GetTeam_found _ _ _ Hin Ht) as [team Hteam].
  eexists. split; [by apply DeactivateTeam_eq|]. cbn [add_log set_db db].
  split; [|done]. intros uid u0 Hu0. by apply deactivated_GetUser.
Qed.

Lemma DeactivateTeam_flips_only_witness :
  ∃ w', DeactivateTeam "backend" (world db_backend []) = Return () w'
    ∧ repo.GetUser (db w') "u1" = Ok (User.mk "u1" "Alice" "backend" false)
    ∧ pr_reviewers (db w') = [("pr-1", "u2")].
Proof.
  destruct (DeactivateTeam_flips_only (world db_backend []) "backend")
    as (w' & Hrun & Hflip & _ & Hrows); [reflexivity|discriminate| |].
  { exists (User.mk "u1" "Alice" "backend" true). split; [by left|reflexivity]. }
  exists w'. split; [exact Hrun|]. split; [|exact Hrows].
  apply (Hflip "u1" (User.mk "u1" "Alice" "backend" true)). reflexivity.
Defined.

(** X16: [DeactivateTeam] refuses the empty name with [errMissingTeamName],
    whatever the world, and, under a context that is never done, a name
    that no user carries with [ErrNotFound]; in both cases the world is left
    as it was. *)
Theorem DeactivateTeam_rejects w teamName :
  (teamName = "" → DeactivateTeam teamName w = Fail errMissingTeamName w)
  ∧ (polls_left (ctx w) = None → teamName ≠ "" →
     (∀ u, u ∈ users (db w) → User.TeamName u ≠ teamName) →
     DeactivateTeam teamName w = Fail ErrNotFound w).
Proof.
  split.
  - intros ->. done.
  - intros _ Hname Hno. apply String.eqb_neq in Hname.
    unfold DeactivateTeam, GetTeam, validated, validateTeamName. rewrite Hname.
    unfold mbind, M_bind, query, mret, M_ret. cbn beta iota.
    by rewrite repo_GetTeam_missing.
Qed.

Lemma flip_user_idem teamName u :
  flip_user teamName (flip_user teamName u) = flip_user teamName u.
Proof.
  unfold flip_user, repo.by_team.
  destruct (String.eqb (User.TeamName u) teamName) eqn:E; cbn; by rewrite E.
Qed.

Lemma deactivated_idem d teamName :
  deactivated (deactivated d teamName) teamName = deactivated d teamName.
Proof.
  unfold deactivated, repo.set_active. cbn [users pull_requests pr_reviewers]. f_equal.
  rewrite <- list_fmap_compose. apply list_fmap_ext. intros i u _. cbn.
  apply flip_user_idem.
Qed.

(** X18: deactivating a team twice is deactivating it once.  When the
    context is never done and a first [DeactivateTeam] returns, a second one
    returns as well and leaves the database as the first one left it. *)
Theorem DeactivateTeam_twice w teamName w1 :
  polls_left (ctx w) = None →
  DeactivateTeam teamName w = Return () w1 →
  ∃ w2, DeactivateTeam teamName w1 = Return () w2 ∧ db w2 = db w1.
Proof.
  intros Hctx Hrun.
  assert (Hname : teamName ≠ "") by (by intros ->).
  destruct (repo.GetTeam (db w) teamName) as [team|e] eqn:Hteam.
  2:{ exfalso. apply String.eqb_neq in Hname. revert Hrun.
      unfold DeactivateTeam, GetTeam, validated, validateTeamName. rewrite Hname.
      unfold mbind, M_bind, query, mret, M_ret. cbn beta iota. rewrite Hteam.
      cbn [or_return]. unfold mbind, M_bind, not_found_or_log, fail.
      destruct (is_not_found e); [done|]. by unfold mbind, M_bind, Log, mret, M_ret. }
  rewrite (DeactivateTeam_eq w teamName team Hctx Hname Hteam) in Hrun.
  injection Hrun as <-. cbn [add_log set_db db ctx].
  pose proof (GetTeam_has_member _ _ _ Hteam) as [Hex _].
  apply existsb_exists in Hex as (u & Hin%list_elem_of_In & Hu).
  destruct (repo_GetTeam_found (deactivated (db w) teamName) teamName (flip_user teamName u))
    as [team' Hteam'].
  { rewrite deactivated_users. by apply list_elem_of_fmap_2. }
  { unfold flip_user. rewrite Hu. by apply String.eqb_eq in Hu. }
  eexists. split; [by apply DeactivateTeam_eq|]. cbn [add_log set_db db].
  apply deactivated_idem.
Qed.

Lemma DeactivateTeam_twice_witness :
  ∃ w1 w2, DeactivateTeam "backend" (world db_backend []) = Return () w1
    ∧ DeactivateTeam "backend" w1 = Return () w2 ∧ db w2 = db w1.
Proof.
  destruct (DeactivateTeam "backend" (world db_backend [])) as [[] w1|? ?| |] eqn:Hrun;
    [|vm_compute in Hrun; discriminate..].
  destruct (DeactivateTeam_twice (world db_backend []) "backend" w1 eq_refl Hrun)
    as (w2 & Hrun2 & Hdb).
  exists w1, w2. done.
Defined.

(** ** Slices are indexed within their bounds *)

Lemma no_panic_ret {A} (a : A) : no_panic (mret a : M A).
Proof. by intros w. Qed.

Lemma no_panic_fail {A} e : no_panic (fail e : M A).
Proof. by intros w. Qed.

(** A bind whose second part is safe on the values the first part can
    return. *)
Lemma no_panic_bind_post {A B} (P : A → Prop) (m : M A) (k : A → M B) :
  (∀ w a w', m w = Return a w' → P a) →
  no_panic m → (∀ a, P a → no_panic (k a)) → no_panic (m ≫= k).
Proof.
  intros HP Hm Hk w. unfold mbind, M_bind. specialize (Hm w).
  destruct (m w) as [a w1|e w1| |] eqn:E; [|done..]. apply Hk. by eapply HP.
Qed.

Lemma no_panic_bind {A B} (m : M A) (k : A → M B) :
  no_panic m → (∀ a, no_panic (k a)) → no_panic (m ≫= k).
Proof. intros Hm Hk. apply (no_panic_bind_post (λ _, True)); auto. Qed.

Lemma no_panic_query {A} (f : DB → result A) : no_panic (query f).
Proof. by intros w. Qed.

Lemma no_panic_exec {A} (f : DB → result A * DB) : no_panic (exec f).
Proof. by intros w. Qed.

Lemma no_panic_Log l m kvs : no_panic (Log l m kvs).
Proof. by intros w. Qed.

Lemma no_panic_Now : no_panic Now.
Proof. by intros w. Qed.

Lemma no_panic_ctx_poll : no_panic ctx_poll.
Proof. intros w. unfold ctx_poll. by destruct (polls_left (ctx w)) as [[|n]|]. Qed.

Lemma no_panic_cryptoRandInt n : no_panic (cryptoRandInt n).
Proof. intros w. unfold cryptoRandInt. case_bool_decide; [done|]. by destruct (draws w). Qed.

Lemma no_panic_index {A} (l : list A) i : i < length l → no_panic (index l i).
Proof.
  intros Hi w. unfold index. by destruct (lookup_lt_is_Some_2 _ _ Hi) as [a ->].
Qed.

Lemma no_panic_try {A} (m : M A) : no_panic m → no_panic (try m).
Proof. intros Hm w. unfold try. specialize (Hm w). by destruct (m w). Qed.

Lemma no_panic_for_range {A S} (l : list A) (body : S → A → M S) :
  (∀ s x, no_panic (body s x)) → ∀ s, no_panic (for_range l s body).
Proof.
  intros Hb. induction l as [|x l IH]; intros s; cbn [for_range].
  - apply no_panic_ret.
  - apply no_panic_bind; [apply Hb|]. intros s'. apply IH.
Qed.

Create HintDb np.

#[export] Hint Resolve no_panic_ret no_panic_fail no_panic_query no_panic_exec no_panic_Log
  no_panic_Now no_panic_ctx_poll no_panic_cryptoRandInt : np.

(** Splits a computation along its binds and case distinctions and closes
    the parts that are known not to panic. *)
Ltac np :=
  repeat first
    [ solve [auto with np]
    | apply no_panic_bind; [|intros ?]
    | apply no_panic_try
    | apply no_panic_for_range; intros ? ?
    | match goal with
      | |- no_panic (match ?x with _ => _ end) => destruct x
      | |- no_panic (let _ := _ in _) => cbn zeta
      end ].

Lemma no_panic_check_ctx : no_panic check_ctx.
Proof. unfold check_ctx. np. Qed.

Lemma no_panic_validated v : no_panic (validated v).
Proof. unfold validated. np. Qed.

Lemma no_panic_log_and_return m kvs e : no_panic (log_and_return m kvs e).
Proof. unfold log_and_return. np. Qed.

Lemma no_panic_not_found_or_log m kvs e : no_panic (not_found_or_log m kvs e).
Proof. unfold not_found_or_log. np. Qed.

Lemma no_panic_or_return {A} (h : error → M error) (r : result A) :
  (∀ e, no_panic (h e)) → no_panic (or_return h r).
Proof. intros Hh. unfold or_return. destruct r; np. Qed.

Lemma no_panic_or_return_mret {A} (r : result A) : no_panic (or_return mret r).
Proof. apply no_panic_or_return. intros e. np. Qed.

Lemma no_panic_or_return_const {A} e (r : result A) :
  no_panic (or_return (λ _, mret e) r).
Proof. apply no_panic_or_return. intros ?. np. Qed.

Lemma no_panic_or_return_log {A} m kvs (r : result A) :
  no_panic (or_return (log_and_return m kvs) r).
Proof. apply no_panic_or_return, no_panic_log_and_return. Qed.

Lemma no_panic_or_return_nf {A} m kvs (r : result A) :
  no_panic (or_return (not_found_or_log m kvs) r).
Proof. apply no_panic_or_return, no_panic_not_found_or_log. Qed.

#[export] Hint Resolve no_panic_check_ctx no_panic_validated no_panic_log_and_return
  no_panic_not_found_or_log no_panic_or_return_mret no_panic_or_return_const
  no_panic_or_return_log no_panic_or_return_nf : np.

(** The index that [cryptoRandInt] returns is within the bound asked for. *)
Lemma cryptoRandInt_bound n w r w' :
  cryptoRandInt n w = Return r w' → ∀ idx, r = Ok idx → idx < n.
Proof. by intros (_ & _ & _ & _ & H)%cryptoRandInt_inv. Qed.

Lemma no_panic_select_reviewers fuel : ∀ cands selected,
  no_panic (select_reviewers fuel cands selected).
Proof.
  induction fuel as [|fuel IH]; intros cands selected; cbn [select_reviewers].
  - case_bool_decide; [done|np].
  - case_bool_decide; [|np].
    apply no_panic_bind; [np|intros _].
    apply (no_panic_bind_post (λ r, ∀ idx, r = Ok idx → idx < length cands));
      [apply cryptoRandInt_bound|np|].
    intros [idx|e] Hidx; [|apply IH].
    apply no_panic_bind; [apply no_panic_index; by apply Hidx|intros userID].
    apply no_panic_bind; [np|intros [user|e]]; [|apply IH].
    destruct (negb (User.IsActive user)); apply IH.
Qed.

Lemma no_panic_pick avail : no_panic (pick avail).
Proof.
  unfold pick. apply no_panic_bind; [np|intros _].
  apply (no_panic_bind_post (λ r, ∀ idx, r = Ok idx → idx < length avail));
    [apply cryptoRandInt_bound|np|].
  intros r Hr.
  apply (no_panic_bind_post (λ idx, idx < length avail)); [|np|].
  - intros w idx w' [-> _]%or_return_inv. by apply Hr.
  - intros idx Hidx. by apply no_panic_index.
Qed.

Lemma no_panic_select_all cands :
  no_panic (λ w, select_reviewers (S (length (draws w))) cands [] w).
Proof. intros w. apply (no_panic_select_reviewers _ _ _ w). Qed.

#[export] Hint Resolve no_panic_select_reviewers no_panic_select_all no_panic_pick : np.

Lemma no_panic_refresh_assigned pr : no_panic (refresh_assigned pr).
Proof. unfold refresh_assigned. np. Qed.

Lemma no_panic_GetTeam name : no_panic (GetTeam name).
Proof. unfold GetTeam. np. Qed.

Lemma no_panic_SetUserActive userID active : no_panic (SetUserActive userID active).
Proof. unfold SetUserActive. np. Qed.

Lemma no_panic_GetPRsByReviewer userID : no_panic (GetPRsByReviewer userID).
Proof. unfold GetPRsByReviewer. np. Qed.

Lemma no_panic_AddTeam team : no_panic (AddTeam team).
Proof. unfold AddTeam. np. Qed.

Lemma no_panic_CreatePR pr : no_panic (CreatePR pr).
Proof. unfold CreatePR. np. Qed.

Lemma no_panic_MergePR prID : no_panic (MergePR prID).
Proof. unfold MergePR. np. Qed.

Lemma no_panic_Reassign_commit prID oldUser newUID :
  no_panic (Reassign_commit prID oldUser newUID).
Proof. unfold Reassign_commit. np. Qed.

#[export] Hint Resolve no_panic_refresh_assigned no_panic_GetTeam no_panic_Reassign_commit : np.

Lemma no_panic_Reassign prID oldUser : no_panic (Reassign prID oldUser).
Proof. unfold Reassign. np. Qed.

Lemma no_panic_reassignReviewer prID oldUID teamName :
  no_panic (reassignReviewer prID oldUID teamName).
Proof. unfold reassignReviewer. np. Qed.

#[export] Hint Resolve no_panic_reassignReviewer : np.

Lemma no_panic_replace_if_inactive pr teamName updated rev :
  no_panic (replace_if_inactive pr teamName updated rev).
Proof. unfold replace_if_inactive. np. Qed.

#[export] Hint Resolve no_panic_replace_if_inactive : np.

Lemma no_panic_cleanup_pr teamName prShort : no_panic (cleanup_pr teamName prShort).
Proof. unfold cleanup_pr. np. Qed.

#[export] Hint Resolve no_panic_cleanup_pr : np.

Lemma no_panic_cleanup_member teamName member : no_panic (cleanup_member teamName member).
Proof. unfold cleanup_member. np. Qed.

#[export] Hint Resolve no_panic_cleanup_member : np.

Lemma no_panic_DeactivateTeam teamName : no_panic (DeactivateTeam teamName).
Proof. unfold DeactivateTeam. np. Qed.

Lemma no_fail_handleJob job : no_fail (handleJob job).
Proof.
  intros w e w'. unfold handleJob, mbind at 1, M_bind at 1.
  unfold ctx_poll at 1.
  destruct (polls_left (ctx w)) as [[|n]|]; [done| |];
    cbn zeta; unfold unknown;
    repeat match goal with
    | |- (if ?b then _ else _) _ ≠ _ => destruct b
    | |- (match ?x with _ => _ end) _ ≠ _ => destruct x
    end; try done;
    unfold mbind, M_bind, try;
    match goal with |- match (match ?m with _ => _ end) with _ => _ end ≠ _ =>
      by destruct m end.
Qed.

(** X19: no method of the service panics.  Every index into a slice of
    candidates comes from [cryptoRandInt] called with the length of that
    slice, so [CreatePR], [Reassign] and [DeactivateTeam] stay within
    bounds; the other methods do not index at all.  [handleJob] therefore
    never panics, whatever the job, the payload and the state, and it never
    leaves with an error either: the error of the method it calls is part
    of the [JobResult]. *)
Theorem service_never_panics :
  (∀ team, no_panic (AddTeam team))
  ∧ (∀ name, no_panic (GetTeam name))
  ∧ (∀ userID active, no_panic (SetUserActive userID active))
  ∧ (∀ pr, no_panic (CreatePR pr))
  ∧ (∀ prID, no_panic (MergePR prID))
  ∧ (∀ prID oldUser, no_panic (Reassign prID oldUser))
  ∧ (∀ userID, no_panic (GetPRsByReviewer userID))
  ∧ (∀ teamName, no_panic (DeactivateTeam teamName))
  ∧ (∀ job, no_panic (handleJob job) ∧ no_fail (handleJob job)).
Proof.
  split_and!.
  - apply no_panic_AddTeam.
  - apply no_panic_GetTeam.
  - apply no_panic_SetUserActive.
  - apply no_panic_CreatePR.
  - apply no_panic_MergePR.
  - apply no_panic_Reassign.
  - apply no_panic_GetPRsByReviewer.
  - apply no_panic_DeactivateTeam.
  - intros job. split; [|apply no_fail_handleJob].
    unfold handleJob, unknown. np;
      first [ apply no_panic_CreatePR | apply no_panic_MergePR | apply no_panic_Reassign
            | apply no_panic_SetUserActive | apply no_panic_GetPRsByReviewer
            | apply no_panic_DeactivateTeam ].
Qed.

(** ** The queue of the dispatcher *)

Lemma with_buf_same s : with_buf s (buf (jobs s)) = s.
Proof. by destruct s as [[] ? ? ?]. Qed.

(** X20: the queue takes the jobs in the order of their submission, up to
    its capacity.  While the service runs, the queue is open and no worker
    waits to receive, jobs that still fit are appended to the buffer one
    after the other; nothing is logged and no reply is sent. *)
Theorem EnqueueJob_fills_queue s l :
  stopped s = false →
  closed (jobs s) = false →
  receivers (jobs s) = 0 →
  length (buf (jobs s)) + length l ≤ cap (jobs s) →
  enqueue_all s l = Proceed (with_buf s (buf (jobs s) ++ l)).
Proof.
  revert s. induction l as [|job l IH]; intros s Hrun Hopen Hrecv Hroom.
  - unfold enqueue_all. cbn [foldl]. by rewrite app_nil_r, with_buf_same.
  - cbn [length] in Hroom. unfold enqueue_all. cbn [foldl].
    assert (Hstep : EnqueueJob s job = Proceed (with_buf s (buf (jobs s) ++ [job]))).
    { unfold EnqueueJob, select_send, try_send. rewrite Hrun, Hopen, Hrecv.
      rewrite bool_decide_false by lia. rewrite bool_decide_true by lia.
      unfold with_buf. by rewrite Hrun, Hopen, Hrecv. }
    rewrite Hstep. fold (enqueue_all (with_buf s (buf (jobs s) ++ [job])) l).
    rewrite IH; cbn [with_buf jobs stopped buf cap closed receivers]; try done.
    + unfold with_buf. cbn. by rewrite <- app_assoc.
    + rewrite length_app. cbn. lia.
Qed.

(** Three jobs on an empty queue of two hundred: all queued, in order. *)
Lemma EnqueueJob_fills_queue_witness :
  enqueue_all svc_busy [job_get_team None; job_no_id; job_bad_id]
  = Proceed (with_buf svc_busy [job_get_team None; job_no_id; job_bad_id]).
Proof.
  apply (EnqueueJob_fills_queue svc_busy [job_get_team None; job_no_id; job_bad_id]);
    [reflexivity..|]. unfold svc_busy, jobQueueSize. cbn. lia.
Defined.

Lemma EnqueueJob_stopped s job :
  stopped s = true → replies_open s →
  ∃ s2, EnqueueJob s job = Proceed s2
    ∧ jobs s2 = jobs s ∧ stopped s2 = true ∧ svc_log s2 = svc_log s ∧ replies_open s2.
Proof.
  intros Hs Hopen. unfold EnqueueJob. rewrite Hs. unfold reply.
  destruct (RespCh job ≫= _) as [[ch c]|] eqn:Hch; [|by exists s].
  assert (Hc : chans s !! ch = Some c).
  { destruct (RespCh job) as [ch'|]; [|done]. cbn in Hch.
    destruct (chans s !! ch') as [c'|] eqn:E; [|done]. cbn in Hch. by simplify_eq. }
  unfold select_send, try_send. rewrite (Hopen _ _ Hc).
  repeat case_bool_decide; [| |by exists s]; (eexists; split; [reflexivity|]);
    (split; [done|split; [done|split; [done|]]]);
    intros ch2 c2; cbn [chans];
    (destruct (decide (ch = ch2)) as [->|Hne];
      [rewrite lookup_insert_eq; by intros [= <-]
      |rewrite lookup_insert_ne by done; apply Hopen]).
Qed.

(** X21: a shutdown is final.  Once [stopped] is closed, which is the first
    thing [StopWorkers] does, no submission reaches the queue any more:
    whatever jobs are submitted, in whatever number, each call of
    [EnqueueJob] returns without touching the queue or the log, so none of
    them panics on the closed queue (the reply channels being open); and
    [StopWorkers] called again panics at its first statement, as closing a
    closed channel does. *)
Theorem shutdown_is_final s l :
  stopped s = true →
  replies_open s →
  ∃ s', enqueue_all s l = Proceed s'
    ∧ stopped s' = true
    ∧ jobs s' = jobs s
    ∧ svc_log s' = svc_log s
    ∧ close_channels s' = Crash.
Proof.
  revert s. induction l as [|job l IH]; intros s Hs Ho.
  - exists s. unfold enqueue_all, close_channels. cbn [foldl]. by rewrite Hs.
  - destruct (EnqueueJob_stopped s job Hs Ho) as (s2 & Hrun & Hj2 & Hs2 & Hl2 & Ho2).
    unfold enqueue_all. cbn [foldl]. rewrite Hrun. fold (enqueue_all s2 l).
    destruct (IH s2 Hs2 Ho2) as (s' & Hrun' & Hs' & Hj' & Hl' & Hc').
    exists s'. by rewrite Hj', Hl'.
Qed.

(** A stopped service with a closed queue: three more submissions change
    neither the queue nor the log, and a second shutdown panics. *)
Lemma shutdown_is_final_witness :
  ∃ s', enqueue_all (svc_stopped reply_empty) [job_get_team (Some 7); job_no_id; job_bad_id]
        = Proceed s'
    ∧ stopped s' = true
    ∧ jobs s' = jobs (svc_stopped reply_empty)
    ∧ svc_log s' = []
    ∧ close_channels s' = Crash.
Proof.
  apply (shutdown_is_final (svc_stopped reply_empty)
           [job_get_team (Some 7); job_no_id; job_bad_id]); [reflexivity|].
  intros ch c Hc. cbn [chans svc_stopped] in Hc. apply lookup_singleton_Some in Hc as [_ <-].
  reflexivity.
Defined.

(** ** Queries of the repository *)

(** X22: [GetActiveTeamMembersExcept] never fails.  It lists, in ascending
    order and without repetition when the ids are unique, the ids of the
    active users of the team, leaving out [exceptUser]; an empty
    [exceptUser] leaves nobody out, not even a user whose id is empty. *)
Theorem GetActiveTeamMembersExcept_lists d teamName exceptUser :
  ∃ cands, repo.GetActiveTeamMembersExcept d teamName exceptUser = Ok cands
    ∧ Sorted by_id cands
    ∧ (NoDup (User.UserID <$> users d) → NoDup cands)
    ∧ ∀ c, c ∈ cands
           ↔ ∃ u, u ∈ users d ∧ User.UserID u = c ∧ User.TeamName u = teamName
                  ∧ User.IsActive u = true ∧ (exceptUser = "" ∨ c ≠ exceptUser).
Proof.
  eexists. split; [reflexivity|]. split; [|split].
  - apply Sorted_merge_sort. intros a b.
    destruct (String.leb_total a b) as [H|H]; [left|right]; by apply Is_true_true.
  - intros Hnd. by eapply active_candidates_NoDup.
  - intros c. rewrite order_by_perm, list_elem_of_fmap. split.
    + intros (u & -> & [Hf Hin]%list_elem_of_filter). exists u.
      apply Is_true_true in Hf. apply andb_prop in Hf as [Hf He].
      apply andb_prop in Hf as [Ht Ha]. apply String.eqb_eq in Ht.
      split; [done|]. split; [done|]. split; [done|]. split; [done|].
      apply orb_prop in He as [He|He].
      * left. by apply String.eqb_eq in He.
      * right. by apply negb_true_iff, String.eqb_neq in He.
    + intros (u & Hin & <- & Ht & Ha & He). exists u. split; [done|].
      apply list_elem_of_filter. split; [|done]. apply Is_true_true.
      apply String.eqb_eq in Ht. rewrite Ht, Ha. cbn [andb].
      destruct He as [->|He]; [done|].
      apply String.eqb_neq in He. rewrite He. apply orb_true_r.
Qed.





(** ** Reviewer rows: AddReviewer, CleanupInactiveReviewers, GetReviewerStats *)

Lemma GetPR_same_rows d d' prID :
  users d' = users d → pull_requests d' = pull_requests d →
  reviewer_rows d' prID = reviewer_rows d prID →
  repo.GetPR d' prID = repo.GetPR d prID.
Proof.
  intros Hu Hp Hr. unfold repo.GetPR, repo.reviewers_of.
  fold (reviewer_rows d' prID) (reviewer_rows d prID). by rewrite Hu, Hp, Hr.
Qed.

(** X25: [CleanupInactiveReviewers] never fails.  On a database that
    satisfies the constraints of the schema it removes from one pull request
    exactly the reviewers that are inactive: afterwards the pull request
    lists the reviewers it listed before that are active; the users, the
    rows of [pull_requests] and every other pull request are as before. *)
Theorem CleanupInactiveReviewers_keeps_active d prID :
  wf_db d →
  ∃ d', repo.CleanupInactiveReviewers d prID = (Ok (), d')
    ∧ users d' = users d
    ∧ pull_requests d' = pull_requests d
    ∧ (∀ r, r ∈ repo.reviewers_of d' prID
            ↔ r ∈ repo.reviewers_of d prID ∧ PRReviewer.IsActive r = true)
    ∧ (∀ other, other ≠ prID → repo.GetPR d' other = repo.GetPR d other).
Proof.
  intros Hwf. eexists. split; [reflexivity|]. cbn [users pull_requests].
  split; [done|]. split; [done|]. split.
  - intros r. rewrite !reviewers_of_elem. cbn [users pr_reviewers]. split.
    + intros (u & Hu & [Hkeep Hrr]%list_elem_of_filter & ->). split; [by exists u|].
      cbn. destruct (User.IsActive u) eqn:Ha; [done|]. exfalso. apply Hkeep.
      split; [done|]. cbn. apply list_elem_of_fmap_2. by apply list_elem_of_filter.
    + intros [(u & Hu & Hrr & ->) Ha]. exists u. split; [done|]. split; [|done].
      apply list_elem_of_filter. split; [|done]. cbn.
      intros [_ (u' & Hid & [Hina Hu']%list_elem_of_filter)%list_elem_of_fmap].
      assert (u' = u) as ->
        by (apply (NoDup_fmap_eq User.UserID (users d)); [apply Hwf|done..]).
      cbn in Ha. congruence.
  - intros other Hne. apply GetPR_same_rows; [done..|].
    unfold reviewer_rows. cbn [pr_reviewers]. rewrite list_filter_filter.
    apply list_filter_iff. intros [p u]. cbn. split; [by intros [? _]|].
    intros ->. split; [done|]. by intros [? _].
Qed.

(** In the scenario of the specification, after u2 has become inactive:
    the cleanup leaves [pr-1] without a reviewer. *)
Lemma CleanupInactiveReviewers_keeps_active_witness :
  ∃ d', repo.CleanupInactiveReviewers db_origin_inactive "pr-1" = (Ok (), d')
    ∧ pr_reviewers d' = []
    ∧ ∀ r, r ∈ repo.reviewers_of d' "pr-1" → PRReviewer.IsActive r = true.
Proof.
  destruct (CleanupInactiveReviewers_keeps_active db_origin_inactive "pr-1")
    as (d' & Hrun & _ & _ & Hrev & _); [apply check_db_wf; vm_compute; reflexivity|].
  exists d'. split; [exact Hrun|]. split.
  - vm_compute in Hrun. injection Hrun as <-. reflexivity.
  - intros r Hr. by apply Hrev in Hr as [_ ?].
Defined.

(** X26: [AddReviewer] adds one reviewer row or nothing.  It succeeds when
    the pull request and the user are stored and the user does not review
    the pull request yet: it then returns the pull request with the user
    among its reviewers, one more than before on a database that satisfies
    the constraints of the schema, however many there were.  Otherwise it
    fails and the database is as before. *)
Theorem AddReviewer_adds d prID userID :
  (has_pr d prID = true → has_user d userID = true →
   has_reviewer d prID userID = false →
   ∃ pr' d', repo.AddReviewer d prID userID = (Ok pr', d')
     ∧ users d' = users d ∧ pull_requests d' = pull_requests d
     ∧ pr_reviewers d' = pr_reviewers d ++ [(prID, userID)]
     ∧ repo.GetPR d' prID = Ok pr'
     ∧ userID ∈ reviewer_ids (PullRequest.Assigned pr')
     ∧ (wf_db d → ∀ pr, repo.GetPR d prID = Ok pr →
          length (PullRequest.Assigned pr') = S (length (PullRequest.Assigned pr))))
  ∧ (has_pr d prID && has_user d userID && negb (has_reviewer d prID userID) = false →
     ∃ e, repo.AddReviewer d prID userID = (Err e, d)).
Proof.
  split.
  - intros Hp Hu Hr. unfold repo.AddReviewer.
    destruct (repo.insert_reviewer d prID userID) as [d'|e] eqn:Hins.
    2:{ unfold repo.insert_reviewer in Hins. by rewrite Hr, Hp, Hu in Hins. }
    pose proof Hins as (_ & _ & _ & Hd')%insert_reviewer_Ok.
    assert (Hp' : has_pr d' prID = true) by (by subst d').
    destruct (has_pr_GetPR d' prID Hp') as [pr' Hget]. rewrite Hget.
    exists pr', d'. split; [done|]. subst d'. cbn [users pull_requests pr_reviewers].
    split; [done|]. split; [done|]. split; [done|]. split; [done|]. split.
    + apply has_user_elem in Hu as (u & Hin & <-).
      eapply reviewer_row_assigned; [exact Hget|done|]. cbn. apply elem_of_app. right. by left.
    + intros Hwf pr Hpr.
      pose proof (insert_reviewer_wf _ _ _ _ Hwf Hins) as Hwf'.
      rewrite (GetPR_Assigned _ _ _ Hget), (GetPR_Assigned _ _ _ Hpr).
      rewrite !reviewers_of_length.
      * unfold reviewer_rows. cbn [pr_reviewers]. rewrite filter_app, length_app.
        rewrite filter_cons_True by done. cbn. lia.
      * apply Hwf.
      * intros rr [_ ?]%list_elem_of_filter. by apply Hwf.
      * apply Hwf'.
      * intros rr [_ ?]%list_elem_of_filter. by apply Hwf'.
  - intros Hno. unfold repo.AddReviewer, repo.insert_reviewer.
    destruct (has_reviewer d prID userID); [eauto|].
    rewrite andb_true_r in Hno. rewrite Hno. eauto.
Qed.

Lemma count_rows_of_user d uid :
  NoDup (User.UserID <$> users d) → has_user d uid = true →
  length (filter (λ u, User.UserID u = uid) (users d) ≫= λ u,
            filter (λ rr : string * string, rr.2 = User.UserID u) (pr_reviewers d))
  = review_count d uid.
Proof.
  intros Hnd (u & Hin & <-)%has_user_elem.
  rewrite (filter_key_NoDup User.UserID _ u) by done. cbn. by rewrite app_nil_r.
Qed.

(** X27: [GetReviewerStats] never fails.  With unique user ids, the map it
    returns has an entry exactly for the stored users, inactive ones and
    users without any review included, and the entry of a user is the number
    of reviewer rows of that user. *)
Theorem GetReviewerStats_counts d :
  NoDup (User.UserID <$> users d) →
  ∃ stats, repo.GetReviewerStats d = Ok stats
    ∧ ∀ uid, stats !! uid
             = if has_user d uid then Some (review_count d uid) else None.
Proof.
  intros Hnd. eexists. split; [reflexivity|]. intros uid.
  match goal with |- list_to_map ?l !! _ = _ => set (rows := l) end.
  assert (Hkeys : rows.*1 = remove_dups (User.UserID <$> users d)).
  { unfold rows. rewrite <- list_fmap_compose. apply list_fmap_id. }
  destruct (has_user d uid) eqn:Hu.
  - apply elem_of_list_to_map; [rewrite Hkeys; apply NoDup_remove_dups|].
    unfold rows. apply list_elem_of_fmap. exists uid. split.
    + f_equal. symmetry. by apply count_rows_of_user.
    + apply elem_of_remove_dups. by apply has_user_ids.
  - apply not_elem_of_list_to_map. rewrite Hkeys, elem_of_remove_dups.
    intros Hin%has_user_ids. congruence.
Qed.

(** In the scenario of the specification u2 reviews one pull request, u1
    none, and an unknown id has no entry. *)
Lemma GetReviewerStats_counts_witness :
  ∃ stats, repo.GetReviewerStats db_backend = Ok stats
    ∧ stats !! "u2" = Some 1 ∧ stats !! "u1" = Some 0 ∧ stats !! "u9" = None.
Proof.
  destruct (GetReviewerStats_counts db_backend) as (stats & Hget & Hstats).
  { apply (bool_decide_unpack _). vm_compute. exact I. }
  exists stats. split; [exact Hget|]. by rewrite !Hstats.
Defined.

(** ** The worker *)

Lemma logJobResult_eq jobType durationStr job r w :
  jobType = Type_ job →
  logJobResult jobType durationStr r.2 (Error_ r.1) w
  = Return () (add_log w [job_entry durationStr job r]).
Proof. intros ->. unfold logJobResult, job_entry. by destruct (Error_ r.1). Qed.

Lemma workerLoop_job_eq durationStr job s w r w1 :
  handleJob job w = Return r w1 →
  workerLoop_job durationStr job s w
  = match reply_chan s job with
    | None => Return s (add_log w1 [job_entry durationStr job r])
    | Some (ch, c) =>
        match try_send c r.1 with
        | Ready c' => Return (with_chan s ch c') (add_log w1 [job_entry durationStr job r])
        | NotReady =>
            Return s (add_log w1 [job_entry durationStr job r; dropped_entry job])
        | SendOnClosed => Panic
        end
    end.
Proof.
  intros Hrun. unfold workerLoop_job.
  rewrite (bind_Return _ _ _ _ _ Hrun).
  rewrite (bind_Return _ _ _ _ _ (logJobResult_eq _ durationStr job r w1 eq_refl)).
  fold (reply_chan s job). destruct (reply_chan s job) as [[ch c]|]; [|done].
  destruct (try_send c r.1); [done| |done].
  unfold mbind, M_bind. rewrite Log_eq. by rewrite add_log_app.
Qed.

(** X28: a worker answers every job it has handled and never blocks on the
    answer.  When [handleJob] returns, the worker logs one entry for the
    job, a success with the duration or the error, and offers the result to
    the reply channel of the job: the result is delivered if the channel
    can take it; if it cannot, the result is dropped and a warning is
    logged; without a reply channel nothing is sent. *)
Theorem worker_answers durationStr job s w r w1 :
  handleJob job w = Return r w1 →
  match reply_chan s job with
  | None =>
      workerLoop_job durationStr job s w
      = Return s (add_log w1 [job_entry durationStr job r])
  | Some (ch, c) =>
      (can_receive c →
       ∃ c', workerLoop_job durationStr job s w
             = Return (with_chan s ch c') (add_log w1 [job_entry durationStr job r])
         ∧ delivered c' ≡ₚ r.1 :: delivered c)
      ∧ (closed c = false → ¬ can_receive c →
         workerLoop_job durationStr job s w
         = Return s (add_log w1 [job_entry durationStr job r; dropped_entry job]))
  end.
Proof.
  intros Hrun. rewrite (workerLoop_job_eq _ _ _ _ _ _ Hrun).
  destruct (reply_chan s job) as [[ch c]|]; [|done]. split.
  - intros Hc. destruct (try_send_Ready c r.1 Hc) as (c' & -> & Hd & _). by exists c'.
  - intros Hopen Hn. by rewrite try_send_NotReady.
Qed.

(** A [merge_pr] job without an id, handled for a caller that listens and
    for one whose channel is full. *)
Lemma worker_answers_witness :
  (∃ c', workerLoop_job "0.1ms" (mkJob "merge_pr" ∅ (Some 7)) (svc_full reply_empty)
           (world db_backend [])
         = Return (with_chan (svc_full reply_empty) 7 c')
             (add_log (world db_backend [])
                [mkLog ERROR "unknown job type" []])
     ∧ delivered c' ≡ₚ [mkJobResult AnyNil (Some ErrUnknownJobType)])
  ∧ workerLoop_job "0.1ms" (mkJob "merge_pr" ∅ (Some 7)) (svc_full reply_taken)
      (world db_backend [])
    = Return (svc_full reply_taken)
        (add_log (world db_backend [])
           [mkLog ERROR "unknown job type" [];
            dropped_entry (mkJob "merge_pr" ∅ (Some 7))]).
Proof.
  split.
  - pose proof (worker_answers "0.1ms" (mkJob "merge_pr" ∅ (Some 7)) (svc_full reply_empty)
                  (world db_backend []) unknown_result (world db_backend []) eq_refl) as H.
    change (reply_chan (svc_full reply_empty) (mkJob "merge_pr" ∅ (Some 7)))
      with (Some (7, reply_empty)) in H.
    destruct H as [H _]. apply H. split; [reflexivity|right; cbn; lia].
  - pose proof (worker_answers "0.1ms" (mkJob "merge_pr" ∅ (Some 7)) (svc_full reply_taken)
                  (world db_backend []) unknown_result (world db_backend []) eq_refl) as H.
    change (reply_chan (svc_full reply_taken) (mkJob "merge_pr" ∅ (Some 7)))
      with (Some (7, reply_taken)) in H.
    destruct H as [_ H]. apply H; [reflexivity|]. intros [_ [Hc|Hc]]; cbn in Hc; lia.
Defined.

(** X29: the way of a job through the dispatcher.  A job is submitted with
    a fresh one-slot reply channel to a running service whose queue is
    empty and has no worker waiting; it is queued, it is the job a worker
    takes next, and when the worker has handled it the reply channel holds
    exactly the result of [handleJob] for this job, while the queue is
    empty again. *)
Theorem job_round_trip durationStr s job ch w r w1 :
  stopped s = false →
  closed (jobs s) = false →
  receivers (jobs s) = 0 →
  buf (jobs s) = [] →
  0 < cap (jobs s) →
  RespCh job = Some ch →
  chans s !! ch = Some fresh_reply →
  handleJob job w = Return r w1 →
  ∃ s1 s2 s3,
    EnqueueJob s job = Proceed s1
    ∧ take_job s1 = Some (job, s2)
    ∧ workerLoop_job durationStr job s2 w
      = Return s3 (add_log w1 [job_entry durationStr job r])
    ∧ chans s3 !! ch = Some (mkChan 1 [r.1] 0 [] false)
    ∧ buf (jobs s3) = []
    ∧ svc_log s3 = svc_log s.
Proof.
  intros Hrun Hopen Hrecv Hbuf Hcap Hresp Hch Hjob.
  assert (Hstep : EnqueueJob s job = Proceed (with_buf s [job])).
  { unfold EnqueueJob, select_send, try_send. rewrite Hrun, Hopen, Hrecv, Hbuf.
    rewrite bool_decide_false by lia. rewrite bool_decide_true by (cbn; lia).
    unfold with_buf. by rewrite Hrun, Hopen, Hrecv. }
  set (s2 := mkService (mkChan (cap (jobs s)) [] (receivers (jobs s)) (handed (jobs s))
                          (closed (jobs s)))
               (stopped s) (chans s) (svc_log s)).
  assert (Hreply : reply_chan s2 job = Some (ch, fresh_reply)).
  { unfold reply_chan. rewrite Hresp. cbn. by rewrite Hch. }
  exists (with_buf s [job]), s2, (with_chan s2 ch (mkChan 1 [r.1] 0 [] false)).
  split; [exact Hstep|]. split; [reflexivity|]. split; [|split; [|done]].
  - rewrite (workerLoop_job_eq _ _ _ _ _ _ Hjob), Hreply. reflexivity.
  - cbn [with_chan chans]. by rewrite lookup_insert_eq.
Qed.

Lemma job_round_trip_witness :
  ∃ s1 s2 s3,
    EnqueueJob (mkService (mkChan jobQueueSize [] 0 [] false) false {[7 := fresh_reply]} [])
      (mkJob "merge_pr" ∅ (Some 7)) = Proceed s1
    ∧ take_job s1 = Some (mkJob "merge_pr" ∅ (Some 7), s2)
    ∧ workerLoop_job "0.1ms" (mkJob "merge_pr" ∅ (Some 7)) s2 (world db_backend [])
      = Return s3 (add_log (world db_backend []) [mkLog ERROR "unknown job type" []])
    ∧ chans s3 !! 7 = Some (mkChan 1 [mkJobResult AnyNil (Some ErrUnknownJobType)] 0 [] false).
Proof.
  destruct (job_round_trip "0.1ms"
              (mkService (mkChan jobQueueSize [] 0 [] false) false {[7 := fresh_reply]} [])
              (mkJob "merge_pr" ∅ (Some 7)) 7 (world db_backend []) unknown_result
              (world db_backend []))
    as (s1 & s2 & s3 & H1 & H2 & H3 & H4 & _);
    [reflexivity..|unfold jobQueueSize; cbn; lia|reflexivity|reflexivity|reflexivity|].
  exists s1, s2, s3. done.
Defined.

(** ** The constraints of the schema are an invariant *)

Lemma read_only_keeps_schema {A} (m : M A) : read_only m → keeps_schema m.
Proof.
  intros Hm w Hwf. specialize (Hm w).
  destruct (m w) as [a w'|e w'| |]; [| |done..]; destruct Hm as [Hdb _]; by rewrite Hdb.
Qed.

Lemma keeps_schema_bind {A B} (m : M A) (k : A → M B) :
  keeps_schema m → (∀ a, keeps_schema (k a)) → keeps_schema (m ≫= k).
Proof.
  intros Hm Hk w Hwf. unfold mbind, M_bind. specialize (Hm w Hwf).
  destruct (m w) as [a w1|e w1| |]; [|done..]. by apply Hk.
Qed.

Lemma keeps_schema_exec {A} (f : DB → result A * DB) :
  (∀ d, wf_db d → wf_db (f d).2) → keeps_schema (exec f).
Proof. intros Hf w Hwf. cbn. by apply Hf. Qed.

Lemma keeps_schema_try {A} (m : M A) : keeps_schema m → keeps_schema (try m).
Proof. intros Hm w Hwf. unfold try. specialize (Hm w Hwf). by destruct (m w). Qed.

Lemma keeps_schema_for_range {A S} (l : list A) (body : S → A → M S) :
  (∀ s x, keeps_schema (body s x)) → ∀ s, keeps_schema (for_range l s body).
Proof.
  intros Hb. induction l as [|x l IH]; intros s; cbn [for_range].
  - by apply read_only_keeps_schema, read_only_ret.
  - apply keeps_schema_bind; [apply Hb|]. intros s'. apply IH.
Qed.

Lemma has_user_set_active on b d uid :
  has_user (repo.set_active on b d) uid = has_user d uid.
Proof.
  unfold has_user, repo.set_active. cbn [users].
  induction (users d) as [|u l IH]; [done|]. rewrite fmap_cons. cbn [existsb].
  rewrite IH. f_equal. by destruct (on u).
Qed.

Lemma set_active_wf on b d : wf_db d → wf_db (repo.set_active on b d).
Proof.
  intros Hwf. split.
  - unfold repo.set_active. cbn [users]. rewrite <- list_fmap_compose.
    rewrite (list_fmap_ext _ User.UserID (users d)); [apply Hwf|].
    intros i u _. cbn. by destruct (on u).
  - apply Hwf.
  - apply Hwf.
  - apply Hwf.
  - intros rr Hin. rewrite has_user_set_active. by apply Hwf.
  - intros p Hin. rewrite has_user_set_active. by apply Hwf.
Qed.

Lemma UpdateUserActive_wf d userID b : wf_db d → wf_db (repo.UpdateUserActive d userID b).2.
Proof.
  intros Hwf. unfold repo.UpdateUserActive. destruct (existsb _ _); [|done].
  by apply set_active_wf.
Qed.

Lemma SetTeamActive_wf d teamName b : wf_db d → wf_db (repo.SetTeamActive d teamName b).2.
Proof.
  intros Hwf. unfold repo.SetTeamActive. destruct (existsb _ _); [|done].
  by apply set_active_wf.
Qed.

Lemma repo_MergePR_wf d prID t : wf_db d → wf_db (repo.MergePR d prID t).2.
Proof.
  intros Hwf. unfold repo.MergePR. cbn [snd].
  match goal with |- wf_db (mkDB _ _ (?g <$> _) _) => set (stamp := g) end.
  assert (Hid : ∀ p, pull_request_id (stamp p) = pull_request_id p
                     ∧ author_id (stamp p) = author_id p).
  { intros p. unfold stamp. by destruct (repo.by_pr prID p). }
  assert (Hhas : ∀ x, has_pr (mkDB (teams d) (users d) (stamp <$> pull_requests d) (pr_reviewers d)) x
                      = has_pr d x).
  { intros x. unfold has_pr. cbn [pull_requests].
    induction (pull_requests d) as [|p l IH]; [done|]. rewrite fmap_cons. cbn [existsb].
    rewrite IH. by destruct (Hid p) as [-> _]. }
  split; cbn [users pull_requests pr_reviewers].
  - apply Hwf.
  - rewrite <- list_fmap_compose.
    rewrite (list_fmap_ext _ pull_request_id (pull_requests d)); [apply Hwf|].
    intros i p _. cbn. apply Hid.
  - apply Hwf.
  - intros rr Hin. rewrite Hhas. by apply Hwf.
  - apply Hwf.
  - intros p (p0 & -> & Hin)%list_elem_of_fmap. destruct (Hid p0) as [_ ->].
    by apply (prs_fk_author _ Hwf).
Qed.

Lemma delete_reviewer_wf d prID uid : wf_db d → wf_db (repo.delete_reviewer d prID uid).
Proof.
  intros Hwf. split; cbn.
  - apply Hwf.
  - apply Hwf.
  - apply NoDup_filter, Hwf.
  - intros rr [_ Hin]%list_elem_of_filter. by apply Hwf.
  - intros rr [_ Hin]%list_elem_of_filter. by apply Hwf.
  - apply Hwf.
Qed.

Lemma ReplaceReviewer_wf d prID oldUID newUID :
  wf_db d → wf_db (repo.ReplaceReviewer d prID oldUID newUID).2.
Proof.
  intros Hwf. unfold repo.ReplaceReviewer.
  set (d1 := if String.eqb oldUID "" then d else repo.delete_reviewer d prID oldUID).
  assert (Hwf1 : wf_db d1)
    by (unfold d1; destruct (String.eqb oldUID ""); [done|by apply delete_reviewer_wf]).
  destruct (if String.eqb newUID "" then Ok d1 else repo.insert_reviewer d1 prID newUID)
    as [d2|e] eqn:E; [|done].
  assert (Hwf2 : wf_db d2).
  { destruct (String.eqb newUID ""); [by injection E as <-|]. by eapply insert_reviewer_wf. }
  by destruct (_ && _).
Qed.

Lemma repo_CreatePR_wf_any d pr : wf_db d → wf_db (repo.CreatePR d pr).2.
Proof.
  intros Hwf. destruct (repo.CreatePR d pr) as [[u|e] d'] eqn:E; cbn [snd].
  - by eapply repo_CreatePR_wf.
  - apply repo_CreatePR_Err in E. by subst.
Qed.

Lemma InsertTeam_wf d team : wf_db d → wf_db (repo.InsertTeam d team).2.
Proof. apply with_team_wf. Qed.

Create HintDb schema.

#[export] Hint Resolve UpdateUserActive_wf SetTeamActive_wf repo_MergePR_wf
  ReplaceReviewer_wf repo_CreatePR_wf_any InsertTeam_wf : schema.

(** Splits a computation along its binds and case distinctions; what only
    reads keeps the constraints, what writes does so by the lemma of the
    repository method. *)
Ltac ks :=
  repeat first
    [ solve [apply read_only_keeps_schema; ro]
    | apply keeps_schema_exec; intros ? ?; cbn beta; solve [auto with schema]
    | apply keeps_schema_bind; [|intros ?]
    | apply keeps_schema_try
    | apply keeps_schema_for_range; intros ? ?
    | match goal with
      | |- keeps_schema (match ?x with _ => _ end) => destruct x
      | |- keeps_schema (let _ := _ in _) => cbn zeta
      end ].

Lemma keeps_schema_AddTeam team : keeps_schema (AddTeam team).
Proof. unfold AddTeam. ks. Qed.

Lemma keeps_schema_SetUserActive userID b : keeps_schema (SetUserActive userID b).
Proof. unfold SetUserActive. ks. Qed.

Lemma keeps_schema_CreatePR pr : keeps_schema (CreatePR pr).
Proof. unfold CreatePR. ks. Qed.

Lemma keeps_schema_MergePR prID : keeps_schema (MergePR prID).
Proof. unfold MergePR. ks. Qed.

Lemma keeps_schema_Reassign prID oldUser : keeps_schema (Reassign prID oldUser).
Proof. unfold Reassign, Reassign_commit. ks. Qed.

Lemma keeps_schema_reassignReviewer prID oldUID teamName :
  keeps_schema (reassignReviewer prID oldUID teamName).
Proof. unfold reassignReviewer. ks. Qed.

Lemma keeps_schema_DeactivateTeam teamName : keeps_schema (DeactivateTeam teamName).
Proof.
  unfold DeactivateTeam, cleanup_member, cleanup_pr, replace_if_inactive. ks;
    apply keeps_schema_reassignReviewer.
Qed.

(** X30: the constraints of the schema are an invariant of the service.
    Whatever job [handleJob] is given, and whether the method it calls
    returns or fails, a database with unique user ids, unique pull request
    ids, unique reviewer rows and valid references is left as one; the same
    holds for [AddTeam]. *)
Theorem service_keeps_schema :
  (∀ team, keeps_schema (AddTeam team))
  ∧ (∀ job, keeps_schema (handleJob job)).
Proof.
  split; [apply keeps_schema_AddTeam|].
  intros job. unfold handleJob, unknown. ks;
    first [ apply keeps_schema_CreatePR | apply keeps_schema_MergePR
          | apply keeps_schema_Reassign | apply keeps_schema_SetUserActive
          | apply keeps_schema_DeactivateTeam ].
Qed.
